(** * College predictor front end: table parser, table renderer, chat stream

    A shallow embedding of the TypeScript sources
      - utils/tableParser.ts        (hasMarkdownTable, parseMarkdownTable,
                                     splitContentWithTables, getHighlightRules)
      - components/chat/TableMessage.tsx (sort, filter, CSV export, badges)
      - services/chatService.ts     (ChatService reconnect logic)
      - pages/AIChat.tsx            (the WebSocket message handler)
    and the properties of them stated by the specification. *)

From Stdlib Require Import ZArith NArith QArith Lqa List Bool Lia String Ascii.
From Stdlib Require Import DecimalString Sorted.
From stdpp Require Import base option list gmap.
Close Scope Q_scope.
Open Scope N_scope.

(** ** The ECMAScript values the sources manipulate *)

Module JS.

(** A JavaScript string is a sequence of UTF-16 code units. *)
Definition codeUnit := N.
Definition jsstring := list codeUnit.

(** Code units of a literal written in ASCII. *)
Definition jss (s : string) : jsstring :=
  map N_of_ascii (list_ascii_of_string s).

Definition LF : codeUnit := 10.
Definition PIPE : codeUnit := 124.
Definition HASH : codeUnit := 35.
Definition COMMA : codeUnit := 44.
Definition QUOTE : codeUnit := 34.
Definition UNDERSCORE : codeUnit := 95.

Definition isEmpty (s : jsstring) : bool :=
  match s with [] => true | _ => false end.

(** Truthiness of a string: [Boolean(s)]. *)
Definition truthy (s : jsstring) : bool := negb (isEmpty s).

Fixpoint eqb (s t : jsstring) : bool :=
  match s, t with
  | [], [] => true
  | c :: s', d :: t' => (c =? d) && eqb s' t'
  | _, _ => false
  end.

(** WhiteSpace and LineTerminator code points: the set used by
    [String.prototype.trim], by the regular expression class [\s] and by
    [parseFloat]. *)
Definition isWhiteSpace (c : codeUnit) : bool :=
  (c =? 9) || (c =? 10) || (c =? 11) || (c =? 12) || (c =? 13) || (c =? 32)
  || (c =? 160) || (c =? 5760) || ((8192 <=? c) && (c <=? 8202))
  || (c =? 8232) || (c =? 8233) || (c =? 8239) || (c =? 8287)
  || (c =? 12288) || (c =? 65279).

Fixpoint dropWhile (p : codeUnit -> bool) (s : jsstring) : jsstring :=
  match s with
  | [] => []
  | c :: s' => if p c then dropWhile p s' else s
  end.

Fixpoint takeWhile (p : codeUnit -> bool) (s : jsstring) : jsstring :=
  match s with
  | [] => []
  | c :: s' => if p c then c :: takeWhile p s' else []
  end.

Definition trimStart (s : jsstring) : jsstring := dropWhile isWhiteSpace s.
Definition trimEnd (s : jsstring) : jsstring :=
  rev (dropWhile isWhiteSpace (rev s)).

(** [s.trim()] *)
Definition trim (s : jsstring) : jsstring := trimEnd (trimStart s).

(** [s.split(sep)] for a separator of one code unit. *)
Fixpoint split (sep : codeUnit) (s : jsstring) : list jsstring :=
  match s with
  | [] => [[]]
  | c :: s' =>
      if c =? sep then [] :: split sep s'
      else match split sep s' with
           | piece :: pieces => (c :: piece) :: pieces
           | [] => [[c]]
           end
  end.

(** [parts.join(sep)] *)
Fixpoint join (sep : jsstring) (parts : list jsstring) : jsstring :=
  match parts with
  | [] => []
  | [p] => p
  | p :: rest => p ++ sep ++ join sep rest
  end.

(** [s.startsWith(prefix)] *)
Fixpoint startsWith (prefix s : jsstring) : bool :=
  match prefix, s with
  | [], _ => true
  | _ :: _, [] => false
  | p :: prefix', c :: s' => (p =? c) && startsWith prefix' s'
  end.

(** [s.includes(needle)] *)
Fixpoint includes (needle s : jsstring) : bool :=
  startsWith needle s ||
  match s with
  | [] => false
  | _ :: s' => includes needle s'
  end.

(** [s.replace(/c/g, by)] for a pattern of one code unit. *)
Fixpoint replaceAll (c : codeUnit) (by_ : jsstring) (s : jsstring) : jsstring :=
  match s with
  | [] => []
  | d :: s' => (if d =? c then by_ else [d]) ++ replaceAll c by_ s'
  end.

(** Decimal rendering of an array index, as in a template literal. *)
Definition ofNat (n : nat) : jsstring :=
  jss (NilEmpty.string_of_uint (Nat.to_uint n)).

(** *** Regular expressions

    The patterns of the sources use no capture groups, and [RegExp.test]
    only asks whether some match exists, so a derivative matcher gives the
    answer. *)
Inductive regex : Type :=
| Void
| Eps
| Cls (p : codeUnit -> bool)
| Cat (r s : regex)
| Alt (r s : regex)
| Star (r : regex).

Fixpoint nullable (r : regex) : bool :=
  match r with
  | Void => false
  | Eps => true
  | Cls _ => false
  | Cat r s => nullable r && nullable s
  | Alt r s => nullable r || nullable s
  | Star _ => true
  end.

Fixpoint deriv (c : codeUnit) (r : regex) : regex :=
  match r with
  | Void => Void
  | Eps => Void
  | Cls p => if p c then Eps else Void
  | Cat r s =>
      if nullable r then Alt (Cat (deriv c r) s) (deriv c s)
      else Cat (deriv c r) s
  | Alt r s => Alt (deriv c r) (deriv c s)
  | Star r => Cat (deriv c r) (Star r)
  end.

(** The whole of [s] is in the language of [r]. *)
Fixpoint accepts (r : regex) (s : jsstring) : bool :=
  match s with
  | [] => nullable r
  | c :: s' => accepts (deriv c r) s'
  end.

Definition Chr (c : codeUnit) : regex := Cls (N.eqb c).
Definition Plus (r : regex) : regex := Cat r (Star r).
Definition anyUnit : regex := Cls (fun _ => true).

(** [r.test(s)] for a pattern without anchors: a match may start and end
    anywhere. *)
Definition test (r : regex) (s : jsstring) : bool :=
  accepts (Cat (Star anyUnit) (Cat r (Star anyUnit))) s.

(** *** Numbers

    A Number is NaN, an infinity or a finite value.  Finite values are kept
    as rationals, and the two zeros are not told apart.  [parseFloat], the
    one place where the sources make a Number out of text, rounds the
    decimal value of the literal to the nearest IEEE-754 double.  The
    arithmetic [sub] and [mul] is exact: the sources use a difference only
    through its sign and a product only as twice a threshold in a
    comparison, and on doubles rounding changes neither. *)
Inductive number : Type :=
| NaN
| Infinite (negative : bool)
| Finite (q : Q).

Definition ofZ (z : Z) : number := Finite (inject_Z z).

Definition isNaN (n : number) : bool :=
  match n with NaN => true | _ => false end.

(** [a <= b] on Numbers: false as soon as one side is NaN. *)
Definition leb (a b : number) : bool :=
  match a, b with
  | NaN, _ | _, NaN => false
  | Infinite true, _ => true
  | _, Infinite false => true
  | Infinite false, _ => false
  | _, Infinite true => false
  | Finite x, Finite y => Qle_bool x y
  end.

(** [a > b] on Numbers: false as soon as one side is NaN. *)
Definition gtb (a b : number) : bool :=
  match a, b with
  | NaN, _ | _, NaN => false
  | Infinite neg, Infinite neg' => negb neg && neg'
  | Infinite neg, Finite _ => negb neg
  | Finite _, Infinite neg' => neg'
  | Finite x, Finite y => negb (Qle_bool x y)
  end.

(** [a - b] *)
Definition sub (a b : number) : number :=
  match a, b with
  | NaN, _ | _, NaN => NaN
  | Infinite neg, Infinite neg' =>
      if Bool.eqb neg neg' then NaN else Infinite neg
  | Infinite neg, Finite _ => Infinite neg
  | Finite _, Infinite neg' => Infinite (negb neg')
  | Finite x, Finite y => Finite (Qminus x y)
  end.

(** [a * b]: zero times an infinity is NaN, otherwise the signs combine. *)
Definition mul (a b : number) : number :=
  match a, b with
  | NaN, _ | _, NaN => NaN
  | Finite x, Finite y => Finite (Qmult x y)
  | Infinite neg, Finite y =>
      if Qeq_bool y 0 then NaN
      else Infinite (if Qle_bool 0 y then neg else negb neg)
  | Finite x, Infinite neg' =>
      if Qeq_bool x 0 then NaN
      else Infinite (if Qle_bool 0 x then neg' else negb neg')
  | Infinite neg, Infinite neg' => Infinite (xorb neg neg')
  end.

Definition isDigit (c : codeUnit) : bool := (48 <=? c) && (c <=? 57).

(** Value of a run of decimal digits, most significant first. *)
Definition digitsValue (ds : jsstring) : Z :=
  fold_left (fun acc d => (10 * acc + (Z.of_N d - 48))%Z) ds 0%Z.

(** Mantissa [m] scaled by [10^e]. *)
Definition scale10 (m e : Z) : Q :=
  if (0 <=? e)%Z then inject_Z (m * 10 ^ e) else Qmake m (Z.to_pos (10 ^ (- e))).

(** The IEEE-754 double nearest to a rational, ties to the even
    significand: 53 significant bits, the spacing [2^-1074] below
    [2^-1022], and an infinity from [2^1024 - 2^970] on.  A rational that is
    a double is returned as it is. *)
Definition roundToDouble (q : Q) : number :=
  let n := Qnum q in
  let d := Zpos (Qden q) in
  if (n =? 0)%Z then Finite q
  else
    let a := Z.abs n in
    (* [e] is the binary exponent of [a / d]: [2^e <= a / d < 2^(e + 1)] *)
    let e0 := (Z.log2 a - Z.log2 d)%Z in
    let e :=
      if (a * 2 ^ Z.max 0 (- e0) <? d * 2 ^ Z.max 0 e0)%Z then (e0 - 1)%Z
      else e0 in
    (* [2^u] is the spacing of the doubles around [a / d] *)
    let u := Z.max (e - 52) (-1074) in
    let scaledNum := (a * 2 ^ Z.max 0 (- u))%Z in
    let scaledDen := (d * 2 ^ Z.max 0 u)%Z in
    let m := (scaledNum / scaledDen)%Z in
    let r := (scaledNum mod scaledDen)%Z in
    let m' :=
      if (2 * r <? scaledDen)%Z then m
      else if (scaledDen <? 2 * r)%Z then (m + 1)%Z
      else if Z.even m then m else (m + 1)%Z in
    if (1024 <=? e)%Z || (2 ^ 1024 <=? m' * 2 ^ Z.max 0 u)%Z
    then Infinite (n <? 0)%Z
    else if (r =? 0)%Z then Finite q
    else
      let signed := if (n <? 0)%Z then (- m')%Z else m' in
      if (0 <=? u)%Z then Finite (inject_Z (signed * 2 ^ u))
      else Finite (Qred (Qmake signed (Z.to_pos (2 ^ (- u))))).

(** An optional sign, read off the front. *)
Definition readSign (s : jsstring) : bool * jsstring :=
  match s with
  | 43 :: s' => (false, s')
  | 45 :: s' => (true, s')
  | _ => (false, s)
  end.

(** The ExponentPart of a StrDecimalLiteral at the front of [s]: its value,
    or 0 when [s] does not start with a complete exponent. *)
Definition readExponent (s : jsstring) : Z :=
  match s with
  | c :: s' =>
      if (c =? 101) || (c =? 69) then
        let '(neg, s'') := readSign s' in
        let es := takeWhile isDigit s'' in
        if isEmpty es then 0%Z
        else if neg then (- digitsValue es)%Z else digitsValue es
      else 0%Z
  | [] => 0%Z
  end.

(** [parseFloat(s)]: leading white space is skipped, then the longest prefix
    that is a StrDecimalLiteral is evaluated and rounded to a double; NaN
    when there is none. *)
Definition parseFloat (s : jsstring) : number :=
  let '(neg, body) := readSign (trimStart s) in
  if startsWith (jss "Infinity") body then Infinite neg
  else
    let ds := takeWhile isDigit body in
    let r1 := dropWhile isDigit body in
    let '(fs, r2) :=
      match r1 with
      | 46 :: r1' => (takeWhile isDigit r1', dropWhile isDigit r1')
      | _ => ([], r1)
      end in
    if isEmpty ds && isEmpty fs then NaN
    else
      let m := digitsValue (ds ++ fs) in
      let e := (readExponent r2 - Z.of_nat (length fs))%Z in
      roundToDouble (scale10 (if neg then (- m)%Z else m) e).

(** *** Completions

    A computation either returns normally or throws.  Reading a property of
    [undefined] is the one way the modelled functions could throw. *)
Inductive completion (A : Type) : Type :=
| Normal (a : A)
| Throw.
Arguments Normal {A} a.
Arguments Throw {A}.

Definition bind {A B} (c : completion A) (k : A -> completion B) : completion B :=
  match c with
  | Normal a => k a
  | Throw => Throw
  end.

(** Use of a value that may be [undefined] as an object: a TypeError when it
    is. *)
Definition deref {A} (o : option A) : completion A :=
  match o with
  | Some a => Normal a
  | None => Throw
  end.

(** [xs.map(f)] when [f] may throw. *)
Fixpoint mapM {A B} (f : A -> completion B) (xs : list A) : completion (list B) :=
  match xs with
  | [] => Normal []
  | x :: xs' =>
      bind (f x) (fun y => bind (mapM f xs') (fun ys => Normal (y :: ys)))
  end.

(** *** Host functions

    Built-ins whose results depend on the Unicode tables or on the locale
    data of the engine are parameters of the development. *)
Class Host : Type := {
  (** [String.prototype.toLowerCase] *)
  toLowerCase : jsstring -> jsstring;
  (** A run of ASCII lower-case letters that occurs in a string still occurs
      in its lower-cased form. *)
  toLowerCase_includes : forall kw s,
    forallb (fun c => (97 <=? c) && (c <=? 122)) kw = true ->
    includes kw s = true -> includes kw (toLowerCase s) = true;
  (** [String.prototype.localeCompare]: negative, zero or positive. *)
  localeCompare : jsstring -> jsstring -> Z;
  (** [String(n)] for a Number. *)
  numberToString : number -> jsstring;
  (** [String(f)] for the built-in function whose [name] is given: text of
      the form [function name() { [native code] }], with white space that
      the engine chooses. *)
  functionToString : jsstring -> jsstring
}.

End JS.

(** ** utils/tableParser.ts *)

Module TableParser.
Import JS.

Inductive columnType : Type := TString | TNumber.

(** A column of [ParsedTable]; the optional members of the interface are
    options. *)
Record Column : Type := mkColumn {
  field : jsstring;
  headerName : jsstring;
  width : option number;
  sortable : option bool;
  type : option columnType
}.

(** A table cell: [string | number]. *)
Inductive cellValue : Type :=
| Str (s : jsstring)
| Num (n : number).

(** A row object [{ [key: string]: string | number }]. *)
Abbreviation Row := (gmap jsstring cellValue).

Record ParsedTable : Type := mkParsedTable {
  title : option jsstring;
  columns : list Column;
  rows : list Row
}.

Inductive partType : Type := Text | Table.

Record ContentPart : Type := mkPart {
  part_type : partType;
  part_content : jsstring
}.

Inductive highlightColor : Type := Success | Warning | Danger.

Record HighlightRule : Type := mkRule {
  rule_column : jsstring;
  threshold : number;
  color : highlightColor
}.

(** The pattern [/\|[^\n]+\|\s*\n\|[\s:-]+\|/]. *)
Definition tablePattern : regex :=
  Cat (Chr PIPE)
  (Cat (Plus (Cls (fun c => negb (c =? LF))))
  (Cat (Chr PIPE)
  (Cat (Star (Cls isWhiteSpace))
  (Cat (Chr LF)
  (Cat (Chr PIPE)
  (Cat (Plus (Cls (fun c => isWhiteSpace c || (c =? 58) || (c =? 45))))
       (Chr PIPE))))))).

Definition hasMarkdownTable (content : jsstring) : bool :=
  test tablePattern content.

(** [lines.findIndex(p)]; [None] stands for -1. *)
Fixpoint findIndex {A} (p : A -> bool) (xs : list A) : option nat :=
  match xs with
  | [] => None
  | x :: xs' => if p x then Some 0%nat else S <$> findIndex p xs'
  end.

(** [content.split('\n').filter((line) => line.trim())] *)
Definition nonBlankLines (content : jsstring) : list jsstring :=
  List.filter (fun line => truthy (trim line)) (split LF content).

Definition hasPipe (line : jsstring) : bool := includes [PIPE] line.

(** [prevLine.replace(/^#+\s*/, '')] *)
Definition stripHeadingMarker (s : jsstring) : jsstring :=
  match s with
  | 35 :: _ => trimStart (dropWhile (N.eqb HASH) s)
  | _ => s
  end.

(** The two code units of the graduation-cap glyph U+1F393. *)
Definition capGlyph : jsstring := [55356; 57235].

(** [s.replace(/^\s*<glyph>\s*/, '')] *)
Definition stripGlyph (s : jsstring) : jsstring :=
  let s1 := trimStart s in
  if startsWith capGlyph s1 then trimStart (drop 2 s1) else s.

Definition titleOf (prevLine : jsstring) : jsstring :=
  trim (stripGlyph (stripHeadingMarker prevLine)).

(** [line.split('|').map((cell) => cell.trim()).filter((cell) => cell)] *)
Definition splitCells (line : jsstring) : list jsstring :=
  List.filter truthy (map trim (split PIPE line)).

Definition isFieldChar (c : codeUnit) : bool :=
  ((97 <=? c) && (c <=? 122)) || isDigit c.

(** [s.replace(/[^a-z0-9]+/g, '_')]; [inRun] tells that the previous code
    unit was already replaced. *)
Fixpoint collapseRuns (inRun : bool) (s : jsstring) : jsstring :=
  match s with
  | [] => []
  | c :: s' =>
      if isFieldChar c then c :: collapseRuns false s'
      else if inRun then collapseRuns true s'
      else UNDERSCORE :: collapseRuns true s'
  end.

(** [s.replace(/^_|_$/g, '')] *)
Definition stripEdgeUnderscores (s : jsstring) : jsstring :=
  let s1 := match s with 95 :: s' => s' | _ => s end in
  match rev s1 with
  | 95 :: r => rev r
  | _ => s1
  end.

Section WithHost.
Context `{H : Host}.

Definition fieldOf (header : jsstring) : jsstring :=
  stripEdgeUnderscores (collapseRuns false (toLowerCase header)).

Definition isNumericColumn (header : jsstring) : bool :=
  includes (jss "rank") (toLowerCase header)
  || includes (jss "cutoff") (toLowerCase header)
  || includes (jss "count") (toLowerCase header)
  || includes (jss "total") (toLowerCase header).

(** The callback of [headerCells.map((header, index) => ...)]. *)
Definition columnOf (index : nat) (header : jsstring) : Column :=
  let field := fieldOf header in
  {| field := if truthy field then field else jss "col_" ++ ofNat index;
     headerName := header;
     width := None;
     sortable := Some true;
     type := Some (if isNumericColumn header then TNumber else TString) |}.

End WithHost.

(** The value stored for [cell] under [column]. *)
Definition convertCell (column : Column) (cell : jsstring) : cellValue :=
  match type column with
  | Some TNumber =>
      let numValue := parseFloat (replaceAll COMMA [] cell) in
      if negb (isNaN numValue) then Num numValue else Str cell
  | _ => Str cell
  end.

(** [cells.forEach((cell, index) => ...)], from position [index] on. *)
Fixpoint fillRow (columns : list Column) (cells : list jsstring) (index : nat)
    (row : Row) : completion Row :=
  match cells with
  | [] => Normal row
  | cell :: rest =>
      bind
        (if (index <? length columns)%nat then
           bind (deref (columns !! index)) (fun column =>
             Normal (<[field column := convertCell column cell]> row))
         else Normal row)
        (fun row' => fillRow columns rest (S index) row')
  end.

(** The callback of [tableLines.slice(2).map((line) => ...)]. *)
Definition rowOf (columns : list Column) (line : jsstring) : completion Row :=
  fillRow columns (splitCells line) 0 ∅.

(** The row that the loop of [rowOf] builds when nothing throws: one write
    per position that has both a column and a cell, in order, a later write
    replacing an earlier one under the same field. *)
Definition zipRow (columns : list Column) (cells : list jsstring) : Row :=
  foldl (fun row cc => <[field cc.1 := convertCell cc.1 cc.2]> row) ∅
        (zip columns cells).

(** The value of the local [tableLines] for [content]. *)
Definition tableLinesOf (content : jsstring) : list jsstring :=
  match findIndex hasPipe (nonBlankLines content) with
  | Some tableStartIndex =>
      List.filter hasPipe (drop tableStartIndex (nonBlankLines content))
  | None => []
  end.

Section WithHost.
Context `{H : Host}.

Definition parseMarkdownTable (content : jsstring)
    : completion (option ParsedTable) :=
  let lines := nonBlankLines content in
  match findIndex hasPipe lines with
  | None => Normal None
  | Some tableStartIndex =>
      bind
        (if (0 <? tableStartIndex)%nat then
           bind (deref (lines !! (tableStartIndex - 1)%nat)) (fun prevLine =>
             Normal (if startsWith [HASH] prevLine
                     then Some (titleOf prevLine) else None))
         else Normal None)
        (fun title =>
           let tableLines := List.filter hasPipe (drop tableStartIndex lines) in
           if (length tableLines <? 3)%nat then Normal None
           else
             bind (deref (tableLines !! 0%nat)) (fun headerLine =>
               let headerCells := splitCells headerLine in
               let columns := imap columnOf headerCells in
               bind (mapM (rowOf columns) (drop 2 tableLines)) (fun rows =>
                 Normal (Some {| title := title;
                                 columns := columns;
                                 rows := rows |}))))
  end.

End WithHost.

(** The part being accumulated by the loop of [splitContentWithTables]. *)
Record Pending : Type := mkPending {
  pending_type : partType;
  pending_lines : list jsstring
}.

Record SplitState : Type := mkSplitState {
  parts : list ContentPart;
  currentPart : option Pending;
  inTable : bool
}.

Definition flush (st : SplitState) : list ContentPart :=
  match currentPart st with
  | Some p =>
      parts st ++ [ {| part_type := pending_type p;
                       part_content := join [LF] (pending_lines p) |} ]
  | None => parts st
  end.

(** One iteration of [for (const line of lines)]. *)
Definition splitStep (st : SplitState) (line : jsstring) : SplitState :=
  let isTableLine := startsWith [PIPE] (trim line) in
  if isTableLine && negb (inTable st) then
    {| parts := flush st;
       currentPart := Some {| pending_type := Table; pending_lines := [line] |};
       inTable := true |}
  else if negb isTableLine && inTable st then
    {| parts := flush st;
       currentPart := Some {| pending_type := Text; pending_lines := [line] |};
       inTable := false |}
  else
    {| parts := parts st;
       currentPart :=
         match currentPart st with
         | None => Some {| pending_type := Text; pending_lines := [line] |}
         | Some p => Some {| pending_type := pending_type p;
                             pending_lines := pending_lines p ++ [line] |}
         end;
       inTable := inTable st |}.

Definition splitContentWithTables (content : jsstring) : list ContentPart :=
  let st := fold_left splitStep (split LF content)
              {| parts := []; currentPart := None; inTable := false |} in
  List.filter (fun part => truthy (trim (part_content part))) (flush st).

(** [getHighlightRules(columns)] *)
Definition getHighlightRules (columns : list Column) : list HighlightRule :=
  flat_map (fun col =>
    match type col with
    | Some TNumber =>
        if includes (jss "cutoff") (field col) || includes (jss "rank") (field col)
        then [ {| rule_column := field col;
                  threshold := ofZ 5000;
                  color := Success |} ]
        else []
    | _ => []
    end) columns.

End TableParser.

(** ** components/chat/TableMessage.tsx *)

Module TableMessage.
Import JS TableParser.

Inductive direction : Type := Asc | Desc.

(** The props of the component. *)
Record Props : Type := mkProps {
  prop_title : option jsstring;
  prop_columns : list Column;
  prop_rows : list Row;
  highlightRules : list HighlightRule
}.

(** The component's [useState] cells. *)
Record State : Type := mkState {
  sortColumn : jsstring;
  sortDirection : direction;
  searchQuery : jsstring;
  showSearch : bool
}.

Definition initialState : State :=
  {| sortColumn := []; sortDirection := Asc; searchQuery := []; showSearch := false |}.

Inductive badge : Type := Gold | Silver | Bronze.

(** The members of [Object.prototype], which a row object inherits: built-in
    functions, given by their [name], and [Object.prototype] itself, which
    is what the accessor [__proto__] returns. *)
Inductive prototypeMember : Type :=
| PrototypeFunction (name : jsstring)
| PrototypeObject.

(** [Object.prototype[key]], for the keys that [Object.prototype] has. *)
Definition objectPrototype (key : jsstring) : option prototypeMember :=
  if eqb key (jss "constructor") then Some (PrototypeFunction (jss "Object"))
  else if existsb (eqb key)
            [jss "hasOwnProperty"; jss "isPrototypeOf";
             jss "propertyIsEnumerable"; jss "toLocaleString";
             jss "toString"; jss "valueOf";
             jss "__defineGetter__"; jss "__defineSetter__";
             jss "__lookupGetter__"; jss "__lookupSetter__"]
  then Some (PrototypeFunction key)
  else if eqb key (jss "__proto__") then Some PrototypeObject
  else None.

(** The result of the property read [row[key]]. *)
Inductive property : Type :=
| Own (v : cellValue)
| Inherited (member : prototypeMember)
| Undefined.

(** [row[key]]: the own property when the row has one, else the member of
    [Object.prototype] of that name, else [undefined]. *)
Definition getProperty (row : Row) (key : jsstring) : property :=
  match row !! key with
  | Some v => Own v
  | None =>
      match objectPrototype key with
      | Some member => Inherited member
      | None => Undefined
      end
  end.

(** [typeof v === 'number'] for the result of a property read. *)
Definition asNumber (v : property) : option number :=
  match v with
  | Own (Num n) => Some n
  | _ => None
  end.

(** [Array.prototype.sort(cmp)]: the sort is stable, and a comparator
    result that is NaN counts as zero, so an element moves behind another
    only when the comparator is positive.  For a consistent comparator every
    conforming engine returns this order. *)
Section Sort.
Context {A : Type} (cmp : A -> A -> number).

Fixpoint insertSorted (x : A) (sorted : list A) : list A :=
  match sorted with
  | [] => [x]
  | y :: rest =>
      if gtb (cmp x y) (ofZ 0) then y :: insertSorted x rest
      else x :: sorted
  end.

Definition sort (xs : list A) : list A := fold_right insertSorted [] xs.

End Sort.

Section WithHost.
Context `{H : Host}.

(** [String(v)] for the result of a property read. *)
Definition toString (v : property) : jsstring :=
  match v with
  | Undefined => jss "undefined"
  | Own (Str s) => s
  | Own (Num n) => numberToString n
  | Inherited (PrototypeFunction name) => functionToString name
  | Inherited PrototypeObject => jss "[object Object]"
  end.

(** The comparator passed to [sort] in [sortedRows]. *)
Definition compareRows (sortColumn : jsstring) (sortDirection : direction)
    (a b : Row) : number :=
  let aVal := getProperty a sortColumn in
  let bVal := getProperty b sortColumn in
  match asNumber aVal, asNumber bVal with
  | Some x, Some y =>
      match sortDirection with Asc => sub x y | Desc => sub y x end
  | _, _ =>
      let aStr := toLowerCase (toString aVal) in
      let bStr := toLowerCase (toString bVal) in
      match sortDirection with
      | Asc => ofZ (localeCompare aStr bStr)
      | Desc => ofZ (localeCompare bStr aStr)
      end
  end.

Definition sortedRows (p : Props) (st : State) : list Row :=
  if isEmpty (sortColumn st) then prop_rows p
  else sort (compareRows (sortColumn st) (sortDirection st)) (prop_rows p).

(** [Object.values(row)] *)
Definition values (row : Row) : list cellValue :=
  snd <$> map_to_list row.

Definition filteredRows (p : Props) (st : State) : list Row :=
  if isEmpty (trim (searchQuery st)) then sortedRows p st
  else
    let query := toLowerCase (searchQuery st) in
    List.filter (fun row =>
      existsb (fun val => includes query (toLowerCase (toString (Own val))))
              (values row))
      (sortedRows p st).

(** One cell of the exported file. *)
Definition csvCell (val : property) : jsstring :=
  let escaped := replaceAll QUOTE [QUOTE; QUOTE] (toString val) in
  [QUOTE] ++ escaped ++ [QUOTE].

(** [csvContent] as built by [handleExport]. *)
Definition csvContent (p : Props) (st : State) : jsstring :=
  join [LF]
    (join [COMMA] (map headerName (prop_columns p))
     :: map (fun row =>
               join [COMMA]
                 (map (fun col => csvCell (getProperty row (field col)))
                      (prop_columns p)))
            (filteredRows p st)).

(** The test of the cell renderer for a cutoff or rank column. *)
Definition isRankColumn (col : Column) : bool :=
  includes (jss "cutoff") (toLowerCase (field col))
  || includes (jss "rank") (toLowerCase (field col)).

End WithHost.

Definition flipDirection (d : direction) : direction :=
  match d with Asc => Desc | Desc => Asc end.

Definition handleSort (field : jsstring) (st : State) : State :=
  if eqb (sortColumn st) field then
    {| sortColumn := sortColumn st;
       sortDirection := flipDirection (sortDirection st);
       searchQuery := searchQuery st;
       showSearch := showSearch st |}
  else
    {| sortColumn := field;
       sortDirection := Asc;
       searchQuery := searchQuery st;
       showSearch := showSearch st |}.

(** [onClick] of a header cell: [col.sortable !== false && handleSort(col.field)]. *)
Definition clickHeader (col : Column) (st : State) : State :=
  match sortable col with
  | Some false => st
  | _ => handleSort (field col) st
  end.

Definition sameColor (a b : highlightColor) : bool :=
  match a, b with
  | Success, Success | Warning, Warning | Danger, Danger => true
  | _, _ => false
  end.

(** [getCellColor(column, value)]: the background colour, as its CSS text. *)
Definition getCellColor (rules : list HighlightRule) (column : jsstring)
    (value : property) : option jsstring :=
  match List.find (fun r => eqb (rule_column r) column) rules, asNumber value with
  | Some rule, Some v =>
      if leb v (threshold rule) && sameColor (color rule) Success
      then Some (jss "#d4edda")
      else if gtb v (threshold rule) && leb v (mul (threshold rule) (ofZ 2))
              && sameColor (color rule) Warning
      then Some (jss "#fff3cd")
      else if gtb v (mul (threshold rule) (ofZ 2)) && sameColor (color rule) Danger
      then Some (jss "#f8d7da")
      else None
  | _, _ => None
  end.

Definition getRankBadge (rank : number) : option badge :=
  if leb rank (ofZ 1000) then Some Gold
  else if leb rank (ofZ 5000) then Some Silver
  else if leb rank (ofZ 20000) then Some Bronze
  else None.

(** What the renderer computes for one cell before drawing it. *)
Record CellView : Type := mkCellView {
  bgColor : option jsstring;
  rankBadge : option badge
}.

Section WithHost.
Context `{H : Host}.

Definition renderCell (p : Props) (col : Column) (row : Row) : CellView :=
  let value := getProperty row (field col) in
  {| bgColor := getCellColor (highlightRules p) (field col) value;
     rankBadge :=
       if isRankColumn col then
         match asNumber value with
         | Some v => getRankBadge v
         | None => None
         end
       else None |}.

End WithHost.

End TableMessage.

(** ** services/chatService.ts *)

Module ChatService.

(** The fields of [ChatService] that the reconnect logic reads and writes. *)
Record Service : Type := mkService {
  reconnectAttempts : N;
  maxReconnectAttempts : N
}.

(** The state after the constructor. *)
Definition newService : Service :=
  {| reconnectAttempts := 0; maxReconnectAttempts := 5 |}.

(** [handleReconnect()]: the new state, and the delay in milliseconds of the
    timer that will call [connect()], when one is set. *)
Definition handleReconnect (s : Service) : Service * option N :=
  if reconnectAttempts s <? maxReconnectAttempts s then
    let s' := {| reconnectAttempts := reconnectAttempts s + 1;
                 maxReconnectAttempts := maxReconnectAttempts s |} in
    (s', Some (1000 * reconnectAttempts s'))
  else (s, None).

(** The socket callbacks installed by [connect()]. *)
Definition onopen (s : Service) : Service :=
  {| reconnectAttempts := 0; maxReconnectAttempts := maxReconnectAttempts s |}.

Definition onclose (s : Service) : Service * option N := handleReconnect s.

(** The delay scheduled by the [n]-th consecutive close (counted from 1)
    after a successful open. *)
Definition backoffDelay (n : N) : option N :=
  snd (onclose {| reconnectAttempts := n - 1; maxReconnectAttempts := 5 |}).

(** A run of consecutive closes with no open in between: the timers set. *)
Fixpoint closes (k : nat) (s : Service) : Service * list (option N) :=
  match k with
  | O => (s, [])
  | S k' =>
      let '(s1, t) := onclose s in
      let '(s2, ts) := closes k' s1 in
      (s2, t :: ts)
  end.

End ChatService.

(** ** pages/AIChat.tsx *)

Module AIChat.
Import JS.

Inductive role : Type := User | Assistant | System | ThinkingRole.

Record ChatMessage : Type := mkChatMessage {
  message_id : jsstring;
  msg_role : role;
  content : jsstring;
  timestamp : jsstring;
  (** The optional [metadata?: any], kept as opaque text. *)
  metadata : option jsstring
}.

Record ThinkingStep : Type := mkThinkingStep {
  step : jsstring;
  step_timestamp : jsstring;
  completed : option bool
}.

(** The [useState] cells that the message handler writes. *)
Record State : Type := mkState {
  messages : list ChatMessage;
  thinkingSteps : list ThinkingStep;
  isProcessing : bool;
  isConnected : bool;
  error : jsstring
}.

(** The initial values given to [useState]. *)
Definition initialState : State :=
  {| messages := []; thinkingSteps := []; isProcessing := false;
     isConnected := true; error := [] |}.

(** The payloads pushed by the server, by their [type]. *)
Inductive ServerEvent : Type :=
| Welcome (message : jsstring)
| Thinking (step timestamp : jsstring)
| ToolCall (tool_name status : jsstring)
| ResponseChunk (content : jsstring)
| ResponseComplete (message_id full_content : jsstring)
| Error (message : option jsstring)
| History (messages : list ChatMessage)
| Unknown (type : jsstring).

Definition isAssistant (r : role) : bool :=
  match r with Assistant => true | _ => false end.

(** [prev.slice(0, -1)] *)
Definition dropLast {A} (xs : list A) : list A := removelast xs.

(** The updater passed to [setMessages] on [response_chunk]. *)
Definition appendChunk (now chunk : jsstring) (prev : list ChatMessage)
    : list ChatMessage :=
  let fresh := {| message_id := jss "streaming"; msg_role := Assistant;
                  content := chunk; timestamp := now; metadata := None |} in
  match last prev with
  | Some lastMessage =>
      if isAssistant (msg_role lastMessage)
         && negb (startsWith (jss "final-") (message_id lastMessage))
      then dropLast prev ++
           [ {| message_id := message_id lastMessage;
                msg_role := msg_role lastMessage;
                content := content lastMessage ++ chunk;
                timestamp := timestamp lastMessage;
                metadata := metadata lastMessage |} ]
      else prev ++ [fresh]
  | None => prev ++ [fresh]
  end.

(** The updater passed to [setMessages] on [response_complete]. *)
Definition finalize (id full_content : jsstring) (prev : list ChatMessage)
    : list ChatMessage :=
  match last prev with
  | Some lastMessage =>
      if eqb (message_id lastMessage) (jss "streaming")
      then dropLast prev ++
           [ {| message_id := jss "final-" ++ id;
                msg_role := msg_role lastMessage;
                content := full_content;
                timestamp := timestamp lastMessage;
                metadata := metadata lastMessage |} ]
      else prev
  | None => prev
  end.

(** The updater passed to [setThinkingSteps] on a completed [tool_call]. *)
Definition completeLast (prev : list ThinkingStep) : list ThinkingStep :=
  imap (fun i s =>
          if (i =? length prev - 1)%nat
          then {| step := step s; step_timestamp := step_timestamp s;
                  completed := Some true |}
          else s) prev.

Definition setMessages (f : list ChatMessage -> list ChatMessage) (st : State) : State :=
  {| messages := f (messages st); thinkingSteps := thinkingSteps st;
     isProcessing := isProcessing st; isConnected := isConnected st;
     error := error st |}.

Definition setThinkingSteps (f : list ThinkingStep -> list ThinkingStep) (st : State) : State :=
  {| messages := messages st; thinkingSteps := f (thinkingSteps st);
     isProcessing := isProcessing st; isConnected := isConnected st;
     error := error st |}.

Definition setIsProcessing (b : bool) (st : State) : State :=
  {| messages := messages st; thinkingSteps := thinkingSteps st;
     isProcessing := b; isConnected := isConnected st; error := error st |}.

Definition setIsConnected (b : bool) (st : State) : State :=
  {| messages := messages st; thinkingSteps := thinkingSteps st;
     isProcessing := isProcessing st; isConnected := b; error := error st |}.

Definition setError (e : jsstring) (st : State) : State :=
  {| messages := messages st; thinkingSteps := thinkingSteps st;
     isProcessing := isProcessing st; isConnected := isConnected st; error := e |}.

(** The handler registered with [service.onMessage].  [isExistingSession] is
    the variable captured from [initializeChat]; [now] is the text of
    [new Date().toISOString()] at the time of the call. *)
Definition onMessage (isExistingSession : bool) (now : jsstring)
    (ev : ServerEvent) (st : State) : State :=
  match ev with
  | Welcome message =>
      let st1 :=
        if negb isExistingSession then
          setMessages (fun _ =>
            [ {| message_id := jss "welcome"; msg_role := Assistant;
                 content := message; timestamp := now; metadata := None |} ]) st
        else st in
      setIsConnected true st1
  | Thinking step timestamp =>
      setThinkingSteps (fun prev =>
        prev ++ [ {| step := step; step_timestamp := timestamp;
                     completed := None |} ]) st
  | ToolCall _ status =>
      if eqb status (jss "completed")
      then setThinkingSteps completeLast st
      else st
  | ResponseChunk chunk => setMessages (appendChunk now chunk) st
  | ResponseComplete id full_content =>
      setMessages (finalize id full_content)
        (setIsProcessing false (setThinkingSteps (fun _ => []) st))
  | Error message =>
      let text :=
        match message with
        | Some m => if truthy m then m else jss "An error occurred"
        | None => jss "An error occurred"
        end in
      setThinkingSteps (fun _ => []) (setIsProcessing false (setError text st))
  | History messages => setMessages (fun _ => messages) st
  | Unknown _ => st
  end.

(** [handleSendMessage(message)] when the socket accepts the message;
    [stamp] is the text of [Date.now()]. *)
Definition handleSendMessage (stamp now message : jsstring) (st : State) : State :=
  if isProcessing st then st
  else
    setError []
      (setIsProcessing true
        (setMessages (fun prev =>
           prev ++ [ {| message_id := jss "user-" ++ stamp; msg_role := User;
                        content := message; timestamp := now;
                        metadata := None |} ]) st)).

(** The events of a session, each with the clock reading at its arrival,
    handled in order of arrival. *)
Definition run (isExistingSession : bool) (evs : list (jsstring * ServerEvent))
    (st : State) : State :=
  fold_left (fun st e => onMessage isExistingSession (fst e) (snd e) st) evs st.

End AIChat.

(** ** A host for ASCII text

    An instance of the host functions, used to evaluate the definitions on
    concrete inputs.  It agrees with ECMAScript on ASCII text and on
    integers. *)

Module SampleHost.
Import JS.

Definition lowerUnit (c : codeUnit) : codeUnit :=
  if (65 <=? c) && (c <=? 90) then c + 32 else c.

Fixpoint compareUnits (s t : jsstring) : Z :=
  match s, t with
  | [], [] => 0%Z
  | [], _ :: _ => (-1)%Z
  | _ :: _, [] => 1%Z
  | c :: s', d :: t' =>
      if c <? d then (-1)%Z else if d <? c then 1%Z else compareUnits s' t'
  end.

(** Up to [fuel] decimals of the fraction [r / d], for [0 <= r < d]. *)
Fixpoint fractionDigits (fuel : nat) (r d : Z) : jsstring :=
  match fuel with
  | O => []
  | S fuel' =>
      if (r =? 0)%Z then []
      else Z.to_N (48 + (10 * r) / d) :: fractionDigits fuel' ((10 * r) mod d) d
  end.

Definition printNumber (n : number) : jsstring :=
  match n with
  | NaN => jss "NaN"
  | Infinite neg => (if neg then jss "-" else []) ++ jss "Infinity"
  | Finite q =>
      let num := Qnum q in
      let den := Zpos (Qden q) in
      let a := Z.abs num in
      (if (num <? 0)%Z then jss "-" else [])
      ++ jss (NilEmpty.string_of_uint (N.to_uint (Z.to_N (a / den))))
      ++ (if (a mod den =? 0)%Z then []
          else jss "." ++ fractionDigits 20 (a mod den) den)
  end.

(** The text of a built-in function, with the white space of V8. *)
Definition printFunction (name : jsstring) : jsstring :=
  jss "function " ++ name ++ jss "() { [native code] }".

(** The letter under which a collation files a lower-case letter of Latin-1
    that carries a diacritic: code units 224 to 229 are forms of [a], 231 of
    [c], 232 to 235 of [e], 236 to 239 of [i], 241 of [n], 242 to 246 of
    [o], 249 to 252 of [u], 253 and 255 of [y]. *)
Definition baseLetter (c : codeUnit) : codeUnit :=
  if (224 <=? c) && (c <=? 229) then 97
  else if c =? 231 then 99
  else if (232 <=? c) && (c <=? 235) then 101
  else if (236 <=? c) && (c <=? 239) then 105
  else if c =? 241 then 110
  else if (242 <=? c) && (c <=? 246) then 111
  else if (249 <=? c) && (c <=? 252) then 117
  else if (c =? 253) || (c =? 255) then 121
  else c.

(** A comparison in the manner of the collations that engines use for
    [localeCompare]: the base letters decide, and the diacritics count only
    between strings with the same base letters. *)
Definition collate (s t : jsstring) : Z :=
  let primary := compareUnits (map baseLetter s) (map baseLetter t) in
  if (primary =? 0)%Z then compareUnits s t else primary.

End SampleHost.

(** The host above, as an instance of the host interface. *)
Definition asciiHost : JS.Host.
Proof.
  refine {| JS.toLowerCase := map SampleHost.lowerUnit;
            JS.localeCompare := SampleHost.compareUnits;
            JS.numberToString := SampleHost.printNumber;
            JS.functionToString := SampleHost.printFunction;
            JS.toLowerCase_includes := _ |}.
  intros kw s Hkw.
  assert (Hpre : forall t, JS.startsWith kw t = true ->
                           JS.startsWith kw (map SampleHost.lowerUnit t) = true).
  { clear s. induction kw as [|k kw IH]; intros t Ht; [reflexivity|].
    destruct t as [|c t]; [discriminate|]. simpl in *.
    apply andb_prop in Hkw as [Hk Hkw]. apply andb_prop in Ht as [Hc Ht].
    apply N.eqb_eq in Hc. subst c. rewrite (IH Hkw t Ht), andb_true_r.
    unfold SampleHost.lowerUnit.
    apply andb_prop in Hk as [Hk1 Hk2].
    apply N.leb_le in Hk1. apply N.leb_le in Hk2.
    destruct (k <=? 90) eqn:E; [apply N.leb_le in E; lia|].
    rewrite andb_false_r. apply N.eqb_refl. }
  induction s as [|c s IH]; simpl; intros Hs.
  - exact Hs.
  - apply orb_prop in Hs as [Hs|Hs].
    + pose proof (Hpre (c :: s) Hs) as E. simpl in E. rewrite E. reflexivity.
    + rewrite (IH Hs). apply orb_true_r.
Defined.

(** The same host with a [localeCompare] that collates. *)
Definition collatingHost : JS.Host :=
  {| JS.toLowerCase := map SampleHost.lowerUnit;
     JS.toLowerCase_includes := @JS.toLowerCase_includes asciiHost;
     JS.localeCompare := SampleHost.collate;
     JS.numberToString := SampleHost.printNumber;
     JS.functionToString := SampleHost.printFunction |}.

(** ** The claims of the specification that the code does not meet, in the
    specification's words *)

Module Stated.
Import JS TableParser TableMessage.

(** "dropping only empty edge cells": an empty first piece and an empty last
    piece are removed, the pieces in between are kept. *)
Definition dropEmptyEdges (pieces : list jsstring) : list jsstring :=
  let pieces1 := match pieces with [] :: rest => rest | _ => pieces end in
  match rev pieces1 with
  | [] :: r => rev r
  | _ => pieces1
  end.

(** "splitting the line on '|', trimming each piece, and dropping only empty
    edge cells" *)
Definition edgeCells (line : jsstring) : list jsstring :=
  dropEmptyEdges (map trim (split PIPE line)).

(** The row construction as the specification words it: the edge-trimmed
    cells zipped against the columns by position. *)
Definition rowsByEdgeCells `{H : Host} : Prop :=
  forall content t,
    parseMarkdownTable content = Normal (Some t) ->
    rows t = map (fun line => zipRow (columns t) (edgeCells line))
                 (drop 2 (tableLinesOf content)).

(** "a missing cell leaving that column's field absent from the row
    mapping" *)
Definition missingCellAbsent `{H : Host} : Prop :=
  forall content t i col line row,
    parseMarkdownTable content = Normal (Some t) ->
    columns t !! i = Some col ->
    (zip (drop 2 (tableLinesOf content)) (rows t)) !! 0%nat = Some (line, row) ->
    (length (splitCells line) <= i)%nat ->
    row !! field col = None.

(** "otherwise compares the lower-cased stringified values
    lexicographically": when the two values are not both numbers, the sign
    of the comparator is that of the comparison, code unit by code unit, of
    their lower-cased string forms. *)
Definition lexicographicComparator `{H : Host} : Prop :=
  forall (col : jsstring) (a b : Row),
    asNumber (getProperty a col) = None \/ asNumber (getProperty b col) = None ->
    exists z : Z,
      compareRows col Asc a b = ofZ z /\
      Z.sgn z =
        Z.sgn (SampleHost.compareUnits
                 (toLowerCase (toString (getProperty a col)))
                 (toLowerCase (toString (getProperty b col)))).

(** "returns a single part of type 'text' whose content equals the trimmed
    input" *)
Definition singleTrimmedTextPart : Prop :=
  forall content,
    forallb (fun line => negb (startsWith [PIPE] (trim line)))
            (split LF content) = true ->
    splitContentWithTables content =
      [ {| part_type := Text; part_content := trim content |} ].

(** "exponentially increasing backoff delay as a function of the attempt
    number": the delays of the attempts form a geometric progression of
    ratio greater than one. *)
Definition exponentialBackoff (delay : N -> option N) : Prop :=
  exists base factor : Q,
    (1 < factor)%Q /\
    forall n : N, 1 <= n <= 5 ->
      exists d, delay n = Some d /\
                (inject_Z (Z.of_N d) == base * factor ^ Z.of_N n)%Q.

End Stated.

(** ** Inputs used to evaluate the definitions *)

Module Samples.
Import JS TableParser.

(** A table whose data row has an empty cell in the middle. *)
Definition gapTable : jsstring :=
  jss "| A | B | C |" ++ [LF] ++ jss "|---|---|---|" ++ [LF] ++ jss "| 1 |  | 3 |".

(** A table whose two headers give the same field, with a one-cell row. *)
Definition clashTable : jsstring :=
  jss "| A | a |" ++ [LF] ++ jss "|---|---|" ++ [LF] ++ jss "| 1 |".

(** A table with a numeric column. *)
Definition rankTable : jsstring :=
  jss "## Cutoffs" ++ [LF] ++ jss "| College | Cutoff Rank |" ++ [LF]
  ++ jss "|:--|--:|" ++ [LF] ++ jss "| RVCE | 1,234 |" ++ [LF]
  ++ jss "| BMS | n/a | extra |" ++ [LF] ++ jss "| PES |".

(** The cell value [He said "hi", ok]. *)
Definition quotedCell : jsstring :=
  jss "He said " ++ [QUOTE] ++ jss "hi" ++ [QUOTE] ++ jss ", ok".

(** Its serialization: the same text between two quotes, with each quote
    inside it written twice. *)
Definition quotedCellCsv : jsstring :=
  [QUOTE] ++ jss "He said " ++ [QUOTE; QUOTE] ++ jss "hi" ++ [QUOTE; QUOTE]
  ++ jss ", ok" ++ [QUOTE].


(** The table parsed from [content] by the ASCII host, or an empty table
    when there is none. *)
Definition parsed (content : jsstring) : ParsedTable :=
  match parseMarkdownTable (H := asciiHost) content with
  | Normal (Some t) => t
  | _ => {| title := None; columns := []; rows := [] |}
  end.

Definition rankField : jsstring := jss "cutoff_rank".

Definition rankColumn : Column :=
  {| field := rankField; headerName := jss "Cutoff Rank"; width := None;
     sortable := Some true; type := Some TNumber |}.

Definition branchColumn : Column :=
  {| field := jss "branch"; headerName := jss "Branch"; width := None;
     sortable := Some true; type := Some TString |}.

Definition rankRow (branch : string) (rank : Z) : Row :=
  <[jss "branch" := Str (jss branch)]> (<[rankField := Num (ofZ rank)]> ∅).

(** Rows with the rank values 8603, 290 and 462, in this order. *)
Definition rankProps : TableMessage.Props :=
  {| TableMessage.prop_title := None;
     TableMessage.prop_columns := [branchColumn; rankColumn];
     TableMessage.prop_rows :=
       [rankRow "CS Computers" 8603; rankRow "ME Mechanical" 290;
        rankRow "EE Electrical" 462];
     TableMessage.highlightRules := getHighlightRules [branchColumn; rankColumn] |}.

(** The state after a click on the rank header. *)
Definition sortedByRank : TableMessage.State :=
  TableMessage.clickHeader rankColumn TableMessage.initialState.

(** The same, with [CS] typed in the search box. *)
Definition searchedCS : TableMessage.State :=
  {| TableMessage.sortColumn := rankField;
     TableMessage.sortDirection := TableMessage.Asc;
     TableMessage.searchQuery := jss "CS";
     TableMessage.showSearch := true |}.

End Samples.

(** ** The meaning of the regular expressions *)

Module RegexMeaning.
Import JS.

(** [matches r s]: the text [s], as a whole, belongs to the language of
    [r]. *)
Inductive matches : regex -> jsstring -> Prop :=
| MEps : matches Eps []
| MCls (p : codeUnit -> bool) (c : codeUnit) :
    p c = true -> matches (Cls p) [c]
| MCat (r s : regex) (u v : jsstring) :
    matches r u -> matches s v -> matches (Cat r s) (u ++ v)
| MAltL (r s : regex) (u : jsstring) : matches r u -> matches (Alt r s) u
| MAltR (r s : regex) (u : jsstring) : matches s u -> matches (Alt r s) u
| MStarNil (r : regex) : matches (Star r) []
| MStarCons (r : regex) (c : codeUnit) (u v : jsstring) :
    matches r (c :: u) -> matches (Star r) v -> matches (Star r) (c :: u ++ v).

End RegexMeaning.

(** ** services/chatService.ts: the socket of the service

    The service holds one socket at a time in [this.ws], but the callbacks
    it installs on a socket close over the service, so an event of a socket
    that the service has let go still runs them.  The sockets created are
    therefore kept in a store, and [ws] is an index into it. *)

Module ChatSocket.
Import JS.

(** [WebSocket.readyState] *)
Inductive readyState : Type := CONNECTING | OPEN | CLOSING | CLOSED.

(** The object that is serialized and handed to [ws.send]. *)
Inductive Frame : Type :=
| ChatMessageFrame (message : jsstring)
| GetHistoryFrame.

Record Client : Type := mkClient {
  service : ChatService.Service;
  (** Every socket created by [connect()], in order of creation. *)
  sockets : list readyState;
  (** [this.ws]: [null], or the socket at this index. *)
  ws : option nat;
  (** The frames handed to [send], with the socket they went to. *)
  sent : list (nat * Frame);
  (** The delays of the timers set by [handleReconnect()]. *)
  timers : list N;
  (** [this.messageHandlers]: a Set, in insertion order; a handler is known
      by its identity. *)
  messageHandlers : list nat
}.

(** The state after [new ChatService(sessionId)]. *)
Definition newClient : Client :=
  {| service := ChatService.newService; sockets := []; ws := None;
     sent := []; timers := []; messageHandlers := [] |}.

(** [connect()]: a new socket, still connecting, becomes [this.ws]. *)
Definition connect (c : Client) : Client :=
  {| service := service c;
     sockets := sockets c ++ [CONNECTING];
     ws := Some (length (sockets c));
     sent := sent c; timers := timers c;
     messageHandlers := messageHandlers c |}.

(** [socket.close()]: a socket that is connecting or open starts to close,
    any other is left as it is. *)
Definition closeSocket (id : nat) (store : list readyState) : list readyState :=
  match store !! id with
  | Some CONNECTING | Some OPEN => <[id := CLOSING]> store
  | _ => store
  end.

(** [disconnect()] *)
Definition disconnect (c : Client) : Client :=
  match ws c with
  | Some id =>
      {| service := service c;
         sockets := closeSocket id (sockets c);
         ws := None;
         sent := sent c; timers := timers c;
         messageHandlers := messageHandlers c |}
  | None => c
  end.

(** [isConnected()] *)
Definition isConnected (c : Client) : bool :=
  match ws c with
  | Some id =>
      match sockets c !! id with
      | Some OPEN => true
      | _ => false
      end
  | None => false
  end.

(** The body shared by [sendMessage] and [getHistory]: an Error is thrown
    unless [this.ws] is an open socket. *)
Definition sendFrame (frame : Frame) (c : Client) : completion Client :=
  match ws c with
  | Some id =>
      match sockets c !! id with
      | Some OPEN =>
          Normal {| service := service c; sockets := sockets c; ws := ws c;
                    sent := sent c ++ [(id, frame)];
                    timers := timers c;
                    messageHandlers := messageHandlers c |}
      | _ => Throw
      end
  | None => Throw
  end.

Definition sendMessage (message : jsstring) (c : Client) : completion Client :=
  sendFrame (ChatMessageFrame message) c.

Definition getHistory (c : Client) : completion Client :=
  sendFrame GetHistoryFrame c.

(** [onMessage(handler)]: [messageHandlers.add(handler)]. *)
Definition onMessage (handler : nat) (c : Client) : Client :=
  {| service := service c; sockets := sockets c; ws := ws c;
     sent := sent c; timers := timers c;
     messageHandlers :=
       if existsb (Nat.eqb handler) (messageHandlers c)
       then messageHandlers c
       else messageHandlers c ++ [handler] |}.

(** The function returned by [onMessage(handler)]:
    [messageHandlers.delete(handler)]. *)
Definition unsubscribe (handler : nat) (c : Client) : Client :=
  {| service := service c; sockets := sockets c; ws := ws c;
     sent := sent c; timers := timers c;
     messageHandlers :=
       List.filter (fun h => negb (Nat.eqb handler h)) (messageHandlers c) |}.

(** [handleMessage(data)]: the handlers called, in order, each with
    [data.type]. *)
Definition handleMessage (type : jsstring) (c : Client) : list (nat * jsstring) :=
  map (fun handler => (handler, type)) (messageHandlers c).

(** What reaches the service from outside. *)
Inductive Event : Type :=
| Opened (socket : nat)
| Closed (socket : nat)
| Failed (socket : nat)
| TimerFired.

(** The callbacks [onopen], [onclose] and [onerror] installed by
    [connect()], and the callback of the reconnect timer.  The socket's own
    state changes with the event. *)
Definition step (ev : Event) (c : Client) : Client :=
  match ev with
  | Opened id =>
      {| service := ChatService.onopen (service c);
         sockets := <[id := OPEN]> (sockets c);
         ws := ws c; sent := sent c; timers := timers c;
         messageHandlers := messageHandlers c |}
  | Closed id =>
      let '(s', timer) := ChatService.onclose (service c) in
      {| service := s';
         sockets := <[id := CLOSED]> (sockets c);
         ws := ws c; sent := sent c;
         timers := timers c ++ match timer with Some d => [d] | None => [] end;
         messageHandlers := messageHandlers c |}
  | Failed _ => c
  | TimerFired => connect c
  end.

Definition run (evs : list Event) (c : Client) : Client :=
  fold_left (fun c ev => step ev c) evs c.

End ChatSocket.

(** ** components/chat/ChatInput.tsx and the send path of pages/AIChat.tsx *)

Module ChatPage.
Import JS AIChat.

(** [handleSend()] of the input box: the message passed to [onSendMessage],
    if any, and the new text of the box. *)
Definition handleSend (disabled : bool) (message : jsstring)
    : option jsstring * jsstring :=
  let trimmed := trim message in
  if truthy trimmed && negb disabled then (Some trimmed, []) else (None, message).

(** The [disabled] prop that the page gives to the input box. *)
Definition inputDisabled (st : State) : bool :=
  isProcessing st || negb (isConnected st).

(** [handleSendMessage(message)] with the service of [chatServiceRef]:
    the user's message is appended before the send is tried, and a send
    that throws is caught. *)
Definition handleSendMessage (stamp now message : jsstring)
    (service : option ChatSocket.Client) (st : State)
    : option ChatSocket.Client * State :=
  match service with
  | None => (None, st)
  | Some c =>
      if isProcessing st then (Some c, st)
      else
        let st1 :=
          setMessages (fun prev =>
            prev ++ [ {| message_id := jss "user-" ++ stamp; msg_role := User;
                         content := message; timestamp := now;
                         metadata := None |} ]) st in
        match ChatSocket.sendMessage message c with
        | Normal c' => (Some c', setError [] (setIsProcessing true st1))
        | Throw =>
            (Some c,
             setIsProcessing false
               (setError (jss "Failed to send message. Please try again.") st1))
        end
  end.

(** A press of the send button: [handleSend] of the input box, wired to
    [handleSendMessage] of the page. *)
Definition submit (stamp now draft : jsstring)
    (service : option ChatSocket.Client) (st : State)
    : jsstring * option ChatSocket.Client * State :=
  match handleSend (inputDisabled st) draft with
  | (Some message, draft') =>
      let '(service', st') := handleSendMessage stamp now message service st in
      (draft', service', st')
  | (None, draft') => (draft', service, st)
  end.

(** [hasChatStarted] *)
Definition hasChatStarted (st : State) : bool :=
  (1 <? length (messages st))%nat.

End ChatPage.

(** ** pages/AIChat.tsx: the effect that opens the session

    The effect runs [initializeChat] when the page is mounted and again
    whenever [searchParams] changes; before it runs again, and when the page
    is unmounted, its cleanup sets the variable [cancelled] of the run
    before. *)

Module ChatInit.
Import JS AIChat.

(** What one run of [initializeChat] meets: the [session_id] of the URL, the
    outcomes of the requests that the run awaits, and the value of
    [cancelled] at the two points where the run resumes after an await. *)
Record Run : Type := mkRun {
  (** [searchParams.get('session_id')] *)
  sessionIdFromUrl : option jsstring;
  (** the awaited [chatApi.getMessages(sessionId)] *)
  history : completion (list ChatMessage);
  (** the [session_id] of the awaited [chatApi.createSession()] *)
  createdSession : completion jsstring;
  (** whether the awaited [service.connect()] resolves, or rejects *)
  connects : bool;
  (** [cancelled] once the request for the history or for the new session
      has returned *)
  cancelledAfterRequest : bool;
  (** [cancelled] once [service.connect()] has returned *)
  cancelledAfterConnect : bool
}.

(** How a run ends: before [service.onMessage], with the session id that it
    passed to [navigate], if it did; or with the handler registered, which
    has captured [isExistingSession]. *)
Inductive Outcome : Type :=
| Ended (navigatedTo : option jsstring) (st : State)
| Listening (sessionId : jsstring) (isExistingSession : bool) (st : State).

(** The [catch] of [initializeChat]. *)
Definition failed (st : State) : State :=
  setIsConnected false
    (setError (jss "Failed to initialize chat. Please refresh the page.") st).

(** From [if (cancelled) return;] to [service.onMessage]. *)
Definition connectAndListen (r : Run) (sessionId : jsstring)
    (isExistingSession : bool) (navigatedTo : option jsstring) (st : State)
    : Outcome :=
  if cancelledAfterRequest r then Ended navigatedTo st
  else if negb (connects r) then Ended navigatedTo (failed st)
  else if cancelledAfterConnect r then Ended navigatedTo st
  else Listening sessionId isExistingSession st.

(** [if (sessionIdFromUrl)] *)
Definition sessionInUrl (r : Run) : option jsstring :=
  match sessionIdFromUrl r with
  | Some id => if truthy id then Some id else None
  | None => None
  end.

(** [initializeChat()].  The call is made by the effect itself, before its
    cleanup can have run, so [cancelled] is false at the first test. *)
Definition initializeChat (r : Run) (st : State) : Outcome :=
  match sessionInUrl r with
  | Some sessionId =>
      let st1 :=
        match history r with
        | Normal loaded =>
            if (0 <? length loaded)%nat && negb (cancelledAfterRequest r)
            then setIsConnected true (setMessages (fun _ => loaded) st)
            else st
        | Throw => st
        end in
      connectAndListen r sessionId true None st1
  | None =>
      match createdSession r with
      | Normal sessionId =>
          connectAndListen r sessionId false
            (if cancelledAfterRequest r then None else Some sessionId) st
      | Throw => Ended None (failed st)
      end
  end.

(** Whether the run calls [navigate]. *)
Definition navigates (r : Run) : bool :=
  match sessionInUrl r, createdSession r with
  | None, Normal _ => negb (cancelledAfterRequest r)
  | _, _ => false
  end.

(** The part of React and of the router in a run: [navigate] puts the
    session id in the URL, which changes [searchParams], a dependency of the
    effect, so the cleanup of the run has set [cancelled] by the time the
    socket that the run opens is connected. *)
Definition rerunOnNavigate (r : Run) : bool :=
  implb (navigates r) (cancelledAfterConnect r).


End ChatInit.

(** ** Reading an exported file

    A reader of comma-separated text in which every field is quoted: a field
    runs from its opening quote to the next quote that is not followed by a
    quote, two quotes in a row stand for one, a comma ends a field and a
    line feed ends a record. *)

Module CsvReader.
Import JS.

Inductive position : Type :=
| AtField
| InField (text : jsstring)
| AfterQuote (text : jsstring).

Fixpoint read (input : jsstring) (pos : position) (record : list jsstring)
    (records : list (list jsstring)) : option (list (list jsstring)) :=
  match input with
  | [] =>
      match pos with
      | AtField =>
          match record, records with
          | [], [] => Some []
          | _, _ => None
          end
      | InField _ => None
      | AfterQuote text => Some (records ++ [record ++ [text]])
      end
  | c :: rest =>
      match pos with
      | AtField =>
          if c =? QUOTE then read rest (InField []) record records else None
      | InField text =>
          if c =? QUOTE then read rest (AfterQuote text) record records
          else read rest (InField (text ++ [c])) record records
      | AfterQuote text =>
          if c =? QUOTE then read rest (InField (text ++ [QUOTE])) record records
          else if c =? COMMA then read rest AtField (record ++ [text]) records
          else if c =? LF then read rest AtField [] (records ++ [record ++ [text]])
          else None
      end
  end.

(** The records of a text, each the list of its fields. *)
Definition records (input : jsstring) : option (list (list jsstring)) :=
  read input AtField [] [].

End CsvReader.

(** ** More inputs used to evaluate the definitions *)

Module MoreSamples.
Import JS TableParser.

(** A message with text around a table of two data rows. *)
Definition mixedMessage : jsstring :=
  jss "Here are the colleges:" ++ [LF] ++ Samples.rankTable ++ [LF]
  ++ jss "Good luck!".

(** A client whose socket is open. *)
Definition openClient : ChatSocket.Client :=
  ChatSocket.step (ChatSocket.Opened 0) (ChatSocket.connect ChatSocket.newClient).

(** The page of a session without history after the greeting. *)
Definition greeted : AIChat.State :=
  AIChat.onMessage true (jss "t0") (AIChat.Welcome (jss "Hello")) AIChat.initialState.

(** The page after the user's first question. *)
Definition asked : AIChat.State :=
  AIChat.handleSendMessage (jss "17") (jss "t1") (jss "Which colleges?") greeted.

(** The table part of [mixedMessage]. *)
Definition tablePart : ContentPart :=
  match splitContentWithTables mixedMessage with
  | _ :: part :: _ => part
  | _ => {| part_type := Text; part_content := [] |}
  end.

(** A client whose socket is still connecting. *)
Definition connectingClient : ChatSocket.Client :=
  ChatSocket.connect ChatSocket.newClient.

(** The run of [initializeChat] on a page opened without a session id, and
    the run that follows once [navigate] has put the new id in the URL. *)
Definition firstRun : ChatInit.Run :=
  {| ChatInit.sessionIdFromUrl := None;
     ChatInit.history := Throw;
     ChatInit.createdSession := Normal (jss "s1");
     ChatInit.connects := false;
     ChatInit.cancelledAfterRequest := false;
     ChatInit.cancelledAfterConnect := true |}.

Definition secondRun : ChatInit.Run :=
  {| ChatInit.sessionIdFromUrl := Some (jss "s1");
     ChatInit.history := Normal [];
     ChatInit.createdSession := Throw;
     ChatInit.connects := true;
     ChatInit.cancelledAfterRequest := false;
     ChatInit.cancelledAfterConnect := false |}.

(** Two rows whose names, the first with code unit 233 (e with an acute
    accent) in front, a collation and the order of code units rank in
    opposite ways. *)
Definition nameField : jsstring := jss "name".

Definition accentRow : Row :=
  {[ nameField := Str ([233] ++ jss "cole") ]}.

Definition plainRow : Row :=
  {[ nameField := Str (jss "zoo") ]}.

Definition nameProps : TableMessage.Props :=
  {| TableMessage.prop_title := None;
     TableMessage.prop_columns :=
       [ {| field := nameField; headerName := jss "Name"; width := None;
            sortable := Some true; type := Some TString |} ];
     TableMessage.prop_rows := [plainRow; accentRow];
     TableMessage.highlightRules := [] |}.

Definition sortedByName : TableMessage.State :=
  {| TableMessage.sortColumn := nameField;
     TableMessage.sortDirection := TableMessage.Asc;
     TableMessage.searchQuery := [];
     TableMessage.showSearch := false |}.

(** A table whose header gives the field [constructor] and whose one data
    line has no cell, its column, and the props that the chat message view
    passes for it: the row has no property of its own. *)
Definition constructorTable : jsstring :=
  jss "| Constructor |" ++ [LF] ++ jss "|---|" ++ [LF] ++ jss "|".

Definition constructorColumn : Column :=
  {| field := jss "constructor"; headerName := jss "Constructor";
     width := None; sortable := Some true; type := Some TString |}.

Definition constructorProps : TableMessage.Props :=
  {| TableMessage.prop_title := None;
     TableMessage.prop_columns := [constructorColumn];
     TableMessage.prop_rows := [(∅ : Row)];
     TableMessage.highlightRules := [] |}.

End MoreSamples.

(** ** Runs of lines

    The loop of [splitContentWithTables] cuts the lines of a message into
    maximal runs of table lines and of other lines.  The runs are computed
    here from the front of the list, to state what the loop returns. *)

Module LineRuns.
Import JS TableParser.

(** The kind of part that a line belongs to. *)
Definition kindOf (line : jsstring) : partType :=
  if startsWith [PIPE] (trim line) then Table else Text.

Definition sameKind (a b : partType) : bool :=
  match a, b with
  | Text, Text | Table, Table => true
  | _, _ => false
  end.

(** A run put in front of runs: it merges with the first of them when the
    kinds agree. *)
Definition glue (run : partType * list jsstring)
    (runs : list (partType * list jsstring)) : list (partType * list jsstring) :=
  match runs with
  | (kind, lines) :: rest =>
      if sameKind run.1 kind then (run.1, run.2 ++ lines) :: rest
      else run :: runs
  | [] => [run]
  end.

Fixpoint runsOf (lines : list jsstring) : list (partType * list jsstring) :=
  match lines with
  | [] => []
  | line :: rest => glue (kindOf line, [line]) (runsOf rest)
  end.

(** The part pushed for a run. *)
Definition partOf (run : partType * list jsstring) : ContentPart :=
  {| part_type := run.1; part_content := join [LF] run.2 |}.

End LineRuns.

(** ** Facts about the string and list primitives *)

Module Facts.
Import JS.

Lemma split_not_nil (sep : codeUnit) (s : jsstring) : split sep s <> [].
Proof.
  destruct s as [|c s]; simpl; [discriminate|].
  destruct (c =? sep); [discriminate|].
  destruct (split sep s); discriminate.
Qed.

(** Joining the pieces of a split with the separator gives the string back. *)
Lemma join_split (sep : codeUnit) (s : jsstring) :
  join [sep] (split sep s) = s.
Proof.
  induction s as [|c s IH]; [reflexivity|].
  simpl. destruct (c =? sep) eqn:E.
  - apply N.eqb_eq in E. subst c.
    pose proof (split_not_nil sep s) as Hne.
    destruct (split sep s) as [|p ps]; [contradiction|].
    simpl. simpl in IH. rewrite IH. reflexivity.
  - pose proof (split_not_nil sep s) as Hne.
    destruct (split sep s) as [|p ps]; [contradiction|].
    destruct ps as [|p' ps]; simpl in *; rewrite <- IH; reflexivity.
Qed.

Lemma eqb_eq (s t : jsstring) : eqb s t = true <-> s = t.
Proof.
  revert t. induction s as [|c s IH]; intros [|d t]; simpl;
    try (split; [discriminate|discriminate]); [split; reflexivity|].
  rewrite andb_true_iff, N.eqb_eq, IH. split.
  - intros [-> ->]. reflexivity.
  - intros E. injection E as -> ->. split; reflexivity.
Qed.

Lemma eqb_refl (s : jsstring) : eqb s s = true.
Proof. apply eqb_eq. reflexivity. Qed.

Lemma eqb_neq (s t : jsstring) : s <> t -> eqb s t = false.
Proof.
  intros Hne. destruct (eqb s t) eqn:E; [|reflexivity].
  apply eqb_eq in E. contradiction.
Qed.

(** An element moves behind another only when the comparator says so, hence
    sorting permutes. *)
Lemma insertSorted_Permutation {A} (cmp : A -> A -> number) (x : A) (l : list A) :
  Permutation (TableMessage.insertSorted cmp x l) (x :: l).
Proof.
  induction l as [|y l IH]; simpl; [reflexivity|].
  destruct (gtb (cmp x y) (ofZ 0)); [|reflexivity].
  rewrite IH. apply perm_swap.
Qed.

Lemma sort_Permutation {A} (cmp : A -> A -> number) (l : list A) :
  Permutation (TableMessage.sort cmp l) l.
Proof.
  induction l as [|x l IH]; simpl; [reflexivity|].
  rewrite insertSorted_Permutation. constructor. exact IH.
Qed.

(** When "not behind" is total and transitive for the comparator, the
    result of the sort is in order. *)
Section Sorted.
Context {A : Type} (cmp : A -> A -> number).

Let notBehind (x y : A) : Prop := gtb (cmp x y) (ofZ 0) = false.

Hypothesis notBehind_total : forall x y, notBehind x y \/ notBehind y x.
Hypothesis notBehind_trans :
  forall x y z, notBehind x y -> notBehind y z -> notBehind x z.

Lemma insertSorted_ordered (x : A) (l : list A) :
  StronglySorted notBehind l ->
  StronglySorted notBehind (TableMessage.insertSorted cmp x l).
Proof.
  induction 1 as [|y l Hl IH Hy]; simpl.
  - constructor; constructor.
  - destruct (gtb (cmp x y) (ofZ 0)) eqn:E.
    + constructor; [exact IH|].
      assert (Hyx : notBehind y x).
      { destruct (notBehind_total x y) as [Hxy|Hyx]; [|exact Hyx].
        unfold notBehind in Hxy. congruence. }
      apply List.Forall_forall. intros z Hz.
      apply (Permutation_in _ (insertSorted_Permutation cmp x l)) in Hz.
      destruct Hz as [<-|Hz]; [exact Hyx|].
      rewrite List.Forall_forall in Hy. apply Hy. exact Hz.
    + constructor; [constructor; assumption|].
      constructor; [exact E|].
      apply List.Forall_forall. intros z Hz. rewrite List.Forall_forall in Hy.
      apply (notBehind_trans x y z E). apply Hy. exact Hz.
Qed.

Lemma sort_ordered (l : list A) :
  StronglySorted notBehind (TableMessage.sort cmp l).
Proof.
  induction l as [|x l IH]; simpl; [constructor|].
  apply insertSorted_ordered. exact IH.
Qed.

End Sorted.

(** Doubling the quotes loses nothing: different texts are written
    differently. *)
Lemma double_quotes_injective (s t : jsstring) :
  replaceAll QUOTE [QUOTE; QUOTE] s = replaceAll QUOTE [QUOTE; QUOTE] t ->
  s = t.
Proof.
  revert t. induction s as [|c s IH]; intros [|d t]; simpl.
  - reflexivity.
  - destruct (d =? QUOTE); discriminate.
  - destruct (c =? QUOTE); discriminate.
  - destruct (c =? QUOTE) eqn:Ec, (d =? QUOTE) eqn:Ed; simpl; intros E.
    + apply N.eqb_eq in Ec, Ed. injection E as E. rewrite (IH t E). congruence.
    + injection E as E1 E2. apply N.eqb_neq in Ed. congruence.
    + injection E as E1 E2. apply N.eqb_neq in Ec. congruence.
    + injection E as E1 E2. rewrite (IH t E2). congruence.
Qed.

End Facts.

(** ** The table parser *)

Module ParserFacts.
Import JS TableParser Facts.

Lemma findIndex_lt {A} (p : A -> bool) (xs : list A) (i : nat) :
  findIndex p xs = Some i -> (i < length xs)%nat.
Proof.
  revert i. induction xs as [|x xs IH]; intros i; simpl; [discriminate|].
  destruct (p x).
  - intros [= <-]. lia.
  - destruct (findIndex p xs) as [j|]; simpl; [|discriminate].
    intros [= <-]. specialize (IH j eq_refl). lia.
Qed.

Lemma mapM_pure {A B} (f : A -> completion B) (g : A -> B) (xs : list A) :
  (forall x, f x = Normal (g x)) -> mapM f xs = Normal (map g xs).
Proof.
  intros Hf. induction xs as [|x xs IH]; simpl; [reflexivity|].
  rewrite Hf, IH. reflexivity.
Qed.

(** The loop over the cells never reads a column that is not there. *)
Lemma fillRow_foldl (cols : list Column) (cells : list jsstring) (index : nat)
    (row : Row) :
  fillRow cols cells index row =
  Normal (foldl (fun row cc => <[field cc.1 := convertCell cc.1 cc.2]> row) row
                (zip (drop index cols) cells)).
Proof.
  revert index row. induction cells as [|cell rest IH]; intros index row.
  - simpl. destruct (drop index cols); reflexivity.
  - simpl. destruct (index <? length cols)%nat eqn:E.
    + apply Nat.ltb_lt in E.
      destruct (lookup_lt_is_Some_2 cols index E) as [col Hcol].
      rewrite Hcol. simpl. rewrite IH.
      rewrite (drop_S cols col index Hcol). reflexivity.
    + apply Nat.ltb_ge in E. simpl. rewrite IH.
      rewrite (drop_ge cols index) by exact E.
      rewrite (drop_ge cols (S index)) by lia. reflexivity.
Qed.

Lemma rowOf_zipRow (cols : list Column) (line : jsstring) :
  rowOf cols line = Normal (zipRow cols (splitCells line)).
Proof. unfold rowOf, zipRow. rewrite fillRow_foldl, drop_0. reflexivity. Qed.

Section WithHost.
Context `{H : Host}.

(** What [parseMarkdownTable] returns, without the completion plumbing. *)
Lemma parse_normal_form (content : jsstring) :
  parseMarkdownTable content =
  Normal
    (match findIndex hasPipe (nonBlankLines content) with
     | None => None
     | Some i =>
         if (length (tableLinesOf content) <? 3)%nat then None
         else
           let cols :=
             imap columnOf (splitCells (default [] (head (tableLinesOf content)))) in
           Some {| title :=
                     if (0 <? i)%nat then
                       match nonBlankLines content !! (i - 1)%nat with
                       | Some prevLine =>
                           if startsWith [HASH] prevLine
                           then Some (titleOf prevLine) else None
                       | None => None
                       end
                     else None;
                   columns := cols;
                   rows := map (fun line => zipRow cols (splitCells line))
                               (drop 2 (tableLinesOf content)) |}
     end).
Proof.
  unfold parseMarkdownTable, tableLinesOf.
  destruct (findIndex hasPipe (nonBlankLines content)) as [i|] eqn:Hi;
    [|reflexivity].
  apply findIndex_lt in Hi.
  set (tl := List.filter hasPipe (drop i (nonBlankLines content))).
  assert (Htitle : forall (k : option jsstring -> completion (option ParsedTable)),
    bind (if (0 <? i)%nat then
            bind (deref (nonBlankLines content !! (i - 1)%nat)) (fun prevLine =>
              Normal (if startsWith [HASH] prevLine
                      then Some (titleOf prevLine) else None))
          else Normal None) k =
    k (if (0 <? i)%nat then
         match nonBlankLines content !! (i - 1)%nat with
         | Some prevLine =>
             if startsWith [HASH] prevLine then Some (titleOf prevLine) else None
         | None => None
         end
       else None)).
  { intros k. destruct (0 <? i)%nat eqn:E; [|reflexivity].
    destruct (lookup_lt_is_Some_2 (nonBlankLines content) (i - 1)%nat) as [p Hp];
      [lia|].
    rewrite Hp. reflexivity. }
  rewrite Htitle.
  destruct (length tl <? 3)%nat eqn:E; [reflexivity|].
  apply Nat.ltb_ge in E.
  destruct tl as [|headerLine tl']; [simpl in E; lia|].
  simpl. erewrite mapM_pure; [reflexivity|].
  intros line. apply rowOf_zipRow.
Qed.

End WithHost.

(** The entries of a row built by successive writes: the last write under a
    key decides. *)
Lemma writes_lookup (pairs : list (Column * jsstring)) (row0 : Row)
    (key : jsstring) (v : cellValue) :
  foldl (fun row cc => <[field cc.1 := convertCell cc.1 cc.2]> row) row0 pairs
    !! key = Some v <->
  (exists i col cell,
      pairs !! i = Some (col, cell) /\ field col = key /\
      v = convertCell col cell /\
      forall j col' cell', (i < j)%nat -> pairs !! j = Some (col', cell') ->
                           field col' <> key)
  \/ (row0 !! key = Some v /\
      forall j col' cell', pairs !! j = Some (col', cell') -> field col' <> key).
Proof.
  revert row0. induction pairs as [|[c0 x0] rest IH]; intros row0; simpl.
  - split.
    + intros Hv. right. split; [exact Hv|]. intros j ? ? Hj.
      rewrite lookup_nil in Hj. discriminate.
    + intros [(i & ? & ? & Hi & _)|[Hv _]]; [|exact Hv].
      rewrite lookup_nil in Hi. discriminate.
  - rewrite IH. clear IH. split.
    + intros [(i & col & cell & Hi & Hf & Hv & Hlast)|[Hv Hnone]].
      * left. exists (S i), col, cell. repeat split; try assumption.
        intros [|j] col' cell' Hlt Hj; [lia|].
        simpl in Hj. apply (Hlast j col' cell'); [lia|exact Hj].
      * destruct (decide (field c0 = key)) as [Heq|Hne].
        -- left. exists 0%nat, c0, x0. simpl in *. subst key.
           rewrite lookup_insert_eq in Hv.
           repeat split; try congruence.
           intros [|j] col' cell' Hlt Hj; [lia|].
           simpl in Hj. apply (Hnone j col' cell' Hj).
        -- right. simpl in Hv. rewrite lookup_insert_ne in Hv by exact Hne.
           split; [exact Hv|].
           intros [|j] col' cell' Hj; simpl in Hj.
           ++ injection Hj as <- <-. exact Hne.
           ++ apply (Hnone j col' cell' Hj).
    + intros [(i & col & cell & Hi & Hf & Hv & Hlast)|[Hv Hnone]].
      * destruct i as [|i]; simpl in Hi.
        -- injection Hi as -> ->. right. split.
           ++ simpl. subst key v. apply lookup_insert_eq.
           ++ intros j col' cell' Hj.
              apply (Hlast (S j) col' cell'); [lia|exact Hj].
        -- left. exists i, col, cell. repeat split; try assumption.
           intros j col' cell' Hlt Hj.
           apply (Hlast (S j) col' cell'); [lia|exact Hj].
      * right. split.
        -- simpl. rewrite lookup_insert_ne; [exact Hv|].
           apply (Hnone 0%nat c0 x0). reflexivity.
        -- intros j col' cell' Hj. apply (Hnone (S j) col' cell'). exact Hj.
Qed.

(** The entries of [zipRow], by position. *)
Lemma zipRow_lookup (cols : list Column) (cells : list jsstring)
    (key : jsstring) (v : cellValue) :
  zipRow cols cells !! key = Some v <->
  exists i col cell,
    cols !! i = Some col /\ cells !! i = Some cell /\ field col = key /\
    v = convertCell col cell /\
    forall j col' cell', (i < j)%nat -> cols !! j = Some col' ->
                         cells !! j = Some cell' -> field col' <> key.
Proof.
  unfold zipRow. rewrite writes_lookup. split.
  - intros [(i & col & cell & Hi & Hf & Hv & Hlast)|[Hv _]].
    + apply lookup_zip_with_Some in Hi as (c & x & [= <- <-] & Hc & Hx).
      exists i, col, cell. repeat split; try assumption.
      intros j col' cell' Hlt Hc' Hx'. apply (Hlast j col' cell' Hlt).
      apply lookup_zip_with_Some. exists col', cell'. auto.
    + rewrite lookup_empty in Hv. discriminate.
  - intros (i & col & cell & Hc & Hx & Hf & Hv & Hlast). left.
    exists i, col, cell. repeat split; try assumption.
    + apply lookup_zip_with_Some. exists col, cell. auto.
    + intros j col' cell' Hlt Hj.
      apply lookup_zip_with_Some in Hj as (c & x & [= <- <-] & Hc' & Hx').
      apply (Hlast j col' cell' Hlt Hc' Hx').
Qed.

End ParserFacts.

Module ParserClaims.
Import JS TableParser Facts ParserFacts.

Lemma In_drop {A} (n : nat) (l : list A) (x : A) : In x (drop n l) -> In x l.
Proof.
  intros Hx. rewrite <- (take_drop n l). apply in_or_app. right. exact Hx.
Qed.

(** Every line of the table block is a line of the input. *)
Lemma tableLinesOf_In (content line : jsstring) :
  In line (tableLinesOf content) -> In line (split LF content).
Proof.
  unfold tableLinesOf, nonBlankLines.
  destruct (findIndex _ _); [|intros []].
  intros Hl. apply filter_In in Hl as [Hl _].
  apply In_drop in Hl. apply filter_In in Hl as [Hl _]. exact Hl.
Qed.

Section WithHost.
Context `{H : Host}.

(** Input without any line that contains a pipe gives [null]. *)
Lemma parse_null_without_pipe (content : jsstring) :
  forallb (fun line => negb (hasPipe line)) (split LF content) = true ->
  parseMarkdownTable content = Normal None.
Proof.
  intros Hno. rewrite parse_normal_form.
  destruct (findIndex hasPipe (nonBlankLines content)) as [i|] eqn:Hi;
    [|reflexivity].
  exfalso. revert i Hi. unfold nonBlankLines.
  induction (split LF content) as [|l ls IH]; intros i; simpl; [discriminate|].
  simpl in Hno. apply andb_prop in Hno as [Hl Hls].
  destruct (truthy (trim l)); simpl.
  - apply negb_true_iff in Hl. rewrite Hl.
    destruct (findIndex hasPipe _) as [j|] eqn:Hj; [|discriminate].
    intros _. apply (IH Hls j eq_refl).
  - apply (IH Hls).
Qed.

(** A block of fewer than three table lines gives [null]. *)
Lemma parse_null_short_table (content : jsstring) :
  (length (tableLinesOf content) < 3)%nat ->
  parseMarkdownTable content = Normal None.
Proof.
  intros Hlen. rewrite parse_normal_form.
  destruct (findIndex _ _); [|reflexivity].
  apply Nat.ltb_lt in Hlen. rewrite Hlen. reflexivity.
Qed.

(** C2 (failure policy of the table parser).  For every input the four
    parser functions return a value and none of them throws.
    [parseMarkdownTable] is the one function that reads array elements that
    could be [undefined] ([lines[tableStartIndex - 1]], [tableLines[0]],
    [columns[index]]); its completion is always normal, and its result is
    [null] exactly when the input has fewer than three table lines.  The
    other three contain no operation that can throw, and their embeddings
    are total functions; the parts returned by [splitContentWithTables] all
    have content that is not blank, and the rules returned by
    [getHighlightRules] all name a field of the columns given. *)
Theorem parser_functions_total (content : jsstring) (cols : list Column) :
  (exists found : bool, hasMarkdownTable content = found) /\
  (exists result : option ParsedTable,
      parseMarkdownTable content = Normal result /\
      bool_decide (result = None :> option ParsedTable)
        = (length (tableLinesOf content) <? 3)%nat) /\
  (exists parts : list ContentPart,
      splitContentWithTables content = parts /\
      forallb (fun part => truthy (trim (part_content part))) parts = true) /\
  (exists rules : list HighlightRule,
      getHighlightRules cols = rules /\
      Forall (fun rule => In (rule_column rule) (map field cols)) rules).
Proof.
  split; [eexists; reflexivity|].
  split.
  { rewrite parse_normal_form. eexists. split; [reflexivity|].
    unfold tableLinesOf.
    destruct (findIndex hasPipe (nonBlankLines content)); [|reflexivity].
    destruct (length _ <? 3)%nat; reflexivity. }
  split.
  { eexists. split; [reflexivity|].
    unfold splitContentWithTables. apply forallb_forall.
    intros part Hpart. apply filter_In in Hpart as [_ Hpart]. exact Hpart. }
  eexists. split; [reflexivity|].
  unfold getHighlightRules. apply List.Forall_forall. intros rule Hrule.
  apply in_flat_map in Hrule as (col & Hcol & Hrule).
  destruct (type col) as [[|]|]; try contradiction.
  destruct (includes (jss "cutoff") (field col)
            || includes (jss "rank") (field col)); [|contradiction].
  destruct Hrule as [<-|[]]. cbn [rule_column]. apply in_map. exact Hcol.
Qed.

(** What a successful parse returns. *)
Lemma parse_Some_inv (content : jsstring) (t : ParsedTable) :
  parseMarkdownTable content = Normal (Some t) ->
  (3 <= length (tableLinesOf content))%nat /\
  columns t =
    imap columnOf (splitCells (default [] (head (tableLinesOf content)))) /\
  rows t = map (fun line => zipRow (columns t) (splitCells line))
               (drop 2 (tableLinesOf content)).
Proof.
  rewrite parse_normal_form. intros Hp. injection Hp as Hp.
  destruct (findIndex _ _); [|discriminate].
  destruct (length (tableLinesOf content) <? 3)%nat eqn:E; [discriminate|].
  apply Nat.ltb_ge in E. injection Hp as <-. simpl. auto.
Qed.

(** How a cell is stored: as a number exactly when the column is typed
    number and the cell without its commas parses; as the cell text
    otherwise. *)
Lemma convertCell_cases (col : Column) (cell : jsstring) :
  match convertCell col cell with
  | Num n =>
      type col = Some TNumber /\
      parseFloat (replaceAll COMMA [] cell) = n /\ isNaN n = false
  | Str s =>
      s = cell /\
      (type col <> Some TNumber \/
       isNaN (parseFloat (replaceAll COMMA [] cell)) = true)
  end.
Proof.
  unfold convertCell.
  destruct (type col) as [[|]|]; try (split; [reflexivity|left; congruence]).
  destruct (isNaN (parseFloat (replaceAll COMMA [] cell))) eqn:E; simpl.
  - split; [reflexivity|right; reflexivity].
  - repeat split; assumption.
Qed.

(** C3 (invariant of a parsed table).  When [parseMarkdownTable] returns a
    table, every key of every row is the field of one of the returned
    columns; the value under it comes from the cell at that column's
    position in the row's line, a raw trimmed piece of the line; it is a
    number only when the column has type number and the cell, commas
    removed, parses as a float, and it is the raw trimmed cell otherwise. *)
Theorem parsed_rows_within_columns (content : jsstring) (t : ParsedTable)
    (row : Row) (key : jsstring) (v : cellValue) :
  parseMarkdownTable content = Normal (Some t) ->
  In row (rows t) ->
  row !! key = Some v ->
  In key (map field (columns t)) /\
  exists i col cell line,
    In line (split LF content) /\
    In cell (map trim (split PIPE line)) /\
    splitCells line !! i = Some cell /\
    columns t !! i = Some col /\ field col = key /\
    match v with
    | Num n =>
        type col = Some TNumber /\
        parseFloat (replaceAll COMMA [] cell) = n /\ isNaN n = false
    | Str s =>
        s = cell /\
        (type col <> Some TNumber \/
         isNaN (parseFloat (replaceAll COMMA [] cell)) = true)
    end.
Proof.
  intros Hp Hrow Hv.
  apply parse_Some_inv in Hp as (_ & _ & Hrows).
  rewrite Hrows in Hrow. apply in_map_iff in Hrow as (line & <- & Hline).
  apply zipRow_lookup in Hv as (i & col & cell & Hc & Hx & Hf & -> & _).
  split.
  - apply in_map_iff. exists col. split; [exact Hf|].
    apply list_elem_of_In. apply list_elem_of_lookup. exists i. exact Hc.
  - exists i, col, cell, line. repeat split; try assumption.
    + apply tableLinesOf_In. apply (In_drop 2). exact Hline.
    + assert (Hin : In cell (splitCells line)).
      { apply list_elem_of_In. apply list_elem_of_lookup. exists i. exact Hx. }
      apply filter_In in Hin as [Hin _]. exact Hin.
    + apply convertCell_cases.
Qed.

(** C4, as amended (row construction).  For every data-row line of a parsed
    table the cells are the trimmed pieces of the line between pipes with
    every empty piece removed, at the edges and in the middle alike.  The
    row holds one entry per field of the columns that have a cell at their
    position: the converted cell of the last such column.  Cells beyond the
    column count give no entry, a column beyond the last cell gives no
    entry, and nothing is filled in for it. *)
Theorem rows_zip_nonempty_cells (content : jsstring) (t : ParsedTable) :
  parseMarkdownTable content = Normal (Some t) ->
  Forall2
    (fun line row =>
       let cells := List.filter truthy (map trim (split PIPE line)) in
       forall key v,
         row !! key = Some v <->
         exists i col cell,
           columns t !! i = Some col /\ cells !! i = Some cell /\
           field col = key /\ v = convertCell col cell /\
           forall j col' cell', (i < j)%nat -> columns t !! j = Some col' ->
                                cells !! j = Some cell' -> field col' <> key)
    (drop 2 (tableLinesOf content)) (rows t).
Proof.
  intros Hp. apply parse_Some_inv in Hp as (_ & _ & ->).
  induction (drop 2 (tableLinesOf content)) as [|line ls IH]; simpl;
    constructor; [|exact IH].
  intros key v. apply zipRow_lookup.
Qed.

End WithHost.

Lemma fold_text_lines (lines acc : list jsstring) (ps : list ContentPart) :
  forallb (fun line => negb (startsWith [PIPE] (trim line))) lines = true ->
  fold_left splitStep lines
    {| parts := ps;
       currentPart := Some {| pending_type := Text; pending_lines := acc |};
       inTable := false |} =
  {| parts := ps;
     currentPart := Some {| pending_type := Text; pending_lines := acc ++ lines |};
     inTable := false |}.
Proof.
  revert acc. induction lines as [|l ls IH]; intros acc Hall; simpl.
  - rewrite app_nil_r. reflexivity.
  - cbn [forallb] in Hall. apply andb_prop in Hall as [Hl Hls].
    apply negb_true_iff in Hl. unfold splitStep at 2. rewrite Hl.
    cbn [andb negb inTable currentPart parts pending_type pending_lines].
    rewrite (IH _ Hls), <- app_assoc. reflexivity.
Qed.

(** C5, as amended (text without table lines).  For every input in which no
    line's trimmed form starts with a pipe, [splitContentWithTables] returns
    the input itself, untrimmed, as a single text part when the input has a
    character that is not white space, and no part at all when it has
    none. *)
Theorem split_plain_text (content : jsstring) :
  forallb (fun line => negb (startsWith [PIPE] (trim line)))
          (split LF content) = true ->
  splitContentWithTables content =
    if truthy (trim content)
    then [ {| part_type := Text; part_content := content |} ]
    else [].
Proof.
  intros Hall. unfold splitContentWithTables.
  pose proof (join_split LF content) as Hjoin.
  destruct (split LF content) as [|l ls] eqn:Hsplit.
  - exfalso. apply (split_not_nil LF content). exact Hsplit.
  - cbn [forallb] in Hall. apply andb_prop in Hall as [Hl Hls].
    apply negb_true_iff in Hl.
    cbn [fold_left]. unfold splitStep at 2. rewrite Hl.
    cbn [andb negb inTable currentPart parts].
    rewrite (fold_text_lines ls [l] [] Hls).
    unfold flush. cbn [parts currentPart app pending_type pending_lines].
    rewrite Hjoin. cbn [List.filter part_content].
    destruct (truthy (trim content)); reflexivity.
Qed.

End ParserClaims.

Module ParserExamples.
Import JS TableParser ParserClaims.

Lemma parsed_gapTable :
  parseMarkdownTable (H := asciiHost) Samples.gapTable
  = Normal (Some (Samples.parsed Samples.gapTable)).
Proof. vm_compute. reflexivity. Qed.

Lemma parsed_clashTable :
  parseMarkdownTable (H := asciiHost) Samples.clashTable
  = Normal (Some (Samples.parsed Samples.clashTable)).
Proof. vm_compute. reflexivity. Qed.

Lemma parsed_rankTable :
  parseMarkdownTable (H := asciiHost) Samples.rankTable
  = Normal (Some (Samples.parsed Samples.rankTable)).
Proof. vm_compute. reflexivity. Qed.

(** The heading above the table becomes the title, commas are removed
    before a number is read, text in a number column stays text, a cell
    beyond the columns is dropped and a column without a cell has no
    entry. *)
Example rankTable_rows :
  title (Samples.parsed Samples.rankTable) = Some (jss "Cutoffs") /\
  map field (columns (Samples.parsed Samples.rankTable))
    = [jss "college"; jss "cutoff_rank"] /\
  rows (Samples.parsed Samples.rankTable)
    = [ <[jss "college" := Str (jss "RVCE")]>
          (<[jss "cutoff_rank" := Num (ofZ 1234)]> ∅);
        <[jss "college" := Str (jss "BMS")]>
          (<[jss "cutoff_rank" := Str (jss "n/a")]> ∅);
        <[jss "college" := Str (jss "PES")]> ∅ ].
Proof. vm_compute. repeat split; reflexivity. Qed.

(** Witness of C3 on a table with a numeric column. *)
Lemma parsed_rows_within_columns_witness :
  exists t row,
    parseMarkdownTable (H := asciiHost) Samples.rankTable = Normal (Some t) /\
    In row (rows t) /\
    row !! jss "cutoff_rank" = Some (Num (ofZ 1234)) /\
    In (jss "cutoff_rank") (map field (columns t)).
Proof.
  exists (Samples.parsed Samples.rankTable).
  exists (<[jss "college" := Str (jss "RVCE")]>
            (<[jss "cutoff_rank" := Num (ofZ 1234)]> ∅)).
  assert (Hp : parseMarkdownTable (H := asciiHost) Samples.rankTable
               = Normal (Some (Samples.parsed Samples.rankTable)))
    by (vm_compute; reflexivity).
  assert (Hin : In (<[jss "college" := Str (jss "RVCE")]>
                      (<[jss "cutoff_rank" := Num (ofZ 1234)]> ∅))
                   (rows (Samples.parsed Samples.rankTable)))
    by (left; vm_compute; reflexivity).
  assert (Hv : (<[jss "college" := Str (jss "RVCE")]>
                  (<[jss "cutoff_rank" := Num (ofZ 1234)]> ∅) : Row)
               !! jss "cutoff_rank" = Some (Num (ofZ 1234)))
    by (vm_compute; reflexivity).
  repeat split; try assumption.
  exact (proj1 (parsed_rows_within_columns (H := asciiHost) _ _ _ _ _ Hp Hin Hv)).
Defined.

(** Witness of C4 on the table with an empty middle cell. *)
Lemma rows_zip_nonempty_cells_witness :
  parseMarkdownTable (H := asciiHost) Samples.gapTable
    = Normal (Some (Samples.parsed Samples.gapTable)) /\
  Forall2
    (fun line row =>
       let cells := List.filter truthy (map trim (split PIPE line)) in
       forall key v,
         row !! key = Some v <->
         exists i col cell,
           columns (Samples.parsed Samples.gapTable) !! i = Some col /\
           cells !! i = Some cell /\
           field col = key /\ v = convertCell col cell /\
           forall j col' cell', (i < j)%nat ->
             columns (Samples.parsed Samples.gapTable) !! j = Some col' ->
             cells !! j = Some cell' -> field col' <> key)
    (drop 2 (tableLinesOf Samples.gapTable))
    (rows (Samples.parsed Samples.gapTable)).
Proof.
  assert (Hp : parseMarkdownTable (H := asciiHost) Samples.gapTable
               = Normal (Some (Samples.parsed Samples.gapTable)))
    by (vm_compute; reflexivity).
  split; [exact Hp|].
  exact (rows_zip_nonempty_cells (H := asciiHost) _ _ Hp).
Defined.

(** Counterexample to C4 as stated.  In the data row [| 1 |  | 3 |] the
    empty middle cell is dropped as well, so [3] is stored under the second
    column and the third column has no entry; and when two headers give the
    same field, a column without a cell still finds its field in the row. *)
Lemma edge_cells_counterexample :
  splitCells (jss "| 1 |  | 3 |") = [jss "1"; jss "3"] /\
  Stated.edgeCells (jss "| 1 |  | 3 |") = [jss "1"; []; jss "3"] /\
  rows (Samples.parsed Samples.gapTable)
    = [ <[jss "a" := Str (jss "1")]> (<[jss "b" := Str (jss "3")]> ∅) ] /\
  ~ @Stated.rowsByEdgeCells asciiHost /\
  ~ @Stated.missingCellAbsent asciiHost.
Proof.
  split; [vm_compute; reflexivity|].
  split; [vm_compute; reflexivity|].
  split; [vm_compute; reflexivity|].
  split.
  - intros Hc. specialize (Hc _ _ parsed_gapTable).
    apply (f_equal (fun rs => match rs with
                              | r :: _ => r !! jss "c"
                              | [] => None
                              end)) in Hc.
    vm_compute in Hc. discriminate Hc.
  - intros Hc.
    assert (Hcol : columns (Samples.parsed Samples.clashTable) !! 1%nat
                   = Some {| field := jss "a"; headerName := jss "a";
                             width := None; sortable := Some true;
                             type := Some TString |})
      by (vm_compute; reflexivity).
    assert (Hrow : zip (drop 2 (tableLinesOf Samples.clashTable))
                       (rows (Samples.parsed Samples.clashTable)) !! 0%nat
                   = Some (jss "| 1 |", <[jss "a" := Str (jss "1")]> ∅))
      by (vm_compute; reflexivity).
    assert (Hlen : (length (splitCells (jss "| 1 |")) <= 1)%nat)
      by (vm_compute; lia).
    specialize (Hc _ _ _ _ _ _ parsed_clashTable Hcol Hrow Hlen).
    vm_compute in Hc. discriminate Hc.
Qed.

(** Witness of C5 on a line of text with a leading space. *)
Lemma split_plain_text_witness :
  forallb (fun line => negb (startsWith [PIPE] (trim line)))
          (split LF (jss " hi")) = true /\
  splitContentWithTables (jss " hi") =
    [ {| part_type := Text; part_content := jss " hi" |} ].
Proof.
  assert (Hall : forallb (fun line => negb (startsWith [PIPE] (trim line)))
                         (split LF (jss " hi")) = true)
    by (vm_compute; reflexivity).
  split; [exact Hall|].
  exact (split_plain_text (jss " hi") Hall).
Defined.

(** Counterexample to C5 as stated.  The text [ hi] comes back with its
    leading space, not trimmed, and the empty text gives no part at all. *)
Lemma trimmed_text_part_counterexample :
  splitContentWithTables (jss " hi")
    = [ {| part_type := Text; part_content := jss " hi" |} ] /\
  trim (jss " hi") = jss "hi" /\
  splitContentWithTables [] = [] /\
  ~ Stated.singleTrimmedTextPart.
Proof.
  split; [vm_compute; reflexivity|].
  split; [vm_compute; reflexivity|].
  split; [vm_compute; reflexivity|].
  intros Hc. specialize (Hc [] eq_refl). vm_compute in Hc. discriminate Hc.
Qed.

(** [parseFloat] rounds to the nearest double: [0.1] is the double
    [3602879701896397 / 2^55]; [2^53 + 1], halfway between two doubles,
    goes to the even one, [2^53]; a number beyond the largest double is an
    infinity and one below half the smallest is zero; a number that is a
    double stays as it is. *)
Example parseFloat_rounds :
  parseFloat (jss "0.1")
    = Finite (Qmake 3602879701896397 36028797018963968) /\
  parseFloat (jss "9007199254740993") = ofZ 9007199254740992 /\
  parseFloat (jss "1e400") = Infinite false /\
  parseFloat (jss "-1e400") = Infinite true /\
  parseFloat (jss "1.7976931348623159e308") = Infinite false /\
  parseFloat (jss "1.7976931348623157e308") = ofZ ((2 ^ 53 - 1) * 2 ^ 971) /\
  parseFloat (jss "2e-324") = ofZ 0 /\
  parseFloat (jss "8603") = ofZ 8603 /\
  parseFloat (jss "8.5") = Finite (Qmake 85 10).
Proof. repeat split; vm_compute; reflexivity. Qed.

End ParserExamples.

(** ** Reading quoted fields back *)

Module CsvFacts.
Import JS CsvReader.

(** Inside a field, the reader takes a text whose quotes are doubled, up to
    the closing quote, for the text itself. *)
Lemma read_field (text seen rest : jsstring) (record : list jsstring)
    (done : list (list jsstring)) :
  read (replaceAll QUOTE [QUOTE; QUOTE] text ++ QUOTE :: rest)
       (InField seen) record done
  = read rest (AfterQuote (seen ++ text)) record done.
Proof.
  revert seen. induction text as [|c text IH]; intros seen.
  - cbn [replaceAll app read]. rewrite N.eqb_refl, app_nil_r. reflexivity.
  - cbn [replaceAll]. destruct (c =? QUOTE) eqn:E.
    + apply N.eqb_eq in E. subst c. cbn [app read].
      rewrite !N.eqb_refl, IH, <- app_assoc. reflexivity.
    + cbn [app read]. rewrite E, IH, <- app_assoc. reflexivity.
Qed.

(** A line of quoted fields takes the reader to the end of its last
    field. *)
Lemma read_line (f : jsstring) (fs : list jsstring) (rest : jsstring)
    (record : list jsstring) (done : list (list jsstring)) :
  read (join [COMMA]
          (map (fun text => [QUOTE] ++ replaceAll QUOTE [QUOTE; QUOTE] text
                            ++ [QUOTE]) (f :: fs)) ++ rest)
       AtField record done
  = read rest (AfterQuote (List.last (f :: fs) [])) (record ++ removelast (f :: fs))
         done.
Proof.
  revert f record. induction fs as [|g fs IH]; intros f record.
  - cbn [map join List.last removelast]. rewrite app_nil_r.
    cbn [app read]. rewrite N.eqb_refl, <- app_assoc.
    cbn [app]. rewrite read_field. reflexivity.
  - change (join [COMMA]
              (map (fun text => [QUOTE] ++ replaceAll QUOTE [QUOTE; QUOTE] text
                                ++ [QUOTE]) (f :: g :: fs)))
      with (([QUOTE] ++ replaceAll QUOTE [QUOTE; QUOTE] f ++ [QUOTE])
            ++ [COMMA]
            ++ join [COMMA]
                 (map (fun text => [QUOTE] ++ replaceAll QUOTE [QUOTE; QUOTE] text
                                   ++ [QUOTE]) (g :: fs))).
    rewrite <- !app_assoc. cbn [app read]. rewrite N.eqb_refl, read_field.
    cbn [read]. change (COMMA =? QUOTE) with false. rewrite N.eqb_refl.
    cbn iota. rewrite IH, <- app_assoc. reflexivity.
Qed.

(** Lines of quoted fields, joined by line feeds, are read back as the
    lists of their fields. *)
Lemma read_lines (r : list jsstring) (rs done : list (list jsstring)) :
  Forall (fun fields => fields <> []) (r :: rs) ->
  read (join [LF]
          (map (fun fields =>
                  join [COMMA]
                    (map (fun text => [QUOTE]
                                      ++ replaceAll QUOTE [QUOTE; QUOTE] text
                                      ++ [QUOTE]) fields))
               (r :: rs)))
       AtField [] done
  = Some (done ++ r :: rs).
Proof.
  revert r done. induction rs as [|r2 rs IH]; intros r done Hne.
  - destruct r as [|f fs]; [inversion Hne; congruence|].
    pose proof (read_line f fs [] [] done) as E. rewrite app_nil_r in E.
    change (join [LF] (map ?line [f :: fs])) with (line (f :: fs)).
    cbn beta. rewrite E. cbn [read app].
    rewrite <- app_removelast_last by discriminate. reflexivity.
  - destruct r as [|f fs]; [inversion Hne; congruence|].
    inversion Hne as [|? ? _ Hne']; subst.
    change (join [LF] (map ?line ((f :: fs) :: r2 :: rs)))
      with (line (f :: fs) ++ [LF] ++ join [LF] (map line (r2 :: rs))).
    cbn beta. rewrite read_line. cbn [app read].
    change (LF =? QUOTE) with false. change (LF =? COMMA) with false.
    rewrite N.eqb_refl. cbn iota.
    rewrite (IH r2 _ Hne'), <- app_removelast_last by discriminate.
    rewrite <- app_assoc. reflexivity.
Qed.

(** Every text of lines of quoted fields, each line with at least one
    field, is read back as it was written. *)
Lemma records_written (rs : list (list jsstring)) :
  Forall (fun fields => fields <> []) rs ->
  records (join [LF]
             (map (fun fields =>
                     join [COMMA]
                       (map (fun text => [QUOTE]
                                         ++ replaceAll QUOTE [QUOTE; QUOTE] text
                                         ++ [QUOTE]) fields))
                  rs))
  = Some rs.
Proof.
  intros Hne. unfold records. destruct rs as [|r rs]; [reflexivity|].
  rewrite (read_lines r rs [] Hne). reflexivity.
Qed.

End CsvFacts.

(** ** The table renderer *)

Module RendererClaims.
Import JS TableParser TableMessage Facts.

Section WithHost.
Context `{H : Host}.

(** A property of the row itself is what a read of its key returns. *)
Lemma getProperty_own (row : Row) (key : jsstring) (v : cellValue) :
  row !! key = Some v -> getProperty row key = Own v.
Proof. intros E. unfold getProperty. rewrite E. reflexivity. Qed.

(** A read returns a number only from a property of the row itself. *)
Lemma asNumber_own (row : Row) (key : jsstring) (n : number) :
  asNumber (getProperty row key) = Some n <-> row !! key = Some (Num n).
Proof.
  unfold getProperty. destruct (row !! key) as [[s|m]|]; cbn [asNumber].
  - split; discriminate.
  - split; congruence.
  - destruct (objectPrototype key); cbn [asNumber]; split; discriminate.
Qed.

(** The text of what a read returns: the text of the row's own value; for a
    key that the row does not have, the text of the member of
    [Object.prototype] of that name, and [undefined] when there is none. *)
Lemma property_text (row : Row) (key : jsstring) :
  toString (getProperty row key) =
    match row !! key with
    | Some (Str s) => s
    | Some (Num n) => numberToString n
    | None =>
        if eqb key (jss "constructor") then functionToString (jss "Object")
        else if existsb (eqb key)
                  [jss "hasOwnProperty"; jss "isPrototypeOf";
                   jss "propertyIsEnumerable"; jss "toLocaleString";
                   jss "toString"; jss "valueOf";
                   jss "__defineGetter__"; jss "__defineSetter__";
                   jss "__lookupGetter__"; jss "__lookupSetter__"]
        then functionToString key
        else if eqb key (jss "__proto__") then jss "[object Object]"
        else jss "undefined"
    end.
Proof.
  unfold getProperty, objectPrototype.
  destruct (row !! key) as [[s|n]|]; try reflexivity.
  destruct (eqb key (jss "constructor")); [reflexivity|].
  destruct (existsb _ _); [reflexivity|].
  destruct (eqb key (jss "__proto__")); reflexivity.
Qed.

Lemma compareRows_numbers (col : jsstring) (dir : direction) (a b : Row)
    (x y : number) :
  a !! col = Some (Num x) -> b !! col = Some (Num y) ->
  compareRows col dir a b = match dir with Asc => sub x y | Desc => sub y x end.
Proof.
  intros Ha Hb. unfold compareRows.
  rewrite (getProperty_own _ _ _ Ha), (getProperty_own _ _ _ Hb). reflexivity.
Qed.

Lemma compareRows_text (col : jsstring) (dir : direction) (a b : Row) :
  asNumber (getProperty a col) = None \/ asNumber (getProperty b col) = None ->
  compareRows col dir a b =
    let aStr := toLowerCase (toString (getProperty a col)) in
    let bStr := toLowerCase (toString (getProperty b col)) in
    ofZ (match dir with
         | Asc => localeCompare aStr bStr
         | Desc => localeCompare bStr aStr
         end).
Proof.
  intros Hno. unfold compareRows.
  destruct Hno as [Hno|Hno]; rewrite Hno;
    [|destruct (asNumber (getProperty a col))]; destruct dir; reflexivity.
Qed.

(** The rows shown are a rearrangement of the rows given. *)
Lemma sortedRows_Permutation (p : Props) (st : State) :
  Permutation (sortedRows p st) (prop_rows p).
Proof.
  unfold sortedRows. destruct (isEmpty (sortColumn st)); [reflexivity|].
  apply sort_Permutation.
Qed.

(** C6 (sorting in the table renderer).  A click on the header of the
    sorted column keeps the column and turns the direction around:
    ascending becomes descending and descending becomes ascending; a click
    on another header selects that column, ascending.  The comparator is the
    numeric difference when both values read from the rows are numbers, and
    otherwise the result of [localeCompare], the collation of the host, on
    the lower-cased string forms of the two values read, where a read of a
    key that the row does not have returns the member of [Object.prototype]
    of that name, if there is one, and [undefined] if not.  Rows whose values
    in the sorted field are 8603, 290 and 462 come out, ascending, in the
    order 290, 462, 8603. *)
Theorem sort_contract :
  (forall st : State,
      handleSort (sortColumn st) st =
        {| sortColumn := sortColumn st;
           sortDirection :=
             match sortDirection st with Asc => Desc | Desc => Asc end;
           searchQuery := searchQuery st;
           showSearch := showSearch st |}) /\
  (forall (f : jsstring) (st : State),
      sortColumn st <> f ->
      handleSort f st =
        {| sortColumn := f; sortDirection := Asc;
           searchQuery := searchQuery st; showSearch := showSearch st |}) /\
  (forall (col : jsstring) (a b : Row) (x y : number),
      a !! col = Some (Num x) -> b !! col = Some (Num y) ->
      compareRows col Asc a b = sub x y /\
      compareRows col Desc a b = sub y x) /\
  (forall (col : jsstring) (a b : Row),
      asNumber (getProperty a col) = None \/ asNumber (getProperty b col) = None ->
      compareRows col Asc a b =
        ofZ (localeCompare (toLowerCase (toString (getProperty a col)))
                           (toLowerCase (toString (getProperty b col)))) /\
      compareRows col Desc a b =
        ofZ (localeCompare (toLowerCase (toString (getProperty b col)))
                           (toLowerCase (toString (getProperty a col))))) /\
  (forall (row : Row) (key : jsstring) (n : number),
      asNumber (getProperty row key) = Some n <-> row !! key = Some (Num n)) /\
  (forall (row : Row) (key : jsstring),
      toString (getProperty row key) =
        match row !! key with
        | Some (Str s) => s
        | Some (Num n) => numberToString n
        | None =>
            if eqb key (jss "constructor") then functionToString (jss "Object")
            else if existsb (eqb key)
                      [jss "hasOwnProperty"; jss "isPrototypeOf";
                       jss "propertyIsEnumerable"; jss "toLocaleString";
                       jss "toString"; jss "valueOf";
                       jss "__defineGetter__"; jss "__defineSetter__";
                       jss "__lookupGetter__"; jss "__lookupSetter__"]
            then functionToString key
            else if eqb key (jss "__proto__") then jss "[object Object]"
            else jss "undefined"
        end) /\
  (forall (p : Props) (st : State) (r1 r2 r3 : Row),
      truthy (sortColumn st) = true ->
      sortDirection st = Asc ->
      prop_rows p = [r1; r2; r3] ->
      r1 !! sortColumn st = Some (Num (ofZ 8603)) ->
      r2 !! sortColumn st = Some (Num (ofZ 290)) ->
      r3 !! sortColumn st = Some (Num (ofZ 462)) ->
      sortedRows p st = [r2; r3; r1]).
Proof.
  split; [|split; [|split; [|split; [|split; [|split]]]]].
  - intros st. unfold handleSort. rewrite eqb_refl.
    destruct (sortDirection st); reflexivity.
  - intros f st Hne. unfold handleSort. rewrite (eqb_neq _ _ Hne). reflexivity.
  - intros col a b x y Ha Hb.
    split; [exact (compareRows_numbers col Asc a b x y Ha Hb)
           |exact (compareRows_numbers col Desc a b x y Ha Hb)].
  - intros col a b Hno.
    split; rewrite compareRows_text by exact Hno; reflexivity.
  - exact asNumber_own.
  - exact property_text.
  - intros p st r1 r2 r3 Hcol Hdir Hrows H1 H2 H3.
    unfold sortedRows. rewrite Hrows, Hdir.
    unfold truthy in Hcol. apply negb_true_iff in Hcol. rewrite Hcol.
    assert (Hcmp : forall a b x y,
              a !! sortColumn st = Some (Num x) ->
              b !! sortColumn st = Some (Num y) ->
              compareRows (sortColumn st) Asc a b = sub x y)
      by (intros a b x y; apply (compareRows_numbers _ Asc)).
    unfold sort. cbn [fold_right insertSorted].
    rewrite (Hcmp r2 r3 _ _ H2 H3).
    replace (gtb (sub (ofZ 290) (ofZ 462)) (ofZ 0)) with false
      by (vm_compute; reflexivity).
    cbn [insertSorted].
    rewrite (Hcmp r1 r2 _ _ H1 H2).
    replace (gtb (sub (ofZ 8603) (ofZ 290)) (ofZ 0)) with true
      by (vm_compute; reflexivity).
    cbn [insertSorted].
    rewrite (Hcmp r1 r3 _ _ H1 H3).
    replace (gtb (sub (ofZ 8603) (ofZ 462)) (ofZ 0)) with true
      by (vm_compute; reflexivity).
    reflexivity.
Qed.

(** A header that is not marked unsortable passes its field to
    [handleSort]. *)
Lemma clickHeader_sortable (col : Column) (st : State) :
  sortable col <> Some false -> clickHeader col st = handleSort (field col) st.
Proof.
  unfold clickHeader. destruct (sortable col) as [[|]|]; congruence.
Qed.

(** The rows exported are among the rows given. *)
Lemma filteredRows_In (p : Props) (st : State) (row : Row) :
  In row (filteredRows p st) -> In row (prop_rows p).
Proof.
  unfold filteredRows. intros Hrow.
  assert (Hs : In row (sortedRows p st)).
  { destruct (isEmpty (trim (searchQuery st))); [exact Hrow|].
    apply filter_In in Hrow as [Hrow _]. exact Hrow. }
  apply (Permutation_in _ (sortedRows_Permutation p st)). exact Hs.
Qed.

Lemma filter_sublist {A} (keep : A -> bool) (l : list A) :
  List.filter keep l `sublist_of` l.
Proof.
  induction l as [|x l IH]; simpl; [constructor|].
  destruct (keep x); [apply sublist_skip|apply sublist_cons]; exact IH.
Qed.

(** The rows shown are the sorted rows that pass the search, in the order
    of the sorted rows. *)
Lemma filteredRows_shown (p : Props) (st : State) :
  filteredRows p st `sublist_of` sortedRows p st /\
  forall row,
    In row (filteredRows p st) <->
    In row (sortedRows p st) /\
    (trim (searchQuery st) = [] \/
     exists val,
       In val (values row) /\
       includes (toLowerCase (searchQuery st))
                (toLowerCase (toString (Own val))) = true).
Proof.
  unfold filteredRows. destruct (trim (searchQuery st)) as [|c q] eqn:E;
    cbn [isEmpty].
  - split; [reflexivity|]. intros row. split; [intros Hr|intros [Hr _]]; auto.
  - split; [apply filter_sublist|]. intros row. rewrite filter_In, existsb_exists.
    split; intros [Hr Hv]; (split; [exact Hr|]).
    + right. exact Hv.
    + destruct Hv as [Hv|Hv]; [discriminate|exact Hv].
Qed.

(** C7 (CSV export).  The exported text is the header names joined by
    commas, followed, when rows are shown, by a line feed and one line for
    each row that is currently shown, the lines joined by line feeds; the
    rows shown are the sorted rows that pass the search, in their sorted
    order.  A line is made of the texts of the row's values for the columns'
    fields, in column order: each text with every double quote doubled and
    a double quote on either side, the texts joined by commas.  The quoting
    loses nothing: when there is at least one column, a reader of quoted
    fields gets back from the lines, for every row shown, the texts of its
    values, whatever commas, quotes and line feeds they hold.  The text of a
    value is its string form, where a read of a field that the row does not
    have returns the member of [Object.prototype] of that name, if there is
    one, and [undefined] if not.  The cell [He said "hi", ok] is written
    between two quotes with each of its own quotes written twice. *)
Theorem csv_export_contract (p : Props) (st : State) :
  let shown := filteredRows p st in
  let texts := fun row : Row =>
    map (fun col => toString (getProperty row (field col))) (prop_columns p) in
  let quote := fun text : jsstring =>
    [QUOTE] ++ replaceAll QUOTE [QUOTE; QUOTE] text ++ [QUOTE] in
  let line := fun row : Row => join [COMMA] (map quote (texts row)) in
  csvContent p st =
    join [COMMA] (map headerName (prop_columns p))
    ++ match shown with
       | [] => []
       | _ :: _ => [LF] ++ join [LF] (map line shown)
       end /\
  shown `sublist_of` sortedRows p st /\
  (forall row,
      In row shown <->
      In row (sortedRows p st) /\
      (trim (searchQuery st) = [] \/
       exists val,
         In val (values row) /\
         includes (toLowerCase (searchQuery st))
                  (toLowerCase (toString (Own val))) = true)) /\
  (prop_columns p <> [] ->
   CsvReader.records (join [LF] (map line shown)) = Some (map texts shown)) /\
  (forall (row : Row) (key : jsstring),
      toString (getProperty row key) =
        match row !! key with
        | Some (Str s) => s
        | Some (Num n) => numberToString n
        | None =>
            if eqb key (jss "constructor") then functionToString (jss "Object")
            else if existsb (eqb key)
                      [jss "hasOwnProperty"; jss "isPrototypeOf";
                       jss "propertyIsEnumerable"; jss "toLocaleString";
                       jss "toString"; jss "valueOf";
                       jss "__defineGetter__"; jss "__defineSetter__";
                       jss "__lookupGetter__"; jss "__lookupSetter__"]
            then functionToString key
            else if eqb key (jss "__proto__") then jss "[object Object]"
            else jss "undefined"
        end) /\
  csvCell (Own (Str Samples.quotedCell)) = Samples.quotedCellCsv.
Proof.
  cbv zeta.
  assert (Hline : forall row : Row,
            join [COMMA]
              (map (fun col => csvCell (getProperty row (field col)))
                   (prop_columns p))
            = join [COMMA]
                (map (fun text => [QUOTE] ++ replaceAll QUOTE [QUOTE; QUOTE] text
                                  ++ [QUOTE])
                     (map (fun col => toString (getProperty row (field col)))
                          (prop_columns p)))).
  { intros row. rewrite map_map. reflexivity. }
  split; [|split; [|split; [|split; [|split]]]].
  - unfold csvContent.
    rewrite (map_ext _ _ Hline).
    destruct (filteredRows p st) as [|row others].
    + cbn [map join]. rewrite app_nil_r. reflexivity.
    + reflexivity.
  - apply filteredRows_shown.
  - apply filteredRows_shown.
  - intros Hcols.
    rewrite <- (map_map
                  (fun row : Row =>
                     map (fun col => toString (getProperty row (field col)))
                         (prop_columns p))
                  (fun fields =>
                     join [COMMA]
                       (map (fun text => [QUOTE]
                                         ++ replaceAll QUOTE [QUOTE; QUOTE] text
                                         ++ [QUOTE]) fields))).
    apply CsvFacts.records_written.
    apply List.Forall_forall. intros fields Hin.
    apply in_map_iff in Hin as (row & <- & _).
    destruct (prop_columns p); [congruence|discriminate].
  - exact property_text.
  - vm_compute. reflexivity.
Qed.

(** C8 (rank badges).  For a cell in a column whose field contains [cutoff]
    or [rank] and whose value is a number, the badge is the one of
    [getRankBadge]: gold up to 1000, silver above 1000 up to 5000, bronze
    above 5000 up to 20000, none above 20000; the highlight rules play no
    part in it.  950 gets gold, 1500 silver and 25000 none. *)
Theorem rank_badge_thresholds (p : Props) (col : Column) (row : Row)
    (v : number) :
  includes (jss "cutoff") (field col) || includes (jss "rank") (field col) = true ->
  row !! field col = Some (Num v) ->
  rankBadge (renderCell p col row) = getRankBadge v /\
  (forall rules : list HighlightRule,
      rankBadge (renderCell {| prop_title := prop_title p;
                               prop_columns := prop_columns p;
                               prop_rows := prop_rows p;
                               highlightRules := rules |} col row)
      = rankBadge (renderCell p col row)) /\
  (leb v (ofZ 1000) = true -> getRankBadge v = Some Gold) /\
  (gtb v (ofZ 1000) = true -> leb v (ofZ 5000) = true ->
   getRankBadge v = Some Silver) /\
  (gtb v (ofZ 5000) = true -> leb v (ofZ 20000) = true ->
   getRankBadge v = Some Bronze) /\
  (gtb v (ofZ 20000) = true -> getRankBadge v = None) /\
  getRankBadge (ofZ 950) = Some Gold /\
  getRankBadge (ofZ 1500) = Some Silver /\
  getRankBadge (ofZ 25000) = None.
Proof.
  intros Hcol Hv.
  assert (Hrank : isRankColumn col = true).
  { unfold isRankColumn. apply orb_prop in Hcol as [Hc|Hc].
    - rewrite (toLowerCase_includes (jss "cutoff") (field col) eq_refl Hc).
      reflexivity.
    - rewrite (toLowerCase_includes (jss "rank") (field col) eq_refl Hc).
      apply orb_true_r. }
  assert (Hmono : forall a b : Z, (a <= b)%Z ->
            gtb v (ofZ b) = true -> leb v (ofZ a) = false).
  { intros a b Hab Hgt. destruct v as [|[]|q]; simpl in *; try discriminate;
      try reflexivity.
    apply negb_true_iff in Hgt.
    destruct (Qle_bool q (inject_Z a)) eqn:E; [|reflexivity].
    apply Qle_bool_iff in E.
    assert (Hle : Qle_bool q (inject_Z b) = true).
    { apply Qle_bool_iff. eapply Qle_trans; [exact E|].
      rewrite <- Zle_Qle. exact Hab. }
    congruence. }
  split; [|split; [|split; [|split; [|split; [|split]]]]].
  - unfold renderCell. cbn [rankBadge].
    rewrite Hrank, (getProperty_own _ _ _ Hv). reflexivity.
  - intros rules. reflexivity.
  - intros Hle. unfold getRankBadge. rewrite Hle. reflexivity.
  - intros Hgt Hle. unfold getRankBadge.
    rewrite (Hmono 1000%Z 1000%Z ltac:(lia) Hgt), Hle. reflexivity.
  - intros Hgt Hle. unfold getRankBadge.
    rewrite (Hmono 1000%Z 5000%Z ltac:(lia) Hgt).
    rewrite (Hmono 5000%Z 5000%Z ltac:(lia) Hgt), Hle. reflexivity.
  - intros Hgt. unfold getRankBadge.
    rewrite (Hmono 1000%Z 20000%Z ltac:(lia) Hgt).
    rewrite (Hmono 5000%Z 20000%Z ltac:(lia) Hgt).
    rewrite (Hmono 20000%Z 20000%Z ltac:(lia) Hgt). reflexivity.
  - repeat split; vm_compute; reflexivity.
Qed.

End WithHost.

End RendererClaims.

Module RendererExamples.
Import JS TableParser TableMessage RendererClaims.

(** The first click on the rank header sorts by rank, ascending. *)
Example click_rank_header :
  Samples.sortedByRank =
    {| sortColumn := Samples.rankField; sortDirection := Asc;
       searchQuery := []; showSearch := false |}.
Proof. vm_compute. reflexivity. Qed.

(** Witness of C6: the rows with ranks 8603, 290, 462 after a click on the
    rank header, a second click on that header, a click on the other header,
    and two names compared by a host that collates. *)
Lemma sort_contract_witness :
  sortedRows (H := asciiHost) Samples.rankProps Samples.sortedByRank =
    [ Samples.rankRow "ME Mechanical" 290; Samples.rankRow "EE Electrical" 462;
      Samples.rankRow "CS Computers" 8603 ] /\
  handleSort Samples.rankField Samples.sortedByRank =
    {| sortColumn := Samples.rankField; sortDirection := Desc;
       searchQuery := []; showSearch := false |} /\
  handleSort (jss "branch") Samples.sortedByRank =
    {| sortColumn := jss "branch"; sortDirection := Asc;
       searchQuery := []; showSearch := false |} /\
  compareRows (H := asciiHost) Samples.rankField Desc
    (Samples.rankRow "CS Computers" 8603) (Samples.rankRow "ME Mechanical" 290)
    = sub (ofZ 290) (ofZ 8603) /\
  compareRows (H := collatingHost) MoreSamples.nameField Asc
    MoreSamples.accentRow MoreSamples.plainRow
    = ofZ (SampleHost.collate ([233] ++ jss "cole") (jss "zoo")).
Proof.
  destruct (sort_contract (H := asciiHost))
    as (Hsame & Hother & Hnum & _ & _ & _ & Hex).
  destruct (sort_contract (H := collatingHost)) as (_ & _ & _ & Htext & _).
  split; [|split; [|split; [|split]]].
  - apply (Hex Samples.rankProps Samples.sortedByRank);
      vm_compute; reflexivity.
  - exact (Hsame Samples.sortedByRank).
  - apply (Hother (jss "branch") Samples.sortedByRank).
    vm_compute. discriminate.
  - apply (Hnum Samples.rankField); vm_compute; reflexivity.
  - destruct (Htext MoreSamples.nameField MoreSamples.accentRow
                MoreSamples.plainRow) as [Hasc _];
      [left; vm_compute; reflexivity|].
    rewrite Hasc. vm_compute. reflexivity.
Defined.

(** Counterexample to C6 as stated.  The comparator does not compare the
    lower-cased strings code unit by code unit: it calls [localeCompare],
    which collates.  With a host that files the letter of code unit 233, an
    accented [e], under [e], as the engines do, the name that starts with
    that letter comes before [zoo], and the rows are shown in that order,
    while by code units, 233 being greater than the 122 of [z], it comes
    after. *)
Lemma lexicographic_counterexample :
  compareRows (H := collatingHost) MoreSamples.nameField Asc
    MoreSamples.accentRow MoreSamples.plainRow = ofZ (-1) /\
  SampleHost.compareUnits
    (toLowerCase (Host := collatingHost) ([233] ++ jss "cole"))
    (toLowerCase (Host := collatingHost) (jss "zoo")) = 1%Z /\
  sortedRows (H := collatingHost) MoreSamples.nameProps MoreSamples.sortedByName
    = [MoreSamples.accentRow; MoreSamples.plainRow] /\
  ~ Stated.lexicographicComparator (H := collatingHost).
Proof.
  split; [vm_compute; reflexivity|].
  split; [vm_compute; reflexivity|].
  split; [vm_compute; reflexivity|].
  intros Hc.
  destruct (Hc MoreSamples.nameField MoreSamples.accentRow MoreSamples.plainRow)
    as (z & Ez & Hz); [left; vm_compute; reflexivity|].
  assert (Hz' : z = (-1)%Z).
  { vm_compute in Ez. injection Ez as Ez. symmetry. exact Ez. }
  subst z. vm_compute in Hz. discriminate Hz.
Qed.

(** The export follows the rows shown: with [CS] in the search box only the
    matching row is written. *)
Example export_follows_filter :
  csvContent (H := asciiHost) Samples.rankProps Samples.searchedCS =
    jss "Branch,Cutoff Rank" ++ [LF]
    ++ [QUOTE] ++ jss "CS Computers" ++ [QUOTE; COMMA; QUOTE] ++ jss "8603"
    ++ [QUOTE].
Proof. vm_compute. reflexivity. Qed.

(** A field the row does not have is exported as the text [undefined]. *)
Example export_missing_field :
  csvCell (H := asciiHost) (getProperty (∅ : Row) (jss "branch"))
  = [QUOTE] ++ jss "undefined" ++ [QUOTE].
Proof. vm_compute. reflexivity. Qed.

(** Unless the field names a member of [Object.prototype]: the table with
    the header [Constructor] and a data line without cells is parsed into a
    row without properties, and the export writes the text of the function
    [Object] for it. *)
Example export_inherited_field :
  parseMarkdownTable (H := asciiHost) MoreSamples.constructorTable
    = Normal (Some {| title := None;
                      columns := prop_columns MoreSamples.constructorProps;
                      rows := prop_rows MoreSamples.constructorProps |}) /\
  csvContent (H := asciiHost) MoreSamples.constructorProps initialState =
    jss "Constructor" ++ [LF]
    ++ [QUOTE] ++ jss "function Object() { [native code] }" ++ [QUOTE] /\
  CsvReader.records
    ([QUOTE] ++ jss "function Object() { [native code] }" ++ [QUOTE])
    = Some [[jss "function Object() { [native code] }"]].
Proof. repeat split; vm_compute; reflexivity. Qed.

(** The exported cell of the specification, read back. *)
Example quoted_cell_read_back :
  CsvReader.records Samples.quotedCellCsv = Some [[Samples.quotedCell]].
Proof. vm_compute. reflexivity. Qed.

(** Witness of C8: a rank of 950 in the cutoff-rank column. *)
Lemma rank_badge_thresholds_witness :
  includes (jss "cutoff") (field Samples.rankColumn)
    || includes (jss "rank") (field Samples.rankColumn) = true /\
  Samples.rankRow "CS Computers" 950 !! field Samples.rankColumn
    = Some (Num (ofZ 950)) /\
  rankBadge (renderCell (H := asciiHost) Samples.rankProps Samples.rankColumn
                        (Samples.rankRow "CS Computers" 950)) = Some Gold.
Proof.
  assert (Hcol : includes (jss "cutoff") (field Samples.rankColumn)
                 || includes (jss "rank") (field Samples.rankColumn) = true)
    by (vm_compute; reflexivity).
  assert (Hv : Samples.rankRow "CS Computers" 950 !! field Samples.rankColumn
               = Some (Num (ofZ 950)))
    by (vm_compute; reflexivity).
  split; [exact Hcol|]. split; [exact Hv|].
  destruct (rank_badge_thresholds (H := asciiHost) Samples.rankProps
              Samples.rankColumn _ _ Hcol Hv) as (Hb & _ & Hgold & _).
  rewrite Hb. apply Hgold. vm_compute. reflexivity.
Defined.

End RendererExamples.

(** ** The reconnect logic of the chat service *)

Module ServiceClaims.
Import ChatService.

Lemma closes_exhausted (k : nat) (s : Service) :
  maxReconnectAttempts s <= reconnectAttempts s ->
  closes k s = (s, repeat None k).
Proof.
  intros Hge. induction k as [|k IH]; simpl; [reflexivity|].
  unfold onclose, handleReconnect.
  destruct (reconnectAttempts s <? maxReconnectAttempts s) eqn:E.
  - apply N.ltb_lt in E. lia.
  - rewrite IH. reflexivity.
Qed.

Lemma closes_app (j k : nat) (s : Service) :
  closes (j + k) s =
    (fst (closes k (fst (closes j s))),
     snd (closes j s) ++ snd (closes k (fst (closes j s)))).
Proof.
  revert s. induction j as [|j IH]; intros s; simpl.
  - destruct (closes k s); reflexivity.
  - destruct (onclose s) as [s1 t]. rewrite IH.
    destruct (closes j s1) as [s2 ts]. reflexivity.
Qed.

(** C9, as amended (reconnection).  On a close, while fewer than five
    reconnect attempts have been made since the last successful open, the
    attempt count goes up by one and one reconnect is scheduled, after
    1000 ms times the new attempt number: the delay grows linearly, 1, 2,
    3, 4 and 5 seconds.  Once five attempts have been made a close schedules
    nothing and leaves the count as it is, so after an open any run of
    closes sets exactly these five timers and then none. *)
Theorem reconnect_linear_backoff (s : Service) :
  maxReconnectAttempts s = 5 ->
  onclose s =
    (if reconnectAttempts s <? 5
     then ({| reconnectAttempts := reconnectAttempts s + 1;
              maxReconnectAttempts := 5 |},
           Some (1000 * (reconnectAttempts s + 1)))
     else (s, None)) /\
  forall k : nat,
    closes (5 + k) (onopen s) =
      ({| reconnectAttempts := 5; maxReconnectAttempts := 5 |},
       [Some 1000; Some 2000; Some 3000; Some 4000; Some 5000]
       ++ repeat None k).
Proof.
  intros Hmax. split.
  - unfold onclose, handleReconnect. rewrite Hmax. cbn [reconnectAttempts].
    destruct (reconnectAttempts s <? 5); reflexivity.
  - intros k. rewrite closes_app. unfold onopen. rewrite Hmax.
    change (closes 5 {| reconnectAttempts := 0; maxReconnectAttempts := 5 |})
      with ({| reconnectAttempts := 5; maxReconnectAttempts := 5 |},
            [Some 1000; Some 2000; Some 3000; Some 4000; Some 5000]).
    cbn [fst snd]. rewrite closes_exhausted by (cbn; lia). reflexivity.
Qed.

(** Witness of C9 on a service that has just been constructed. *)
Lemma reconnect_linear_backoff_witness :
  maxReconnectAttempts newService = 5 /\
  onclose newService =
    ({| reconnectAttempts := 1; maxReconnectAttempts := 5 |}, Some 1000) /\
  closes 7 (onopen newService) =
    ({| reconnectAttempts := 5; maxReconnectAttempts := 5 |},
     [Some 1000; Some 2000; Some 3000; Some 4000; Some 5000; None; None]).
Proof.
  assert (Hmax : maxReconnectAttempts newService = 5) by reflexivity.
  destruct (reconnect_linear_backoff newService Hmax) as [Hone Hrun].
  split; [exact Hmax|]. split.
  - exact Hone.
  - exact (Hrun 2%nat).
Defined.

(** Counterexample to C9 as stated.  The delays of the first three attempts
    are 1000, 2000 and 3000 ms; no geometric progression passes through
    them, so the backoff is not exponential. *)
Lemma exponential_backoff_counterexample :
  backoffDelay 1 = Some 1000 /\ backoffDelay 2 = Some 2000 /\
  backoffDelay 3 = Some 3000 /\
  ~ Stated.exponentialBackoff backoffDelay.
Proof.
  split; [reflexivity|]. split; [reflexivity|]. split; [reflexivity|].
  intros (b & f & _ & Hd).
  destruct (Hd 1 ltac:(lia)) as (d1 & E1 & Q1).
  destruct (Hd 2 ltac:(lia)) as (d2 & E2 & Q2).
  destruct (Hd 3 ltac:(lia)) as (d3 & E3 & Q3).
  vm_compute in E1, E2, E3.
  injection E1 as <-. injection E2 as <-. injection E3 as <-.
  change (Z.of_N 1) with 1%Z in Q1. change (Z.of_N 2) with 2%Z in Q2.
  change (Z.of_N 3) with 3%Z in Q3.
  change (Z.of_N 1000) with 1000%Z in Q1. change (Z.of_N 2000) with 2000%Z in Q2.
  change (Z.of_N 3000) with 3000%Z in Q3.
  assert (Hsq : ((b * f ^ 1) * (b * f ^ 3) == (b * f ^ 2) * (b * f ^ 2))%Q).
  { simpl. ring. }
  rewrite <- Q1, <- Q2, <- Q3 in Hsq.
  vm_compute in Hsq. discriminate Hsq.
Qed.

End ServiceClaims.

(** ** The message handler of the chat page *)

Module ChatClaims.
Import JS AIChat.

(** C10 (frame of the error event).  An [error] event leaves the message
    list as it was: it sets the visible error text (the text of the event,
    or a fixed text when the event has none), clears the processing flag and
    empties the thinking steps, and touches nothing else. *)
Theorem error_event_keeps_messages (isExistingSession : bool)
    (now : jsstring) (message : option jsstring) (st : State) :
  let st' := onMessage isExistingSession now (Error message) st in
  messages st' = messages st /\
  error st' =
    match message with
    | Some (c :: m) => c :: m
    | _ => jss "An error occurred"
    end /\
  isProcessing st' = false /\
  thinkingSteps st' = [] /\
  isConnected st' = isConnected st.
Proof.
  destruct message as [[|c m]|]; repeat split; reflexivity.
Qed.

(** The handler that has captured [isExistingSession = false] would append
    the chunks of the stream to the greeting, an assistant message whose id
    does not start with [final-], and [response_complete], which looks for
    the id [streaming], would change no message.  No run of the effect
    registers that handler ([listening_from_url]). *)
Lemma stream_appends_to_greeting
    (greeting step1 at1 step2 at2 chunk1 chunk2 chunk3 tool id full : jsstring)
    (n0 n1 n2 n3 n4 n5 n6 n7 : jsstring) :
  run false
    [ (n0, Welcome greeting); (n1, Thinking step1 at1); (n2, Thinking step2 at2);
      (n3, ResponseChunk chunk1); (n4, ResponseChunk chunk2);
      (n5, ResponseChunk chunk3); (n6, ToolCall tool (jss "completed"));
      (n7, ResponseComplete id full) ]
    initialState =
  {| messages :=
       [ {| message_id := jss "welcome"; msg_role := Assistant;
            content := ((greeting ++ chunk1) ++ chunk2) ++ chunk3;
            timestamp := n0; metadata := None |} ];
     thinkingSteps := [];
     isProcessing := false;
     isConnected := true;
     error := [] |}.
Proof. reflexivity. Qed.




End ChatClaims.

Module ChatExamples.
Import JS AIChat.

(** A page opened without a session id.  The first run creates the session
    [s1] and navigates to it; the cleanup that follows closes its socket, so
    its [connect] rejects, and the run ends in the [catch] without a
    handler.  The second run finds [s1] in the URL and no history, and
    registers the handler with [isExistingSession = true]. *)
Example new_chat_runs :
  ChatInit.rerunOnNavigate MoreSamples.firstRun = true /\
  ChatInit.initializeChat MoreSamples.firstRun initialState
    = ChatInit.Ended (Some (jss "s1")) (ChatInit.failed initialState) /\
  ChatInit.rerunOnNavigate MoreSamples.secondRun = true /\
  ChatInit.initializeChat MoreSamples.secondRun (ChatInit.failed initialState)
    = ChatInit.Listening (jss "s1") true (ChatInit.failed initialState).
Proof. repeat split; reflexivity. Qed.


End ChatExamples.

(** ** More facts about strings *)

Module StringFacts.
Import JS Facts.

Lemma startsWith_app (prefix s : jsstring) :
  startsWith prefix s = true <-> exists post, s = prefix ++ post.
Proof.
  revert s. induction prefix as [|p prefix IH]; intros s; simpl.
  - split; [intros _; exists s; reflexivity|reflexivity].
  - destruct s as [|c s].
    + split; [discriminate|intros [post E]; discriminate].
    + rewrite andb_true_iff, N.eqb_eq, IH. split.
      * intros [-> [post ->]]. exists post. reflexivity.
      * intros [post E]. injection E as -> ->. split; [reflexivity|].
        exists post. reflexivity.
Qed.

(** [s.includes(needle)] says that [needle] sits somewhere in [s]. *)
Lemma includes_app (needle s : jsstring) :
  includes needle s = true <-> exists pre post, s = pre ++ needle ++ post.
Proof.
  induction s as [|c s IH]; simpl.
  - rewrite orb_false_r, startsWith_app. split.
    + intros [post E]. exists [], post. exact E.
    + intros (pre & post & E). destruct pre as [|x pre]; [|discriminate].
      exists post. exact E.
  - rewrite orb_true_iff, startsWith_app, IH. split.
    + intros [[post E]|(pre & post & E)].
      * exists [], post. exact E.
      * exists (c :: pre), post. rewrite E. reflexivity.
    + intros (pre & post & E). destruct pre as [|x pre].
      * left. exists post. exact E.
      * right. injection E as -> E. exists pre, post. exact E.
Qed.

Lemma includes_unit (c : codeUnit) (s : jsstring) :
  includes [c] s = true <-> In c s.
Proof.
  rewrite includes_app. split.
  - intros (pre & post & ->). apply in_or_app. right. left. reflexivity.
  - intros Hin. apply in_split in Hin as (pre & post & ->).
    exists pre, post. reflexivity.
Qed.

Lemma dropWhile_In (p : codeUnit -> bool) (s : jsstring) (c : codeUnit) :
  In c (dropWhile p s) -> In c s.
Proof.
  induction s as [|d s IH]; simpl; [intros []|].
  destruct (p d); [intros Hc; right; exact (IH Hc)|simpl; tauto].
Qed.

Lemma dropWhile_idem (p : codeUnit -> bool) (s : jsstring) :
  dropWhile p (dropWhile p s) = dropWhile p s.
Proof.
  induction s as [|d s IH]; simpl; [reflexivity|].
  destruct (p d) eqn:E; [exact IH|]. simpl. rewrite E. reflexivity.
Qed.

Lemma dropWhile_snoc (p : codeUnit -> bool) (s : jsstring) (c : codeUnit) :
  p c = false -> dropWhile p (s ++ [c]) = dropWhile p s ++ [c].
Proof.
  intros Hc. induction s as [|d s IH]; simpl; [rewrite Hc; reflexivity|].
  destruct (p d); [exact IH|reflexivity].
Qed.

(** The units of a trimmed string are units of the string. *)
Lemma trim_In (s : jsstring) (c : codeUnit) : In c (trim s) -> In c s.
Proof.
  unfold trim, trimEnd, trimStart. intros Hc.
  apply in_rev in Hc. apply dropWhile_In in Hc. apply in_rev in Hc.
  apply dropWhile_In in Hc. exact Hc.
Qed.

Lemma trimEnd_idem (s : jsstring) : trimEnd (trimEnd s) = trimEnd s.
Proof.
  unfold trimEnd. rewrite rev_involutive, dropWhile_idem. reflexivity.
Qed.

(** Trimming the end does not uncover white space at the start. *)
Lemma trimStart_trimEnd (s : jsstring) :
  trimStart s = s -> trimStart (trimEnd s) = trimEnd s.
Proof.
  destruct s as [|c t]; [reflexivity|].
  unfold trimStart, trimEnd. simpl.
  destruct (isWhiteSpace c) eqn:E.
  - intros Hs. exfalso.
    assert (Hin : In c (dropWhile isWhiteSpace t))
      by (rewrite Hs; left; reflexivity).
    assert (Hlen : forall u, (length (dropWhile isWhiteSpace u) <= length u)%nat).
    { induction u as [|x u IHu]; simpl; [lia|].
      destruct (isWhiteSpace x); simpl; lia. }
    specialize (Hlen t). rewrite Hs in Hlen. simpl in Hlen. lia.
  - intros _. rewrite (dropWhile_snoc _ _ _ E), rev_app_distr. simpl.
    rewrite E. reflexivity.
Qed.

(** [trim] is idempotent. *)
Lemma trim_idem (s : jsstring) : trim (trim s) = trim s.
Proof.
  unfold trim.
  rewrite (trimStart_trimEnd (trimStart s)) by apply dropWhile_idem.
  apply trimEnd_idem.
Qed.

(** No piece of a split contains the separator. *)
Lemma split_pieces (sep : codeUnit) (s piece : jsstring) :
  In piece (split sep s) -> ~ In sep piece.
Proof.
  revert piece. induction s as [|c s IH]; intros piece; simpl.
  - intros [<-|[]] [].
  - destruct (c =? sep) eqn:E.
    + intros [<-|Hp]; [intros []|exact (IH piece Hp)].
    + pose proof (split_not_nil sep s) as Hne.
      destruct (split sep s) as [|p ps]; [contradiction|].
      intros [<-|Hp].
      * intros [->|Hin]; [rewrite N.eqb_refl in E; discriminate|].
        apply (IH p); [left; reflexivity|exact Hin].
      * apply IH. right. exact Hp.
Qed.

Lemma split_without_sep (sep : codeUnit) (s : jsstring) :
  ~ In sep s -> split sep s = [s].
Proof.
  induction s as [|c s IH]; simpl; [reflexivity|]. intros Hno.
  destruct (c =? sep) eqn:E.
  - apply N.eqb_eq in E. exfalso. apply Hno. left. exact E.
  - rewrite IH by tauto. reflexivity.
Qed.

Lemma split_app (sep : codeUnit) (a b : jsstring) :
  ~ In sep a -> split sep (a ++ sep :: b) = a :: split sep b.
Proof.
  induction a as [|c a IH]; simpl; intros Hno.
  - rewrite N.eqb_refl. reflexivity.
  - destruct (c =? sep) eqn:E.
    + apply N.eqb_eq in E. exfalso. apply Hno. left. exact E.
    + rewrite IH by tauto. reflexivity.
Qed.

(** Splitting a join of lines that hold no separator gives the lines
    back. *)
Lemma split_join (sep : codeUnit) (lines : list jsstring) :
  lines <> [] -> Forall (fun l => ~ In sep l) lines ->
  split sep (join [sep] lines) = lines.
Proof.
  induction lines as [|l ls IH]; [congruence|]. intros _ Hall.
  inversion Hall as [|? ? Hl Hls]; subst.
  destruct ls as [|l' ls].
  - simpl. apply split_without_sep. exact Hl.
  - change (join [sep] (l :: l' :: ls)) with (l ++ sep :: join [sep] (l' :: ls)).
    rewrite split_app by exact Hl. rewrite IH; [reflexivity|discriminate|exact Hls].
Qed.

Lemma join_snoc (sep : jsstring) (parts : list jsstring) (p : jsstring) :
  parts <> [] -> join sep (parts ++ [p]) = join sep parts ++ sep ++ p.
Proof.
  induction parts as [|q qs IH]; [congruence|]. intros _.
  destruct qs as [|q' qs]; [reflexivity|].
  change (join sep ((q :: q' :: qs) ++ [p]))
    with (q ++ sep ++ join sep ((q' :: qs) ++ [p])).
  rewrite IH by discriminate.
  change (join sep (q :: q' :: qs)) with (q ++ sep ++ join sep (q' :: qs)).
  rewrite <- !app_assoc. reflexivity.
Qed.

End StringFacts.

(** ** More about the table parser *)

Module ParserExtras.
Import JS TableParser Facts StringFacts ParserFacts ParserClaims LineRuns.

Lemma ofNat_digits (n : nat) : forallb isDigit (ofNat n) = true.
Proof.
  unfold ofNat. induction (Nat.to_uint n) as [|d IH|d IH|d IH|d IH|d IH|d IH
                                              |d IH|d IH|d IH|d IH];
    simpl; try reflexivity; exact IH.
Qed.

Lemma collapseRuns_units (inRun : bool) (s : jsstring) :
  forallb (fun c => isFieldChar c || (c =? UNDERSCORE)) (collapseRuns inRun s)
  = true.
Proof.
  revert inRun. induction s as [|c s IH]; intros inRun; simpl; [reflexivity|].
  destruct (isFieldChar c) eqn:E.
  - simpl. rewrite E, IH. reflexivity.
  - destruct inRun; [apply IH|]. simpl. rewrite IH. reflexivity.
Qed.

Lemma stripEdgeUnderscores_In (s : jsstring) (c : codeUnit) :
  In c (stripEdgeUnderscores s) -> In c s.
Proof.
  unfold stripEdgeUnderscores.
  set (s1 := match s with 95 :: s' => s' | _ => s end).
  assert (H1 : In c s1 -> In c s).
  { subst s1. destruct s as [|[|p] s']; try tauto.
    repeat (destruct p as [p|p|]; try (simpl; tauto)). }
  intros Hc. apply H1.
  destruct (rev s1) as [|d r] eqn:Er; [exact Hc|].
  assert (H2 : In c (rev r) -> In c s1).
  { intros Hr. apply in_rev in Hr. apply in_rev. rewrite Er. right. exact Hr. }
  destruct d as [|p]; [exact Hc|].
  repeat (destruct p as [p|p|]; try exact Hc; try exact (H2 Hc)).
Qed.

Section WithHost.
Context `{H : Host}.

(** The field given to a header holds lower-case letters, digits and
    underscores only, and is not empty. *)
Lemma columnOf_field (index : nat) (header : jsstring) :
  field (columnOf index header) <> [] /\
  forallb (fun c => isFieldChar c || (c =? UNDERSCORE))
          (field (columnOf index header)) = true.
Proof.
  unfold columnOf. cbn [field]. fold (fieldOf header).
  destruct (fieldOf header) as [|c f] eqn:E; cbn [truthy isEmpty negb].
  - split; [discriminate|].
    rewrite forallb_app. apply andb_true_iff. split; [reflexivity|].
    apply forallb_forall. intros c Hc.
    pose proof (ofNat_digits index) as Hd.
    rewrite forallb_forall in Hd. unfold isFieldChar.
    rewrite (Hd c Hc). rewrite orb_true_r. reflexivity.
  - split; [discriminate|]. rewrite <- E.
    apply forallb_forall. intros d Hd. unfold fieldOf in Hd.
    apply stripEdgeUnderscores_In in Hd.
    pose proof (collapseRuns_units false (toLowerCase header)) as Hall.
    rewrite forallb_forall in Hall. exact (Hall d Hd).
Qed.

(** X1.  A parsed table has one row for every table line after the header
    and the separator, and one column for every non-empty header cell. *)
Theorem parsed_table_counts (content : jsstring) (t : ParsedTable) :
  parseMarkdownTable content = Normal (Some t) ->
  (length (rows t) + 2 = length (tableLinesOf content))%nat /\
  length (columns t) =
    length (splitCells (default [] (head (tableLinesOf content)))) /\
  (1 <= length (rows t))%nat.
Proof.
  intros Hp. apply parse_Some_inv in Hp as (Hlen & Hcols & Hrows).
  rewrite Hrows, Hcols, length_map, length_drop, length_imap. lia.
Qed.

(** X2.  Every column of a parsed table has a field that is not empty and
    holds only lower-case ASCII letters, digits and underscores, has a header
    name that is not empty and carries no white space at its ends, and is
    sortable. *)
Theorem parsed_columns_wellformed (content : jsstring) (t : ParsedTable)
    (col : Column) :
  parseMarkdownTable content = Normal (Some t) ->
  In col (columns t) ->
  field col <> [] /\
  forallb (fun c => isFieldChar c || (c =? UNDERSCORE)) (field col) = true /\
  headerName col <> [] /\
  trim (headerName col) = headerName col /\
  sortable col = Some true.
Proof.
  intros Hp Hcol. apply parse_Some_inv in Hp as (_ & Hcols & _).
  rewrite Hcols in Hcol. apply list_elem_of_In in Hcol.
  apply elem_of_lookup_imap in Hcol as (i & header & -> & Hh).
  destruct (columnOf_field i header) as [Hne Hunits].
  split; [exact Hne|]. split; [exact Hunits|].
  assert (Hin : In header (splitCells (default [] (head (tableLinesOf content)))))
    by (apply list_elem_of_In, list_elem_of_lookup; exists i; exact Hh).
  apply filter_In in Hin as [Hin Htruthy].
  apply in_map_iff in Hin as (piece & <- & _).
  cbn [headerName sortable columnOf].
  split; [|split; [apply trim_idem|reflexivity]].
  intros E. rewrite E in Htruthy. discriminate.
Qed.

End WithHost.

(** The cells read off a line are not empty, carry no white space at their
    ends and hold no pipe. *)
Lemma splitCells_cell (line cell : jsstring) :
  In cell (splitCells line) ->
  cell <> [] /\ trim cell = cell /\ ~ In PIPE cell.
Proof.
  intros Hin. apply filter_In in Hin as [Hin Htruthy].
  apply in_map_iff in Hin as (piece & <- & Hpiece).
  split; [intros E; rewrite E in Htruthy; discriminate|].
  split; [apply trim_idem|].
  intros Hpipe. apply trim_In in Hpipe.
  exact (split_pieces PIPE line piece Hpiece Hpipe).
Qed.

Section WithHost.
Context `{H : Host}.

(** X3.  A text stored in a row of a parsed table is never empty, has no
    white space at its ends and holds no pipe. *)
Theorem parsed_text_cells_trimmed (content : jsstring) (t : ParsedTable)
    (row : Row) (key s : jsstring) :
  parseMarkdownTable content = Normal (Some t) ->
  In row (rows t) ->
  row !! key = Some (Str s) ->
  s <> [] /\ trim s = s /\ ~ In PIPE s.
Proof.
  intros Hp Hrow Hv. apply parse_Some_inv in Hp as (_ & _ & Hrows).
  rewrite Hrows in Hrow. apply in_map_iff in Hrow as (line & <- & _).
  apply zipRow_lookup in Hv as (i & col & cell & _ & Hx & _ & Hv & _).
  assert (Hcell : In cell (splitCells line))
    by (apply list_elem_of_In, list_elem_of_lookup; exists i; exact Hx).
  pose proof (convertCell_cases col cell) as Hcases.
  rewrite <- Hv in Hcases. destruct Hcases as [-> _].
  apply splitCells_cell with (line := line). exact Hcell.
Qed.

End WithHost.

End ParserExtras.

(** ** The parts of a message *)

Module PartsExtras.
Import JS TableParser Facts StringFacts ParserFacts ParserClaims LineRuns.

Lemma sameKind_eq (a b : partType) : sameKind a b = true <-> a = b.
Proof. destruct a, b; simpl; split; congruence. Qed.

Lemma runsOf_cons (line : jsstring) (rest : list jsstring) :
  runsOf (line :: rest) = glue (kindOf line, [line]) (runsOf rest).
Proof. reflexivity. Qed.

(** The loop, started with a part being accumulated, returns the runs of
    the remaining lines glued to that part. *)
Lemma loop_runs (lines acc : list jsstring) (ps : list ContentPart)
    (kind : partType) :
  flush (fold_left splitStep lines
           {| parts := ps;
              currentPart := Some {| pending_type := kind; pending_lines := acc |};
              inTable := sameKind kind Table |})
  = ps ++ map partOf (glue (kind, acc) (runsOf lines)).
Proof.
  revert acc ps kind. induction lines as [|l ls IH]; intros acc ps kind.
  - reflexivity.
  - cbn [fold_left]. rewrite runsOf_cons.
    unfold splitStep at 2. cbn [inTable currentPart parts].
    unfold kindOf. destruct (startsWith [PIPE] (trim l)) eqn:El.
    + destruct kind; cbn [sameKind negb andb].
      * change true with (sameKind Table Table) at 1.
        unfold flush at 2. cbn [currentPart parts pending_type pending_lines].
        rewrite IH. rewrite <- app_assoc.
        destruct (runsOf ls) as [|[[] g] rest]; reflexivity.
      * cbn [pending_type pending_lines].
        change true with (sameKind Table Table) at 1. rewrite IH.
        destruct (runsOf ls) as [|[[] g] rest]; cbn [glue sameKind fst snd];
          rewrite <- ?app_assoc; reflexivity.
    + destruct kind; cbn [sameKind negb andb].
      * cbn [pending_type pending_lines].
        change false with (sameKind Text Table) at 1. rewrite IH.
        destruct (runsOf ls) as [|[[] g] rest]; cbn [glue sameKind fst snd];
          rewrite <- ?app_assoc; reflexivity.
      * change false with (sameKind Text Table) at 1.
        unfold flush at 2. cbn [currentPart parts pending_type pending_lines].
        rewrite IH. rewrite <- app_assoc.
        destruct (runsOf ls) as [|[[] g] rest]; reflexivity.
Qed.

(** What [splitContentWithTables] returns: the runs of the lines of the
    message, each joined into a part, without the parts that are blank. *)
Lemma split_as_runs (content : jsstring) :
  splitContentWithTables content =
  List.filter (fun part => truthy (trim (part_content part)))
              (map partOf (runsOf (split LF content))).
Proof.
  unfold splitContentWithTables. f_equal.
  destruct (split LF content) as [|l ls]; [reflexivity|].
  cbn [fold_left]. rewrite runsOf_cons.
  unfold splitStep at 2. cbn [inTable currentPart parts andb negb].
  unfold kindOf. destruct (startsWith [PIPE] (trim l)).
  - cbn [andb negb flush currentPart parts].
    change true with (sameKind Table Table). rewrite loop_runs. reflexivity.
  - cbn [andb negb].
    change false with (sameKind Text Table) at 1. rewrite loop_runs. reflexivity.
Qed.

Lemma glue_concat (run : partType * list jsstring)
    (runs : list (partType * list jsstring)) :
  concat (map snd (glue run runs)) = run.2 ++ concat (map snd runs).
Proof.
  destruct runs as [|[kind g] rest]; [reflexivity|]. simpl.
  destruct (sameKind run.1 kind); simpl; rewrite ?app_assoc; reflexivity.
Qed.

(** The runs, put end to end, are the lines. *)
Lemma runsOf_concat (lines : list jsstring) :
  concat (map snd (runsOf lines)) = lines.
Proof.
  induction lines as [|l ls IH]; [reflexivity|].
  rewrite runsOf_cons, glue_concat, IH. reflexivity.
Qed.

(** Every run has a line, and its lines are all of its kind. *)
Lemma runsOf_uniform (lines : list jsstring) :
  Forall (fun run => run.2 <> [] /\ Forall (fun l => kindOf l = run.1) run.2)
         (runsOf lines).
Proof.
  induction lines as [|l ls IH]; [constructor|].
  rewrite runsOf_cons. destruct (runsOf ls) as [|[kind g] rest]; simpl.
  - constructor; [|constructor]. split; [discriminate|].
    constructor; [reflexivity|constructor].
  - inversion IH as [|? ? [Hne Hall] Hrest]; subst.
    destruct (sameKind (kindOf l) kind) eqn:E.
    + apply sameKind_eq in E. constructor; [|exact Hrest]. simpl in *.
      split; [discriminate|]. constructor; [reflexivity|].
      rewrite E. exact Hall.
    + constructor; [|exact IH]. split; [discriminate|].
      constructor; [reflexivity|constructor].
Qed.

(** Neighbouring runs differ in kind. *)
Lemma runsOf_alternate (lines : list jsstring) (i : nat)
    (a b : partType * list jsstring) :
  runsOf lines !! i = Some a -> runsOf lines !! S i = Some b -> a.1 <> b.1.
Proof.
  revert i a b. induction lines as [|l ls IH]; intros i a b; [discriminate|].
  rewrite runsOf_cons. destruct (runsOf ls) as [|[kind g] rest] eqn:Er.
  - destruct i; discriminate.
  - cbn [glue fst snd]. destruct (sameKind (kindOf l) kind) eqn:E.
    + apply sameKind_eq in E. destruct i as [|i]; simpl.
      * intros [= <-] Hb. simpl. rewrite E.
        apply (IH 0%nat (kind, g) b); [reflexivity|exact Hb].
      * intros Ha Hb. apply (IH (S i) a b); assumption.
    + destruct i as [|i]; simpl.
      * intros [= <-] [= <-]. simpl. intros Heq.
        rewrite Heq in E. destruct kind; discriminate.
      * intros Ha Hb. apply (IH i a b); assumption.
Qed.

Lemma join_app (sep : jsstring) (a b : list jsstring) :
  a <> [] -> b <> [] -> join sep (a ++ b) = join sep a ++ sep ++ join sep b.
Proof.
  intros Ha Hb. induction a as [|x a IH]; [congruence|].
  destruct a as [|y a].
  - destruct b; [congruence|reflexivity].
  - change (join sep ((x :: y :: a) ++ b)) with (x ++ sep ++ join sep ((y :: a) ++ b)).
    rewrite IH by discriminate.
    change (join sep (x :: y :: a)) with (x ++ sep ++ join sep (y :: a)).
    rewrite <- !app_assoc. reflexivity.
Qed.

(** Joining joined groups is joining all their lines. *)
Lemma join_concat (sep : jsstring) (groups : list (list jsstring)) :
  Forall (fun g => g <> []) groups ->
  join sep (map (join sep) groups) = join sep (concat groups).
Proof.
  induction 1 as [|g gs Hg Hgs IH]; [reflexivity|].
  destruct gs as [|g' gs].
  - simpl. rewrite app_nil_r. reflexivity.
  - change (join sep (map (join sep) (g :: g' :: gs)))
      with (join sep g ++ sep ++ join sep (map (join sep) (g' :: gs))).
    rewrite IH. change (concat (g :: g' :: gs)) with (g ++ concat (g' :: gs)).
    rewrite join_app; [reflexivity|exact Hg|].
    inversion Hgs; subst. simpl. destruct g'; [congruence|discriminate].
Qed.

(** X4.  The parts of a message are cut without loss: the returned parts
    are, in order, the parts of a list that alternates between text and
    table and whose contents joined by line feeds give the message back;
    only parts that are blank are left out. *)
Theorem split_parts_rejoin (content : jsstring) :
  exists parts : list ContentPart,
    splitContentWithTables content =
      List.filter (fun part => truthy (trim (part_content part))) parts /\
    join [LF] (map part_content parts) = content /\
    forall i p q, parts !! i = Some p -> parts !! S i = Some q ->
                  part_type p <> part_type q.
Proof.
  exists (map partOf (runsOf (split LF content))).
  split; [apply split_as_runs|]. split.
  - rewrite map_map. unfold partOf. cbn [part_content].
    rewrite <- (map_map snd (join [LF])).
    rewrite join_concat.
    + rewrite runsOf_concat. apply join_split.
    + apply List.Forall_forall. intros g Hg.
      apply in_map_iff in Hg as (run & <- & Hrun).
      pose proof (runsOf_uniform (split LF content)) as Hall.
      rewrite List.Forall_forall in Hall. apply (Hall run Hrun).
  - intros i p q Hp Hq.
    rewrite list_lookup_fmap in Hp, Hq.
    destruct (runsOf (split LF content) !! i) as [a|] eqn:Ha; [|discriminate].
    destruct (runsOf (split LF content) !! S i) as [b|] eqn:Hb; [|discriminate].
    injection Hp as <-. injection Hq as <-.
    apply (runsOf_alternate _ i a b Ha Hb).
Qed.

(** The lines of a part, and what kind they are of. *)
Lemma part_lines (content : jsstring) (part : ContentPart) :
  In part (splitContentWithTables content) ->
  exists lines,
    lines <> [] /\
    part_content part = join [LF] lines /\
    split LF (part_content part) = lines /\
    Forall (fun l => In l (split LF content)) lines /\
    Forall (fun l => kindOf l = part_type part) lines.
Proof.
  rewrite split_as_runs. intros Hin. apply filter_In in Hin as [Hin _].
  apply in_map_iff in Hin as ([kind lines] & <- & Hrun).
  pose proof (runsOf_uniform (split LF content)) as Hall.
  rewrite List.Forall_forall in Hall.
  destruct (Hall _ Hrun) as [Hne Hkind]. simpl in Hne, Hkind.
  assert (Hsub : Forall (fun l => In l (split LF content)) lines).
  { apply List.Forall_forall. intros l Hl.
    rewrite <- (runsOf_concat (split LF content)).
    apply in_concat. exists lines. split; [|exact Hl].
    apply in_map_iff. exists (kind, lines). split; [reflexivity|exact Hrun]. }
  exists lines. cbn [partOf part_content part_type fst snd].
  repeat split; try assumption.
  apply split_join; [exact Hne|].
  apply List.Forall_forall. intros l Hl.
  rewrite List.Forall_forall in Hsub.
  apply (split_pieces LF content l (Hsub l Hl)).
Qed.

(** X5.  In a part returned for a message, every line of a table part
    starts with a pipe once trimmed, and no line of a text part does; the
    lines of a part are lines of the message, and the part is not blank. *)
Theorem split_parts_uniform (content : jsstring) (part : ContentPart) :
  In part (splitContentWithTables content) ->
  Forall (fun l =>
            In l (split LF content) /\
            startsWith [PIPE] (trim l) =
              match part_type part with Table => true | Text => false end)
         (split LF (part_content part)) /\
  trim (part_content part) <> [].
Proof.
  intros Hin. split.
  - destruct (part_lines content part Hin) as (lines & _ & _ & -> & Hsub & Hkind).
    apply List.Forall_forall. intros l Hl.
    rewrite List.Forall_forall in Hsub, Hkind.
    split; [exact (Hsub l Hl)|].
    specialize (Hkind l Hl). unfold kindOf in Hkind.
    destruct (startsWith [PIPE] (trim l)), (part_type part); congruence.
  - unfold splitContentWithTables in Hin. apply filter_In in Hin as [_ Hnb].
    intros E. rewrite E in Hnb. discriminate.
Qed.

End PartsExtras.

(** ** The parser behind a chat message *)

Module PipelineExtras.
Import JS TableParser TableMessage Facts StringFacts ParserFacts ParserClaims.
Import LineRuns PartsExtras.

Lemma filter_all {A} (p : A -> bool) (l : list A) :
  Forall (fun x => p x = true) l -> List.filter p l = l.
Proof.
  induction 1 as [|x l Hx Hl IH]; simpl; [reflexivity|].
  rewrite Hx, IH. reflexivity.
Qed.

(** A line that starts with a pipe once trimmed holds a pipe and is not
    blank. *)
Lemma table_line (l : jsstring) :
  kindOf l = Table -> truthy (trim l) = true /\ hasPipe l = true.
Proof.
  unfold kindOf. destruct (startsWith [PIPE] (trim l)) eqn:E; [|discriminate].
  intros _. apply startsWith_app in E as [post E]. split.
  - rewrite E. reflexivity.
  - apply includes_unit. apply trim_In. rewrite E. left. reflexivity.
Qed.

Section WithHost.
Context `{H : Host}.

(** X6.  For a table part of a message, as the chat message view parses
    it: every line of the part is a table line; the parser returns no table
    exactly when the part has fewer than three lines, and with three lines
    or more it returns a table without a title that has one row for each
    line after the second. *)
Theorem table_part_parse (content : jsstring) (part : ContentPart) :
  In part (splitContentWithTables content) ->
  part_type part = Table ->
  tableLinesOf (part_content part) = split LF (part_content part) /\
  exists result,
    parseMarkdownTable (part_content part) = Normal result /\
    (result = None <-> (length (split LF (part_content part)) < 3)%nat) /\
    match result with
    | None => (length (split LF (part_content part)) < 3)%nat
    | Some t =>
        (3 <= length (split LF (part_content part)))%nat /\
        title t = None /\
        (length (rows t) + 2 = length (split LF (part_content part)))%nat
    end.
Proof.
  intros Hin Htable.
  destruct (part_lines content part Hin) as (lines & Hne & _ & Hsplit & _ & Hkind).
  rewrite Htable in Hkind.
  assert (Hnb : nonBlankLines (part_content part) = lines).
  { unfold nonBlankLines. rewrite Hsplit. apply filter_all.
    eapply Forall_impl; [exact Hkind|]. intros l Hl. apply (table_line l Hl). }
  assert (Hpipes : Forall (fun l => hasPipe l = true) lines).
  { eapply Forall_impl; [exact Hkind|]. intros l Hl. apply (table_line l Hl). }
  assert (Hidx : findIndex hasPipe lines = Some 0%nat).
  { destruct lines as [|l ls]; [congruence|].
    inversion Hpipes; subst. simpl. rewrite H2. reflexivity. }
  assert (Htl : tableLinesOf (part_content part) = lines).
  { unfold tableLinesOf. rewrite Hnb, Hidx, drop_0. apply filter_all, Hpipes. }
  rewrite Hsplit. split; [exact Htl|].
  rewrite parse_normal_form, Hnb, Hidx, Htl.
  eexists. split; [reflexivity|].
  destruct (length lines <? 3)%nat eqn:E.
  - apply Nat.ltb_lt in E. split; [|exact E].
    split; [intros _; exact E|reflexivity].
  - apply Nat.ltb_ge in E. split.
    + split; [discriminate|lia].
    + cbn [title rows]. split; [exact E|]. split; [reflexivity|].
      rewrite length_map, length_drop. lia.
Qed.

End WithHost.

Lemma strip_head (s : jsstring) :
  match s with 95 :: s' => s' | _ => s end =
  match s with
  | c :: s' => if c =? UNDERSCORE then s' else s
  | [] => s
  end.
Proof.
  destruct s as [|[|p] s']; try reflexivity.
  repeat (destruct p as [p|p|]; try reflexivity).
Qed.

Lemma fieldChar_not_underscore (c : codeUnit) :
  isFieldChar c = true -> (c =? UNDERSCORE) = false.
Proof.
  unfold isFieldChar, isDigit, UNDERSCORE. intros Hc.
  apply N.eqb_neq. intros ->. vm_compute in Hc. discriminate.
Qed.

Lemma collapseRuns_fieldChars (kw post : jsstring) :
  forallb isFieldChar kw = true ->
  collapseRuns false (kw ++ post) = kw ++ collapseRuns false post.
Proof.
  induction kw as [|k kw IH]; simpl; [reflexivity|]. intros Hkw.
  apply andb_prop in Hkw as [Hk Hkw]. rewrite Hk, (IH Hkw). reflexivity.
Qed.

Lemma collapseRuns_keeps (inRun : bool) (pre kw post : jsstring) :
  kw <> [] -> forallb isFieldChar kw = true ->
  exists pre', collapseRuns inRun (pre ++ kw ++ post)
               = pre' ++ kw ++ collapseRuns false post.
Proof.
  intros Hne Hkw. revert inRun. induction pre as [|c pre IH]; intros inRun.
  - destruct kw as [|k kw]; [congruence|].
    simpl in *. apply andb_prop in Hkw as [Hk Hkw]. rewrite Hk.
    exists []. simpl. rewrite collapseRuns_fieldChars by exact Hkw.
    reflexivity.
  - simpl. destruct (isFieldChar c).
    + destruct (IH false) as [pre' E]. rewrite E. exists (c :: pre'). reflexivity.
    + destruct inRun.
      * apply IH.
      * destruct (IH true) as [pre' E]. rewrite E.
        exists (UNDERSCORE :: pre'). reflexivity.
Qed.

Lemma strip_last (s1 : jsstring) :
  match rev s1 with 95 :: r => rev r | _ => s1 end =
  match rev s1 with
  | c :: r => if c =? UNDERSCORE then rev r else s1
  | [] => s1
  end.
Proof.
  destruct (rev s1) as [|[|p] r]; try reflexivity.
  repeat (destruct p as [p|p|]; try reflexivity).
Qed.

(** A run of field characters in a text is still there when the edge
    underscores are removed. *)
Lemma stripEdgeUnderscores_keeps (pre kw post : jsstring) :
  kw <> [] -> forallb isFieldChar kw = true ->
  exists pre' post', stripEdgeUnderscores (pre ++ kw ++ post)
                     = pre' ++ kw ++ post'.
Proof.
  intros Hne Hkw. unfold stripEdgeUnderscores. cbv zeta.
  match goal with |- context [rev ?x] => remember x as s1 eqn:Es1 end.
  rewrite strip_head in Es1.
  assert (H1 : exists pre1, s1 = pre1 ++ kw ++ post).
  { rewrite Es1. clear Es1. destruct pre as [|x pre].
    - destruct kw as [|k kw]; [congruence|]. simpl in *.
      apply andb_prop in Hkw as [Hk _].
      rewrite (fieldChar_not_underscore k Hk). exists []. reflexivity.
    - simpl. destruct (x =? UNDERSCORE).
      + exists pre. reflexivity.
      + exists (x :: pre). reflexivity. }
  clear Es1.
  destruct H1 as [pre1 ->]. rewrite strip_last.
  destruct (exists_last Hne) as (kw0 & z & Ekw).
  assert (Hz : isFieldChar z = true).
  { rewrite Ekw, forallb_app in Hkw. apply andb_prop in Hkw as [_ Hz].
    simpl in Hz. rewrite andb_true_r in Hz. exact Hz. }
  destruct post as [|y post0 _] using rev_ind.
  - rewrite app_nil_r, rev_app_distr, Ekw, rev_app_distr. simpl.
    rewrite (fieldChar_not_underscore z Hz).
    exists pre1, []. rewrite app_nil_r. reflexivity.
  - rewrite !app_assoc, rev_app_distr. simpl.
    destruct (y =? UNDERSCORE).
    + rewrite rev_involutive. exists pre1, post0. rewrite app_assoc. reflexivity.
    + exists pre1, (post0 ++ [y]). rewrite !app_assoc. reflexivity.
Qed.

Section WithHost.
Context `{H : Host}.

(** A keyword of lower-case letters or digits found in the lower-cased
    header is found in the field. *)
Lemma field_keeps_keyword (index : nat) (header kw : jsstring) :
  kw <> [] -> forallb isFieldChar kw = true ->
  includes kw (toLowerCase header) = true ->
  includes kw (field (columnOf index header)) = true.
Proof.
  intros Hne Hkw Hin. apply includes_app in Hin as (pre & post & E).
  assert (Hf : exists pre' post', fieldOf header = pre' ++ kw ++ post').
  { unfold fieldOf. rewrite E.
    destruct (collapseRuns_keeps false pre kw post Hne Hkw) as [pre1 ->].
    apply stripEdgeUnderscores_keeps; assumption. }
  destruct Hf as (pre' & post' & Hf).
  unfold columnOf. cbn [field]. fold (fieldOf header). rewrite Hf.
  assert (Ht : truthy (pre' ++ kw ++ post') = true).
  { destruct pre'; [destruct kw; [congruence|]|]; reflexivity. }
  rewrite Ht. apply includes_app. exists pre', post'. reflexivity.
Qed.

(** X7.  From header to highlight: a column of a parsed table whose header,
    in lower case, mentions [rank] or [cutoff] is typed number, its field
    still mentions that word, so [getHighlightRules] gives it the rule with
    threshold 5000 and the renderer treats it as a rank column. *)
Theorem rank_header_gets_rule (content : jsstring) (t : ParsedTable)
    (col : Column) :
  parseMarkdownTable content = Normal (Some t) ->
  In col (columns t) ->
  includes (jss "rank") (toLowerCase (headerName col))
    || includes (jss "cutoff") (toLowerCase (headerName col)) = true ->
  type col = Some TNumber /\
  includes (jss "cutoff") (field col) || includes (jss "rank") (field col) = true /\
  In {| rule_column := field col; threshold := ofZ 5000; color := Success |}
     (getHighlightRules (columns t)) /\
  isRankColumn col = true.
Proof.
  intros Hp Hcol Hkw. apply parse_Some_inv in Hp as (_ & Hcols & _).
  pose proof Hcol as Hcol'. rewrite Hcols in Hcol'.
  apply list_elem_of_In in Hcol'.
  apply elem_of_lookup_imap in Hcol' as (i & header & Ecol & _).
  assert (Hheader : headerName col = header) by (rewrite Ecol; reflexivity).
  rewrite Hheader in Hkw.
  assert (Htype : type col = Some TNumber).
  { rewrite Ecol. cbn [type columnOf]. unfold isNumericColumn.
    apply orb_prop in Hkw as [Hk|Hk]; rewrite Hk; cbn [orb];
      rewrite ?orb_true_r; reflexivity. }
  assert (Hfield : includes (jss "cutoff") (field col)
                   || includes (jss "rank") (field col) = true).
  { rewrite Ecol. apply orb_prop in Hkw as [Hk|Hk].
    - rewrite (field_keeps_keyword i header (jss "rank")) by
        (try discriminate; try reflexivity; exact Hk).
      apply orb_true_r.
    - rewrite (field_keeps_keyword i header (jss "cutoff")) by
        (try discriminate; try reflexivity; exact Hk).
      reflexivity. }
  split; [exact Htype|]. split; [exact Hfield|]. split.
  - unfold getHighlightRules. apply in_flat_map. exists col.
    split; [exact Hcol|]. rewrite Htype, Hfield. left. reflexivity.
  - unfold isRankColumn. apply orb_prop in Hfield as [Hc|Hc].
    + rewrite (toLowerCase_includes (jss "cutoff") (field col) eq_refl Hc).
      reflexivity.
    + rewrite (toLowerCase_includes (jss "rank") (field col) eq_refl Hc).
      apply orb_true_r.
Qed.

End WithHost.

End PipelineExtras.

(** ** The regular expression matcher *)

Module RegexFacts.
Import JS RegexMeaning TableParser.

Lemma nullable_matches (r : regex) : nullable r = true <-> matches r [].
Proof.
  split.
  - induction r; simpl; intros Hn; try discriminate.
    + constructor.
    + apply andb_prop in Hn as [H1 H2].
      change (@nil codeUnit) with (@nil codeUnit ++ []).
      constructor; auto.
    + apply orb_prop in Hn as [H1|H2]; [apply MAltL|apply MAltR]; auto.
    + constructor.
  - intros Hm. remember (@nil codeUnit) as s eqn:Es.
    induction Hm; simpl; try discriminate; try reflexivity.
    + apply app_eq_nil in Es as [-> ->].
      rewrite IHHm1, IHHm2; reflexivity.
    + rewrite IHHm by exact Es. reflexivity.
    + rewrite IHHm by exact Es. apply orb_true_r.
Qed.

Lemma matches_void (s : jsstring) : matches Void s <-> False.
Proof. split; [intros Hm; inversion Hm|intros []]. Qed.

Lemma matches_eps (s : jsstring) : matches Eps s <-> s = [].
Proof.
  split; [intros Hm; inversion Hm; reflexivity|intros ->; constructor].
Qed.

Lemma matches_cat (r1 r2 : regex) (s : jsstring) :
  matches (Cat r1 r2) s <->
  exists u v, s = u ++ v /\ matches r1 u /\ matches r2 v.
Proof.
  split.
  - intros Hm. inversion Hm; subst. eauto.
  - intros (u & v & -> & Hu & Hv). constructor; assumption.
Qed.

Lemma matches_alt (r1 r2 : regex) (s : jsstring) :
  matches (Alt r1 r2) s <-> matches r1 s \/ matches r2 s.
Proof.
  split.
  - intros Hm. inversion Hm; subst; auto.
  - intros [Hm|Hm]; [apply MAltL|apply MAltR]; exact Hm.
Qed.

Lemma matches_cls (p : codeUnit -> bool) (s : jsstring) :
  matches (Cls p) s <-> exists c, s = [c] /\ p c = true.
Proof.
  split.
  - intros Hm. inversion Hm; subst. eauto.
  - intros (c & -> & Hc). constructor. exact Hc.
Qed.

Lemma matches_star_cons (r : regex) (c : codeUnit) (s : jsstring) :
  matches (Star r) (c :: s) <->
  exists u v, s = u ++ v /\ matches r (c :: u) /\ matches (Star r) v.
Proof.
  split.
  - intros Hm. inversion Hm; subst. eauto.
  - intros (u & v & -> & Hu & Hv). constructor; assumption.
Qed.

(** The derivative by [c] accepts what is left of a match after [c]. *)
Lemma deriv_matches (c : codeUnit) (r : regex) (s : jsstring) :
  matches (deriv c r) s <-> matches r (c :: s).
Proof.
  revert s. induction r as [| |p|r1 IH1 r2 IH2|r1 IH1 r2 IH2|r IH];
    intros s; simpl.
  - rewrite !matches_void. tauto.
  - rewrite matches_void, matches_eps. split; [tauto|discriminate].
  - rewrite matches_cls. destruct (p c) eqn:E.
    + rewrite matches_eps. split.
      * intros ->. exists c. auto.
      * intros (d & [= <- <-] & _). reflexivity.
    + rewrite matches_void. split; [tauto|].
      intros (d & [= Hc Hs] & Hd). congruence.
  - assert (Hcat : matches (Cat (deriv c r1) r2) s <->
                   exists u v, s = u ++ v /\ matches r1 (c :: u) /\ matches r2 v).
    { rewrite matches_cat. split; intros (u & v & E & Hu & Hv);
        exists u, v; repeat split; try assumption; apply IH1; exact Hu. }
    rewrite (matches_cat r1 r2 (c :: s)).
    destruct (nullable r1) eqn:En.
    + rewrite matches_alt, Hcat, IH2. split.
      * intros [(u & v & -> & Hu & Hv)|Hr].
        -- exists (c :: u), v. auto.
        -- exists [], (c :: s). split; [reflexivity|].
           split; [apply nullable_matches; exact En|exact Hr].
      * intros (u & v & E & Hu & Hv). destruct u as [|x u]; simpl in E.
        -- subst v. right. exact Hv.
        -- injection E as <- ->. left. exists u, v. auto.
    + rewrite Hcat. split.
      * intros (u & v & -> & Hu & Hv). exists (c :: u), v. auto.
      * intros (u & v & E & Hu & Hv). destruct u as [|x u]; simpl in E.
        -- apply nullable_matches in Hu. congruence.
        -- injection E as <- ->. exists u, v. auto.
  - rewrite !matches_alt, IH1, IH2. tauto.
  - rewrite matches_cat, matches_star_cons.
    split; intros (u & v & E & Hu & Hv); exists u, v;
      repeat split; try assumption; apply IH; exact Hu.
Qed.

(** The matcher decides membership in the language. *)
Lemma accepts_matches (r : regex) (s : jsstring) :
  accepts r s = true <-> matches r s.
Proof.
  revert r. induction s as [|c s IH]; intros r; simpl.
  - apply nullable_matches.
  - rewrite IH. apply deriv_matches.
Qed.

Lemma matches_chr (c : codeUnit) (s : jsstring) : matches (Chr c) s <-> s = [c].
Proof.
  unfold Chr. rewrite matches_cls. split.
  - intros (d & -> & Hd). apply N.eqb_eq in Hd. subst. reflexivity.
  - intros ->. exists c. split; [reflexivity|apply N.eqb_refl].
Qed.

Lemma matches_star_cls (p : codeUnit -> bool) (s : jsstring) :
  matches (Star (Cls p)) s <-> forallb p s = true.
Proof.
  split.
  - intros Hm. remember (Star (Cls p)) as r eqn:Er.
    induction Hm; try discriminate; [reflexivity|].
    injection Er as ->. apply matches_cls in Hm1 as (d & [= -> ->] & Hd).
    simpl. rewrite IHHm2 by reflexivity. rewrite Hd. reflexivity.
  - induction s as [|c s IH]; simpl; intros Hall; [constructor|].
    apply andb_prop in Hall as [Hc Hs].
    change (c :: s) with (c :: [] ++ s).
    constructor; [constructor; exact Hc|exact (IH Hs)].
Qed.

Lemma matches_plus_cls (p : codeUnit -> bool) (s : jsstring) :
  matches (Plus (Cls p)) s <-> s <> [] /\ forallb p s = true.
Proof.
  unfold Plus. rewrite matches_cat. split.
  - intros (u & v & -> & Hu & Hv). apply matches_cls in Hu as (c & -> & Hc).
    apply matches_star_cls in Hv. simpl. rewrite Hc, Hv.
    split; [discriminate|reflexivity].
  - intros [Hne Hall]. destruct s as [|c s]; [congruence|].
    simpl in Hall. apply andb_prop in Hall as [Hc Hs].
    exists [c], s. split; [reflexivity|]. split.
    + constructor. exact Hc.
    + apply matches_star_cls. exact Hs.
Qed.

(** [test] looks for a match anywhere in the text. *)
Lemma test_matches (r : regex) (s : jsstring) :
  test r s = true <->
  exists pre mid post, s = pre ++ mid ++ post /\ matches r mid.
Proof.
  unfold test. rewrite accepts_matches, matches_cat. split.
  - intros (pre & rest & -> & _ & Hrest).
    apply matches_cat in Hrest as (mid & post & -> & Hmid & _).
    exists pre, mid, post. split; [reflexivity|exact Hmid].
  - intros (pre & mid & post & -> & Hmid).
    assert (Hany : forall u, matches (Star anyUnit) u).
    { intros u. apply matches_star_cls. induction u; simpl; auto. }
    exists pre, (mid ++ post). split; [reflexivity|]. split; [apply Hany|].
    apply matches_cat. exists mid, post. auto.
Qed.

(** X8.  [hasMarkdownTable] is true exactly when the text holds, somewhere,
    a pipe, one or more units other than a line feed, a pipe, white space if
    any, a line feed, a pipe, one or more units that are white space, colons
    or dashes, and a pipe. *)
Theorem hasMarkdownTable_meaning (content : jsstring) :
  hasMarkdownTable content = true <->
  exists pre body gap rule post,
    content = pre ++ [PIPE] ++ body ++ [PIPE] ++ gap ++ [LF] ++ [PIPE]
              ++ rule ++ [PIPE] ++ post /\
    body <> [] /\ forallb (fun c => negb (c =? LF)) body = true /\
    forallb isWhiteSpace gap = true /\
    rule <> [] /\
    forallb (fun c => isWhiteSpace c || (c =? 58) || (c =? 45)) rule = true.
Proof.
  unfold hasMarkdownTable. rewrite test_matches. unfold tablePattern. split.
  - intros (pre & mid & post & -> & Hm).
    apply matches_cat in Hm as (u1 & m1 & -> & H1 & Hm).
    apply matches_cat in Hm as (body & m2 & -> & Hbody & Hm).
    apply matches_cat in Hm as (u2 & m3 & -> & H2 & Hm).
    apply matches_cat in Hm as (gap & m4 & -> & Hgap & Hm).
    apply matches_cat in Hm as (u3 & m5 & -> & H3 & Hm).
    apply matches_cat in Hm as (u4 & m6 & -> & H4 & Hm).
    apply matches_cat in Hm as (rule & u5 & -> & Hrule & H5).
    apply matches_chr in H1, H2, H3, H4, H5. subst.
    apply matches_plus_cls in Hbody as [Hb1 Hb2].
    apply matches_star_cls in Hgap.
    apply matches_plus_cls in Hrule as [Hr1 Hr2].
    exists pre, body, gap, rule, post.
    repeat split; try assumption.
    rewrite <- !app_assoc. reflexivity.
  - intros (pre & body & gap & rule & post & -> & Hb1 & Hb2 & Hgap & Hr1 & Hr2).
    exists pre,
      ([PIPE] ++ body ++ [PIPE] ++ gap ++ [LF] ++ [PIPE] ++ rule ++ [PIPE]),
      post.
    split; [rewrite <- !app_assoc; reflexivity|].
    repeat (apply MCat); try (apply matches_chr; reflexivity).
    + apply matches_plus_cls. auto.
    + apply matches_star_cls. exact Hgap.
    + apply matches_plus_cls. auto.
Qed.

End RegexFacts.

(** ** The order of Numbers *)

Module NumberFacts.
Import JS.

Lemma leb_trans (a b c : number) :
  leb a b = true -> leb b c = true -> leb a c = true.
Proof.
  destruct a as [|[]|x], b as [|[]|y], c as [|[]|z]; simpl;
    try discriminate; try reflexivity.
  intros Hxy Hyz. apply Qle_bool_iff in Hxy, Hyz. apply Qle_bool_iff.
  eapply Qle_trans; eassumption.
Qed.

Lemma leb_total (a b : number) :
  isNaN a = false -> isNaN b = false -> leb a b = true \/ leb b a = true.
Proof.
  destruct a as [|[]|x], b as [|[]|y]; simpl; try discriminate; auto.
  intros _ _. destruct (Qlt_le_dec x y) as [Hlt|Hle].
  - left. apply Qle_bool_iff. apply Qlt_le_weak. exact Hlt.
  - right. apply Qle_bool_iff. exact Hle.
Qed.

Lemma gtb_leb (a b : number) : gtb a b = true -> leb a b = false.
Proof.
  destruct a as [|[]|x], b as [|[]|y]; simpl; try discriminate; try reflexivity.
  intros E. apply negb_true_iff in E. exact E.
Qed.

(** The sign of a difference tells the order, when neither side is NaN. *)
Lemma sub_not_positive (a b : number) :
  isNaN a = false -> isNaN b = false ->
  (gtb (sub a b) (ofZ 0) = false <-> leb a b = true).
Proof.
  destruct a as [|[]|x], b as [|[]|y]; simpl; try discriminate;
    intros _ _; try (split; [reflexivity|reflexivity]);
    try (split; discriminate).
  rewrite negb_false_iff, !Qle_bool_iff. unfold inject_Z.
  split; intros Hle; lra.
Qed.

End NumberFacts.

(** ** More about the table renderer *)

Module RendererExtras.
Import JS TableParser TableMessage Facts StringFacts NumberFacts RendererClaims.

(** A list in order is left as it is by the sort. *)
Lemma sort_fixed {A} (cmp : A -> A -> number) (l : list A) :
  StronglySorted (fun x y => gtb (cmp x y) (ofZ 0) = false) l ->
  sort cmp l = l.
Proof.
  induction 1 as [|x l Hl IH Hx]; [reflexivity|].
  simpl. fold (sort cmp l). rewrite IH.
  destruct l as [|y l]; [reflexivity|].
  inversion Hx as [|? ? Hxy _]; subst. simpl. rewrite Hxy. reflexivity.
Qed.

(** The sort puts in order any list on whose elements the comparator is
    total and transitive. *)
Section SortedOn.
Context {A : Type} (cmp : A -> A -> number) (P : A -> Prop).

Let notBehind (x y : A) : Prop := gtb (cmp x y) (ofZ 0) = false.

Hypothesis notBehind_total :
  forall x y, P x -> P y -> notBehind x y \/ notBehind y x.
Hypothesis notBehind_trans :
  forall x y z, P x -> P y -> P z ->
                notBehind x y -> notBehind y z -> notBehind x z.

Lemma insertSorted_ordered_on (x : A) (l : list A) :
  P x -> Forall P l -> StronglySorted notBehind l ->
  StronglySorted notBehind (insertSorted cmp x l).
Proof.
  intros Px Pl Hs. induction Hs as [|y l Hl IH Hy]; simpl.
  - constructor; constructor.
  - inversion Pl as [|? ? Py Pl']; subst.
    destruct (gtb (cmp x y) (ofZ 0)) eqn:E.
    + constructor; [exact (IH Pl')|].
      assert (Hyx : notBehind y x).
      { destruct (notBehind_total x y Px Py) as [Hxy|Hyx]; [|exact Hyx].
        unfold notBehind in Hxy. congruence. }
      apply List.Forall_forall. intros z Hz.
      apply (Permutation_in _ (insertSorted_Permutation cmp x l)) in Hz.
      destruct Hz as [<-|Hz]; [exact Hyx|].
      rewrite List.Forall_forall in Hy. apply Hy. exact Hz.
    + constructor; [constructor; assumption|].
      constructor; [exact E|].
      apply List.Forall_forall. intros z Hz.
      rewrite List.Forall_forall in Hy, Pl'.
      apply (notBehind_trans x y z Px Py (Pl' z Hz) E). apply Hy. exact Hz.
Qed.

Lemma sort_ordered_on (l : list A) :
  Forall P l -> StronglySorted notBehind (sort cmp l).
Proof.
  induction 1 as [|x l Px Pl IH]; simpl; [constructor|].
  apply insertSorted_ordered_on; [exact Px| |exact IH].
  apply List.Forall_forall. intros z Hz. rewrite List.Forall_forall in Pl.
  apply Pl. apply (Permutation_in _ (sort_Permutation cmp l)). exact Hz.
Qed.

End SortedOn.

Lemma StronglySorted_impl_on {A} (P : A -> Prop) (R S : A -> A -> Prop)
    (l : list A) :
  (forall x y, P x -> P y -> R x y -> S x y) ->
  Forall P l -> StronglySorted R l -> StronglySorted S l.
Proof.
  intros Himp Pl Hs. induction Hs as [|x l Hl IH Hx]; [constructor|].
  inversion Pl as [|? ? Px Pl']; subst.
  constructor; [exact (IH Pl')|].
  rewrite List.Forall_forall in *. intros y Hy.
  apply Himp; auto.
Qed.

Section WithHost.
Context `{H : Host}.

(** On rows that hold a number other than NaN in the column, the
    comparator follows the order of the numbers. *)
Lemma compareRows_order (col : jsstring) (dir : direction) (a b : Row)
    (x y : number) :
  a !! col = Some (Num x) -> isNaN x = false ->
  b !! col = Some (Num y) -> isNaN y = false ->
  (gtb (compareRows col dir a b) (ofZ 0) = false <->
   match dir with Asc => leb x y | Desc => leb y x end = true).
Proof.
  intros Ha Hx Hb Hy. rewrite (compareRows_numbers _ _ a b x y Ha Hb).
  destruct dir; apply sub_not_positive; assumption.
Qed.

(** Such rows come out of the sort with no row behind a later one. *)
Lemma sort_numeric_rows (col : jsstring) (dir : direction) (rows : list Row) :
  Forall (fun row => exists n, row !! col = Some (Num n) /\ isNaN n = false)
         rows ->
  StronglySorted (fun a b => gtb (compareRows col dir a b) (ofZ 0) = false)
                 (sort (compareRows col dir) rows).
Proof.
  intros Hrows.
  apply (sort_ordered_on (compareRows col dir)
           (fun row => exists n, row !! col = Some (Num n) /\ isNaN n = false));
    [| |exact Hrows].
  - intros a b (x & Ha & Hx) (y & Hb & Hy).
    rewrite (compareRows_order col dir a b x y Ha Hx Hb Hy),
            (compareRows_order col dir b a y x Hb Hy Ha Hx).
    destruct dir; [apply leb_total|apply or_comm, leb_total]; assumption.
  - intros a b c (x & Ha & Hx) (y & Hb & Hy) (z & Hc & Hz).
    rewrite (compareRows_order col dir a b x y Ha Hx Hb Hy),
            (compareRows_order col dir b c y z Hb Hy Hc Hz),
            (compareRows_order col dir a c x z Ha Hx Hc Hz).
    destruct dir; intros H1 H2;
      [exact (leb_trans _ _ _ H1 H2)|exact (leb_trans _ _ _ H2 H1)].
Qed.

(** X9.  Sorting by a column in which every row holds a number other than
    NaN puts the rows in the order of these numbers: ascending, each row's
    number is at most the number of every later row; descending, at least.
    The rows shown are a rearrangement of the rows given. *)
Theorem numeric_sort_ordered (p : Props) (st : State) :
  truthy (sortColumn st) = true ->
  Forall (fun row => exists n, row !! sortColumn st = Some (Num n)
                               /\ isNaN n = false) (prop_rows p) ->
  StronglySorted
    (fun a b => exists x y,
         a !! sortColumn st = Some (Num x) /\
         b !! sortColumn st = Some (Num y) /\
         match sortDirection st with
         | Asc => leb x y
         | Desc => leb y x
         end = true)
    (sortedRows p st) /\
  Permutation (sortedRows p st) (prop_rows p).
Proof.
  intros Hcol Hrows. split; [|apply sortedRows_Permutation].
  unfold sortedRows. unfold truthy in Hcol. apply negb_true_iff in Hcol.
  rewrite Hcol.
  pose proof (sort_numeric_rows (sortColumn st) (sortDirection st) _ Hrows)
    as Hsorted.
  apply (StronglySorted_impl_on
           (fun row => exists n, row !! sortColumn st = Some (Num n)
                                 /\ isNaN n = false) _ _ _)
    with (3 := Hsorted).
  - intros a b (x & Ha & Hx) (y & Hb & Hy) Hab.
    exists x, y. split; [exact Ha|]. split; [exact Hb|].
    apply (compareRows_order _ _ a b x y Ha Hx Hb Hy). exact Hab.
  - apply List.Forall_forall. intros row Hrow.
    rewrite List.Forall_forall in Hrows. apply Hrows.
    apply (Permutation_in _ (sort_Permutation
             (compareRows (sortColumn st) (sortDirection st)) (prop_rows p))).
    exact Hrow.
Qed.

(** X27.  Sorting, by any column and in either direction, only rearranges:
    the rows shown are the rows given, each as often as it was given. *)
Theorem sorting_keeps_rows (p : Props) (st : State) :
  Permutation (sortedRows p st) (prop_rows p) /\
  length (sortedRows p st) = length (prop_rows p).
Proof.
  pose proof (sortedRows_Permutation p st) as Hperm.
  split; [exact Hperm|]. apply Permutation_length. exact Hperm.
Qed.

(** X10.  Sorting again by the same numeric column and direction changes
    nothing: rows that are already shown in order are shown as they are. *)
Theorem numeric_sort_idempotent (p : Props) (st : State) :
  Forall (fun row => exists n, row !! sortColumn st = Some (Num n)
                               /\ isNaN n = false) (prop_rows p) ->
  sortedRows {| prop_title := prop_title p; prop_columns := prop_columns p;
                prop_rows := sortedRows p st;
                highlightRules := highlightRules p |} st
  = sortedRows p st.
Proof.
  intros Hrows. unfold sortedRows. cbn [prop_rows].
  destruct (isEmpty (sortColumn st)); [reflexivity|].
  apply sort_fixed. apply sort_numeric_rows. exact Hrows.
Qed.

End WithHost.

End RendererExtras.

(** ** Filtering, exporting and colouring *)

Module ViewExtras.
Import JS TableParser TableMessage Facts StringFacts NumberFacts RendererClaims.

Lemma filter_length_le {A} (p : A -> bool) (l : list A) :
  (length (List.filter p l) <= length l)%nat.
Proof.
  induction l as [|x l IH]; simpl; [lia|]. destruct (p x); simpl; lia.
Qed.

Lemma values_lookup (row : Row) (val : cellValue) :
  In val (values row) <-> exists key, row !! key = Some val.
Proof.
  unfold values. rewrite <- list_elem_of_In, list_elem_of_fmap. split.
  - intros ([key v] & -> & Hkv). apply elem_of_map_to_list in Hkv.
    exists key. exact Hkv.
  - intros [key Hkey]. exists (key, val). split; [reflexivity|].
    apply elem_of_map_to_list. exact Hkey.
Qed.

Section WithHost.
Context `{H : Host}.

(** X11.  A row is shown exactly when it is one of the rows given and
    either the search text is blank or the lower-cased search text occurs in
    the lower-cased string form of one of the row's values; the rows shown
    are never more than the rows given. *)
Theorem filter_shows_matching_rows (p : Props) (st : State) (row : Row) :
  (In row (filteredRows p st) <->
   In row (prop_rows p) /\
   (trim (searchQuery st) = [] \/
    exists key val,
      row !! key = Some val /\
      includes (toLowerCase (searchQuery st))
               (toLowerCase (toString (Own val))) = true)) /\
  (length (filteredRows p st) <= length (prop_rows p))%nat.
Proof.
  assert (Hsorted : forall r, In r (sortedRows p st) <-> In r (prop_rows p)).
  { intros r. split; apply Permutation_in;
      [|symmetry]; apply sortedRows_Permutation. }
  assert (Hlen : length (sortedRows p st) = length (prop_rows p))
    by (apply Permutation_length, sortedRows_Permutation).
  unfold filteredRows. destruct (trim (searchQuery st)) as [|c q] eqn:Eq;
    cbn [isEmpty].
  - split; [|lia]. rewrite Hsorted. tauto.
  - split.
    + rewrite filter_In, Hsorted, existsb_exists. split.
      * intros [Hin (val & Hval & Hinc)]. split; [exact Hin|]. right.
        apply values_lookup in Hval as [key Hkey]. eauto.
      * intros [Hin [Hblank|(key & val & Hkey & Hinc)]]; [discriminate|].
        split; [exact Hin|]. exists val. split; [|exact Hinc].
        apply values_lookup. eauto.
    + rewrite <- Hlen. apply filter_length_le.
Qed.

(** X13.  Two cells are exported as the same text only when their values
    have the same string form: the quoting loses nothing. *)
Theorem csv_cell_injective (a b : property) :
  csvCell a = csvCell b <-> toString a = toString b.
Proof.
  unfold csvCell. split; [|intros ->; reflexivity].
  intros E. injection E as E.
  apply app_inv_tail in E. apply double_quotes_injective. exact E.
Qed.

End WithHost.

(** X12.  Clicks on one header alternate between two different states:
    whatever the state before, the second click on a header turns the
    direction left by the first click around (ascending becomes descending,
    descending becomes ascending), so its state differs from the first
    click's, and the third click gives the state of the first again.  On a
    header that was not the sort column the first click gives ascending and
    the second descending.  A click always leaves the header's field as the
    sort column, and no click changes the search text or the visibility of
    the search box. *)
Theorem handleSort_alternates (f : jsstring) (st : State) :
  handleSort f (handleSort f (handleSort f st)) = handleSort f st /\
  handleSort f (handleSort f st) <> handleSort f st /\
  sortDirection (handleSort f (handleSort f st))
    = match sortDirection (handleSort f st) with Asc => Desc | Desc => Asc end /\
  (sortColumn st <> f ->
   sortDirection (handleSort f st) = Asc /\
   sortDirection (handleSort f (handleSort f st)) = Desc) /\
  (sortColumn st = f ->
   sortDirection (handleSort f st)
     = match sortDirection st with Asc => Desc | Desc => Asc end) /\
  sortColumn (handleSort f st) = f /\
  searchQuery (handleSort f st) = searchQuery st /\
  showSearch (handleSort f st) = showSearch st.
Proof.
  unfold handleSort. destruct (eqb (sortColumn st) f) eqn:E.
  - apply eqb_eq in E. cbn [sortColumn sortDirection searchQuery showSearch].
    rewrite E, eqb_refl. cbn [sortColumn sortDirection searchQuery showSearch].
    rewrite eqb_refl. cbn [sortColumn sortDirection searchQuery showSearch].
    destruct (sortDirection st); cbn [flipDirection];
      repeat split; try reflexivity; try discriminate; congruence.
  - cbn [sortColumn sortDirection searchQuery showSearch].
    rewrite eqb_refl. cbn [sortColumn sortDirection searchQuery showSearch].
    rewrite eqb_refl. cbn [flipDirection].
    repeat split; try reflexivity; try discriminate.
    intros Ef. rewrite Ef, eqb_refl in E. discriminate.
Qed.

(** X14.  A better rank never gets a lesser badge: when a rank is at most
    another, it has gold if the other has gold, at least silver if the other
    has silver, and some badge if the other has one. *)
Theorem rank_badge_monotone (a b : number) :
  leb a b = true ->
  (getRankBadge b = Some Gold -> getRankBadge a = Some Gold) /\
  (getRankBadge b = Some Silver ->
   getRankBadge a = Some Gold \/ getRankBadge a = Some Silver) /\
  (getRankBadge b <> None -> getRankBadge a <> None).
Proof.
  intros Hab. unfold getRankBadge.
  destruct (leb b (ofZ 1000)) eqn:B1.
  { rewrite (leb_trans a b _ Hab B1).
    repeat split; auto; discriminate. }
  destruct (leb b (ofZ 5000)) eqn:B2.
  { pose proof (leb_trans a b _ Hab B2) as A2. rewrite A2.
    destruct (leb a (ofZ 1000)); repeat split; auto; discriminate. }
  destruct (leb b (ofZ 20000)) eqn:B3.
  { pose proof (leb_trans a b _ Hab B3) as A3. rewrite A3.
    destruct (leb a (ofZ 1000)), (leb a (ofZ 5000));
      repeat split; auto; discriminate. }
  repeat split; try discriminate. congruence.
Qed.

Lemma find_rule (cols : list Column) (f : jsstring) :
  match List.find (fun r => eqb (rule_column r) f) (getHighlightRules cols) with
  | Some rule => rule = {| rule_column := f; threshold := ofZ 5000;
                           color := Success |}
  | None => True
  end.
Proof.
  unfold getHighlightRules. induction cols as [|col cols IH]; simpl; [exact I|].
  destruct (type col) as [[|]|]; simpl; try exact IH.
  destruct (includes (jss "cutoff") (field col)
            || includes (jss "rank") (field col)); simpl; [|exact IH].
  destruct (eqb (field col) f) eqn:E; [|exact IH].
  apply eqb_eq in E. rewrite E. reflexivity.
Qed.

Lemma find_rule_some (cols : list Column) (col : Column) :
  In col cols -> type col = Some TNumber ->
  includes (jss "cutoff") (field col) || includes (jss "rank") (field col) = true ->
  List.find (fun r => eqb (rule_column r) (field col)) (getHighlightRules cols)
  <> None.
Proof.
  intros Hin Ht Hk. unfold getHighlightRules.
  induction cols as [|c cols IH]; [contradiction|]. simpl.
  destruct Hin as [->|Hin].
  - rewrite Ht, Hk. simpl. rewrite eqb_refl. discriminate.
  - destruct (type c) as [[|]|]; simpl; try exact (IH Hin).
    destruct (includes (jss "cutoff") (field c)
              || includes (jss "rank") (field c)); simpl; [|exact (IH Hin)].
    destruct (eqb (field c) (field col)); [discriminate|exact (IH Hin)].
Qed.

(** X15.  With the rules that [getHighlightRules] derives from the columns,
    a cell gets a colour exactly when its column is one of the number
    columns whose field mentions [cutoff] or [rank] and its value is a number
    of at most 5000, and the colour is then green; the yellow and the red
    band are never used. *)
Theorem derived_rules_only_green (cols : list Column) (f : jsstring)
    (value : property) (css : jsstring) :
  getCellColor (getHighlightRules cols) f value = Some css <->
  css = jss "#d4edda" /\
  (exists n, value = Own (Num n) /\ leb n (ofZ 5000) = true) /\
  (exists col, In col cols /\ field col = f /\ type col = Some TNumber /\
               includes (jss "cutoff") (field col)
               || includes (jss "rank") (field col) = true).
Proof.
  unfold getCellColor. pose proof (find_rule cols f) as Hrule. split.
  - destruct (List.find _ (getHighlightRules cols)) as [rule|] eqn:Ef;
      [|discriminate].
    subst rule. destruct value as [[s|n]|member|]; cbn [asNumber];
      try discriminate.
    cbn [threshold color sameColor]. rewrite !andb_false_r, andb_true_r.
    destruct (leb n (ofZ 5000)) eqn:E; [|discriminate].
    intros [= <-]. split; [reflexivity|]. split; [eauto|].
    apply find_some in Ef as [Hin _].
    unfold getHighlightRules in Hin.
    apply in_flat_map in Hin as (col & Hcol & Hr).
    exists col. destruct (type col) as [[|]|] eqn:Et; try contradiction.
    destruct (includes (jss "cutoff") (field col)
              || includes (jss "rank") (field col)) eqn:Ek; [|contradiction].
    destruct Hr as [Hr|[]]. injection Hr as Hf. auto.
  - intros (-> & (n & -> & Hn) & (col & Hin & <- & Ht & Hk)).
    pose proof (find_rule_some cols col Hin Ht Hk) as Hsome.
    destruct (List.find _ (getHighlightRules cols)) as [rule|];
      [|congruence].
    subst rule. cbn [asNumber threshold color sameColor].
    rewrite Hn. reflexivity.
Qed.

End ViewExtras.

(** ** The fields of a parsed table as property names *)

Module FieldExtras.
Import JS TableParser TableMessage Facts ParserClaims ParserExtras PipelineExtras.

(** Inside a run of other characters, what [collapseRuns] returns starts
    with a letter or a digit, if it is not empty. *)
Lemma collapseRuns_run_head (s : jsstring) :
  match collapseRuns true s with
  | [] => True
  | c :: _ => isFieldChar c = true
  end.
Proof.
  induction s as [|c s IH]; simpl; [exact I|].
  destruct (isFieldChar c) eqn:E; [exact E|exact IH].
Qed.

(** With the underscores at its edges removed, it starts with a letter or
    a digit from the start of the text on. *)
Lemma stripEdgeUnderscores_head (s : jsstring) :
  match stripEdgeUnderscores (collapseRuns false s) with
  | [] => True
  | c :: _ => isFieldChar c = true
  end.
Proof.
  unfold stripEdgeUnderscores. cbv zeta.
  assert (H1 : match (match collapseRuns false s with
                      | 95 :: s' => s'
                      | _ => collapseRuns false s
                      end) with
               | [] => True
               | c :: _ => isFieldChar c = true
               end).
  { rewrite strip_head. destruct s as [|c s']; simpl; [exact I|].
    destruct (isFieldChar c) eqn:E.
    - rewrite (fieldChar_not_underscore c E). exact E.
    - rewrite N.eqb_refl. apply collapseRuns_run_head. }
  revert H1.
  generalize (match collapseRuns false s with
              | 95 :: s' => s'
              | _ => collapseRuns false s
              end).
  intros s1 H1. rewrite strip_last.
  destruct (rev s1) as [|d r] eqn:Er; [exact H1|].
  destruct (d =? UNDERSCORE); [|exact H1].
  assert (Es1 : s1 = rev r ++ [d])
    by (rewrite <- (rev_involutive s1), Er; reflexivity).
  destruct (rev r) as [|x t]; [exact I|]. rewrite Es1 in H1. exact H1.
Qed.

(** A name with a code unit that no field holds is the field of no
    column. *)
Lemma eqb_other_units (f name : jsstring) :
  forallb (fun c => isFieldChar c || (c =? UNDERSCORE)) f = true ->
  forallb (fun c => isFieldChar c || (c =? UNDERSCORE)) name = false ->
  eqb f name = false.
Proof.
  intros Hf Hname. apply eqb_neq. intros E. congruence.
Qed.

Section WithHost.
Context `{H : Host}.

Lemma columnOf_field_head (index : nat) (header : jsstring) :
  exists c rest,
    field (columnOf index header) = c :: rest /\ isFieldChar c = true.
Proof.
  unfold columnOf. cbn [field]. fold (fieldOf header).
  pose proof (stripEdgeUnderscores_head (toLowerCase header)) as Hhead.
  fold (fieldOf header) in Hhead.
  destruct (fieldOf header) as [|c f]; cbn [truthy isEmpty negb].
  - eexists _, _. split; [reflexivity|]. vm_compute. reflexivity.
  - eauto.
Qed.

(** X28.  The field of a column of a parsed table starts with a lower-case
    letter or a digit.  So it is never [__proto__], the one name under
    which an assignment to a row would not make a property of the row; and
    the only member of [Object.prototype] that it can name is [constructor]:
    a read of a field that a row does not have returns the function
    [Object] for the field [constructor] and [undefined] for every other
    field. *)
Theorem parsed_field_reads (content : jsstring) (t : ParsedTable)
    (col : Column) (row : Row) :
  parseMarkdownTable content = Normal (Some t) ->
  In col (columns t) ->
  (exists c rest, field col = c :: rest /\ isFieldChar c = true) /\
  field col <> jss "__proto__" /\
  (row !! field col = None ->
   getProperty row (field col) =
     if eqb (field col) (jss "constructor")
     then Inherited (PrototypeFunction (jss "Object"))
     else Undefined).
Proof.
  intros Hp Hcol. apply parse_Some_inv in Hp as (_ & Hcols & _).
  rewrite Hcols in Hcol. apply list_elem_of_In in Hcol.
  apply elem_of_lookup_imap in Hcol as (i & header & -> & _).
  destruct (columnOf_field_head i header) as (c & rest & Ef & Hc).
  destruct (columnOf_field i header) as [_ Hunits].
  assert (Hproto : field (columnOf i header) <> jss "__proto__").
  { rewrite Ef. intros E. injection E as -> _. vm_compute in Hc. discriminate. }
  split; [eauto|]. split; [exact Hproto|].
  intros Hnone. unfold getProperty, objectPrototype. rewrite Hnone.
  destruct (eqb (field (columnOf i header)) (jss "constructor"));
    [reflexivity|].
  cbn [existsb].
  rewrite !(eqb_other_units _ _ Hunits) by (vm_compute; reflexivity).
  rewrite (eqb_neq _ _ Hproto). reflexivity.
Qed.

End WithHost.

End FieldExtras.

(** ** The socket of the chat service *)

Module SocketExtras.
Import JS ChatService ChatSocket.

Lemma closeSocket_length (id : nat) (store : list readyState) :
  length (closeSocket id store) = length store.
Proof.
  unfold closeSocket. destruct (store !! id) as [[]|];
    rewrite ?length_insert; reflexivity.
Qed.

Lemma step_bounded (ev : Event) (c : Client) :
  maxReconnectAttempts (service c) = 5 ->
  reconnectAttempts (service c) <= 5 ->
  Forall (fun d => exists k, 1 <= k <= 5 /\ d = 1000 * k) (timers c) ->
  maxReconnectAttempts (service (step ev c)) = 5 /\
  reconnectAttempts (service (step ev c)) <= 5 /\
  Forall (fun d => exists k, 1 <= k <= 5 /\ d = 1000 * k) (timers (step ev c)).
Proof.
  intros Hmax Hle Ht. destruct ev as [id|id|id|]; simpl.
  - repeat split; try assumption. lia.
  - unfold onclose, handleReconnect. rewrite Hmax.
    destruct (reconnectAttempts (service c) <? 5) eqn:E; simpl.
    + apply N.ltb_lt in E. repeat split; try lia.
      apply Forall_app. split; [exact Ht|].
      constructor; [|constructor].
      exists (reconnectAttempts (service c) + 1). split; [lia|reflexivity].
    + rewrite app_nil_r. auto.
  - auto.
  - auto.
Qed.

(** X16.  Whatever events reach a service, in whatever order, the count of
    reconnect attempts never passes five, and every reconnect timer it sets
    has a delay of one to five whole seconds. *)
Theorem reconnect_attempts_bounded (evs : list Event) :
  reconnectAttempts (service (run evs newClient)) <= 5 /\
  Forall (fun d => exists k, 1 <= k <= 5 /\ d = 1000 * k)
         (timers (run evs newClient)).
Proof.
  assert (Hinv : forall c,
    maxReconnectAttempts (service c) = 5 ->
    reconnectAttempts (service c) <= 5 ->
    Forall (fun d => exists k, 1 <= k <= 5 /\ d = 1000 * k) (timers c) ->
    reconnectAttempts (service (run evs c)) <= 5 /\
    Forall (fun d => exists k, 1 <= k <= 5 /\ d = 1000 * k) (timers (run evs c))).
  { induction evs as [|ev evs IH]; intros c Hmax Hle Ht; [auto|].
    destruct (step_bounded ev c Hmax Hle Ht) as (Hmax' & Hle' & Ht').
    exact (IH (step ev c) Hmax' Hle' Ht'). }
  apply Hinv; [reflexivity|cbn; lia|constructor].
Qed.

Lemma sendFrame_closed (frame : Frame) (c : Client) :
  isConnected c = false -> sendFrame frame c = Throw.
Proof.
  unfold isConnected, sendFrame. destruct (ws c) as [id|]; [|reflexivity].
  destruct (sockets c !! id) as [[]|]; try reflexivity. discriminate.
Qed.

Lemma sendFrame_open (frame : Frame) (c : Client) :
  isConnected c = true ->
  exists id,
    ws c = Some id /\
    sendFrame frame c =
      Normal {| service := service c; sockets := sockets c; ws := ws c;
                sent := sent c ++ [(id, frame)];
                timers := timers c;
                messageHandlers := messageHandlers c |}.
Proof.
  unfold isConnected, sendFrame. destruct (ws c) as [id|]; [|discriminate].
  destruct (sockets c !! id) as [[]|]; try discriminate.
  intros _. exists id. auto.
Qed.

(** X17.  [sendMessage] and [getHistory] throw exactly when [isConnected()]
    is false; when it is true they hand one frame to the socket held in
    [this.ws], after the frames sent before, and change nothing else. *)
Theorem send_needs_open_socket (c : Client) (message : jsstring) :
  (isConnected c = false ->
   sendMessage message c = Throw /\ getHistory c = Throw) /\
  (isConnected c = true ->
   exists id,
     ws c = Some id /\
     sendMessage message c =
       Normal {| service := service c; sockets := sockets c; ws := ws c;
                 sent := sent c ++ [(id, ChatMessageFrame message)];
                 timers := timers c;
                 messageHandlers := messageHandlers c |} /\
     getHistory c =
       Normal {| service := service c; sockets := sockets c; ws := ws c;
                 sent := sent c ++ [(id, GetHistoryFrame)];
                 timers := timers c;
                 messageHandlers := messageHandlers c |}).
Proof.
  unfold sendMessage, getHistory. split; intros Hc.
  - split; apply sendFrame_closed; exact Hc.
  - destruct (sendFrame_open (ChatMessageFrame message) c Hc) as (id & Hws & Hm).
    destruct (sendFrame_open GetHistoryFrame c Hc) as (id' & Hws' & Hh).
    assert (id' = id) by congruence. subst id'.
    exists id. auto.
Qed.

(** X18.  [disconnect()] does not stop the reconnection: after it the
    service is not connected, but when the close event of the socket it let
    go arrives and fewer than five attempts have been made, a timer is set,
    and when the timer fires the service holds a new socket that is
    connecting. *)
Theorem disconnect_then_reconnect (c : Client) (id : nat) :
  ws c = Some id ->
  reconnectAttempts (service c) < maxReconnectAttempts (service c) ->
  isConnected (disconnect c) = false /\
  ws (disconnect c) = None /\
  timers (run [Closed id] (disconnect c)) =
    timers c ++ [1000 * (reconnectAttempts (service c) + 1)] /\
  ws (run [Closed id; TimerFired] (disconnect c)) = Some (length (sockets c)) /\
  sockets (run [Closed id; TimerFired] (disconnect c)) !! length (sockets c)
    = Some CONNECTING.
Proof.
  intros Hws Hlt. unfold disconnect. rewrite Hws.
  apply N.ltb_lt in Hlt.
  unfold run, isConnected. cbn [fold_left step ws service timers sockets].
  unfold onclose, handleReconnect. rewrite Hlt.
  cbn [connect ws service timers sockets reconnectAttempts].
  repeat split.
  - rewrite length_insert, closeSocket_length. reflexivity.
  - rewrite lookup_app_r; rewrite length_insert, closeSocket_length; [|lia].
    rewrite Nat.sub_diag. reflexivity.
Qed.

Lemma existsb_eqb_In (h : nat) (l : list nat) :
  existsb (Nat.eqb h) l = true <-> In h l.
Proof.
  rewrite existsb_exists. split.
  - intros (x & Hx & E). apply Nat.eqb_eq in E. subst. exact Hx.
  - intros Hin. exists h. split; [exact Hin|apply Nat.eqb_refl].
Qed.

Lemma filter_absent (h : nat) (l : list nat) :
  ~ In h l -> List.filter (fun x => negb (Nat.eqb h x)) l = l.
Proof.
  induction l as [|x l IH]; simpl; [reflexivity|]. intros Hno.
  destruct (Nat.eqb h x) eqn:E.
  - apply Nat.eqb_eq in E. exfalso. apply Hno. left. congruence.
  - simpl. rewrite IH by tauto. reflexivity.
Qed.

(** X19.  The handlers form a set: subscribing a handler that is already
    there changes nothing, so a message reaches each handler once; after
    its unsubscribe function has run a handler gets no message; and
    subscribing a new handler and unsubscribing it again gives back the
    handlers there were. *)
Theorem handlers_form_a_set (c : Client) (h : nat) (type : jsstring) :
  NoDup (messageHandlers c) ->
  NoDup (messageHandlers (onMessage h c)) /\
  onMessage h (onMessage h c) = onMessage h c /\
  In (h, type) (handleMessage type (onMessage h c)) /\
  ~ In (h, type) (handleMessage type (unsubscribe h c)) /\
  (~ In h (messageHandlers c) -> unsubscribe h (onMessage h c) = c).
Proof.
  intros Hnd. unfold onMessage, unsubscribe, handleMessage.
  cbn [messageHandlers service sockets ws sent timers].
  destruct (existsb (Nat.eqb h) (messageHandlers c)) eqn:E.
  - pose proof (proj1 (existsb_eqb_In h _) E) as Hin.
    rewrite E. repeat split.
    + exact Hnd.
    + apply in_map_iff. exists h. auto.
    + intros Hx. apply in_map_iff in Hx as (x & [= ->] & Hx).
      apply filter_In in Hx as [_ Hx]. rewrite Nat.eqb_refl in Hx. discriminate.
    + intros Hno. contradiction.
  - assert (Hno : ~ In h (messageHandlers c)).
    { intros Hin. apply existsb_eqb_In in Hin. congruence. }
    assert (E' : existsb (Nat.eqb h) (messageHandlers c ++ [h]) = true).
    { apply existsb_eqb_In. apply in_or_app. right. left. reflexivity. }
    rewrite E'. repeat split.
    + apply NoDup_app. repeat split; try assumption.
      * intros x Hx Hh. apply list_elem_of_In in Hx, Hh.
        destruct Hh as [<-|[]]. contradiction.
      * apply NoDup_singleton.
    + apply in_map_iff. exists h. split; [reflexivity|].
      apply in_or_app. right. left. reflexivity.
    + intros Hx. apply in_map_iff in Hx as (x & [= ->] & Hx).
      apply filter_In in Hx as [_ Hx]. rewrite Nat.eqb_refl in Hx. discriminate.
    + intros _. rewrite List.filter_app, (filter_absent h _ Hno). simpl.
      rewrite Nat.eqb_refl. simpl. rewrite app_nil_r.
      destruct c; reflexivity.
Qed.

End SocketExtras.

(** ** More about the chat page *)

Module ChatExtras.
Import JS AIChat Facts.

Lemma list_snoc_inv {A} (l : list A) :
  l = [] \/ exists init x, l = init ++ [x].
Proof.
  destruct l as [|a l] using rev_ind; [left; reflexivity|].
  right. exists l, a. reflexivity.
Qed.

Lemma streaming_not_final :
  startsWith (jss "final-") (jss "streaming") = false.
Proof. reflexivity. Qed.

Lemma final_not_streaming (id : jsstring) :
  eqb (jss "final-" ++ id) (jss "streaming") = false.
Proof. reflexivity. Qed.

(** A chunk after a message that is not an assistant message in progress
    starts a new message. *)
Lemma appendChunk_fresh (now chunk : jsstring) (prev : list ChatMessage) :
  match last prev with
  | Some m => isAssistant (msg_role m)
              && negb (startsWith (jss "final-") (message_id m))
  | None => false
  end = false ->
  appendChunk now chunk prev =
    prev ++ [ {| message_id := jss "streaming"; msg_role := Assistant;
                 content := chunk; timestamp := now; metadata := None |} ].
Proof.
  unfold appendChunk. destruct (last prev) as [m|]; [|reflexivity].
  intros ->. reflexivity.
Qed.

(** A chunk after a streaming message is appended to it. *)
Lemma appendChunk_streaming (now chunk text stamp : jsstring)
    (prev : list ChatMessage) :
  appendChunk now chunk
    (prev ++ [ {| message_id := jss "streaming"; msg_role := Assistant;
                  content := text; timestamp := stamp; metadata := None |} ])
  = prev ++ [ {| message_id := jss "streaming"; msg_role := Assistant;
                 content := text ++ chunk; timestamp := stamp;
                 metadata := None |} ].
Proof.
  unfold appendChunk, dropLast. rewrite last_snoc, removelast_last.
  reflexivity.
Qed.

Lemma run_chunks_messages (b : bool) (chunks : list (jsstring * jsstring))
    (st : State) :
  messages (run b (map (fun nc => (nc.1, ResponseChunk nc.2)) chunks) st) =
  fold_left (fun ms nc => appendChunk nc.1 nc.2 ms) chunks (messages st).
Proof.
  revert st. induction chunks as [|[n c] chunks IH]; intros st; [reflexivity|].
  unfold run in *. cbn [map fold_left fst snd]. rewrite IH. reflexivity.
Qed.

Lemma fold_chunks_streaming (chunks : list (jsstring * jsstring))
    (text stamp : jsstring) (prev : list ChatMessage) :
  fold_left (fun ms nc => appendChunk nc.1 nc.2 ms) chunks
    (prev ++ [ {| message_id := jss "streaming"; msg_role := Assistant;
                  content := text; timestamp := stamp; metadata := None |} ])
  = prev ++ [ {| message_id := jss "streaming"; msg_role := Assistant;
                 content := text ++ concat (map snd chunks);
                 timestamp := stamp; metadata := None |} ].
Proof.
  revert text. induction chunks as [|[n c] chunks IH]; intros text.
  - simpl. rewrite app_nil_r. reflexivity.
  - cbn [fold_left fst snd map concat].
    rewrite appendChunk_streaming, IH, <- app_assoc. reflexivity.
Qed.

(** X20.  Streaming reassembly.  When the last message is not an assistant
    message in progress (the list is empty, or ends with the user's message
    or with a finalized message), any number of chunks, at least one, adds
    exactly one message, whose content is the chunks in order and whose time
    is that of the first chunk; [response_complete] then turns it into the
    finalized message with the server's text, and every earlier message is
    as it was. *)
Theorem chunks_reassemble (b : bool) (st : State)
    (first : jsstring * jsstring) (rest : list (jsstring * jsstring))
    (nowc id full : jsstring) :
  match last (messages st) with
  | Some m => isAssistant (msg_role m)
              && negb (startsWith (jss "final-") (message_id m))
  | None => false
  end = false ->
  let streamed :=
    run b (map (fun nc => (nc.1, ResponseChunk nc.2)) (first :: rest)) st in
  messages streamed =
    messages st ++
    [ {| message_id := jss "streaming"; msg_role := Assistant;
         content := concat (map snd (first :: rest));
         timestamp := first.1; metadata := None |} ] /\
  messages (onMessage b nowc (ResponseComplete id full) streamed) =
    messages st ++
    [ {| message_id := jss "final-" ++ id; msg_role := Assistant;
         content := full; timestamp := first.1; metadata := None |} ].
Proof.
  intros Hlast streamed.
  assert (Hs : messages streamed =
    messages st ++
    [ {| message_id := jss "streaming"; msg_role := Assistant;
         content := concat (map snd (first :: rest));
         timestamp := first.1; metadata := None |} ]).
  { subst streamed. rewrite run_chunks_messages. cbn [fold_left].
    rewrite (appendChunk_fresh _ _ _ Hlast), fold_chunks_streaming.
    reflexivity. }
  split; [exact Hs|]. clearbody streamed.
  cbn [onMessage setMessages setThinkingSteps setIsProcessing messages].
  rewrite Hs.
  unfold finalize, dropLast. rewrite last_snoc, removelast_last. reflexivity.
Qed.

(** X21.  No event other than [welcome] and [history] removes a message or
    touches any message but the last: the messages before the last stay
    where they are, and the list does not get shorter. *)
Theorem events_keep_earlier_messages (b : bool) (now : jsstring)
    (ev : ServerEvent) (st : State) :
  (forall greeting, ev <> Welcome greeting) ->
  (forall loaded, ev <> History loaded) ->
  (exists tail,
      messages (onMessage b now ev st) = removelast (messages st) ++ tail) /\
  (length (messages st) <= length (messages (onMessage b now ev st)))%nat.
Proof.
  intros Hw Hh.
  assert (Hsame : (exists tail, messages st = removelast (messages st) ++ tail)
                  /\ (length (messages st) <= length (messages st))%nat).
  { split; [|lia]. destruct (list_snoc_inv (messages st)) as [->|(i & x & ->)].
    - exists []. reflexivity.
    - exists [x]. rewrite removelast_last. reflexivity. }
  destruct ev as [g|s t|tool status|chunk|id full|m|loaded|ty];
    cbn [onMessage setMessages setThinkingSteps setIsProcessing setError
         messages]; try exact Hsame.
  - exfalso. exact (Hw g eq_refl).
  - destruct (eqb status (jss "completed")); exact Hsame.
  - unfold appendChunk, dropLast.
    destruct (list_snoc_inv (messages st)) as [->|(i & x & ->)].
    + simpl. split; [eexists; reflexivity|lia].
    + rewrite last_snoc, removelast_last.
      destruct (isAssistant (msg_role x) && _).
      * split; [eexists; reflexivity|]. rewrite !length_app. simpl. lia.
      * split; [|rewrite !length_app; simpl; lia].
        rewrite <- app_assoc. eexists. reflexivity.
  - unfold finalize, dropLast.
    destruct (list_snoc_inv (messages st)) as [->|(i & x & ->)].
    + simpl. split; [exists []; reflexivity|lia].
    + rewrite last_snoc, removelast_last.
      destruct (eqb (message_id x) (jss "streaming")).
      * split; [eexists; reflexivity|]. rewrite !length_app. simpl. lia.
      * split; [eexists; reflexivity|lia].
  - exfalso. exact (Hh loaded eq_refl).
Qed.

(** X22.  A second [response_complete] changes no message: once the
    streamed message has been finalized, or when there was none, a repeated
    or stray completion leaves the list as it is. *)
Theorem second_complete_is_harmless (b : bool) (now1 now2 : jsstring)
    (id1 full1 id2 full2 : jsstring) (st : State) :
  let st1 := onMessage b now1 (ResponseComplete id1 full1) st in
  messages (onMessage b now2 (ResponseComplete id2 full2) st1) = messages st1.
Proof.
  cbn [onMessage setMessages setThinkingSteps setIsProcessing messages].
  generalize (messages st). intros prev. unfold finalize, dropLast.
  destruct (list_snoc_inv prev) as [->|(i & x & ->)]; [reflexivity|].
  rewrite !last_snoc, !removelast_last.
  destruct (eqb (message_id x) (jss "streaming")) eqn:E.
  - rewrite last_snoc. cbn [message_id].
    rewrite final_not_streaming. reflexivity.
  - rewrite last_snoc, E. reflexivity.
Qed.


End ChatExtras.

(** ** The send path *)

Module SendExtras.
Import JS AIChat ChatPage Facts StringFacts.

(** X24.  The input box sends nothing when the text is blank or the box is
    disabled, and then neither the text, the service nor the page changes;
    what it does send is the text without white space at its ends, never
    empty, and the box is emptied. *)
Theorem input_sends_trimmed_text (disabled : bool) (draft : jsstring) :
  (truthy (trim draft) && negb disabled = false ->
   handleSend disabled draft = (None, draft) /\
   forall stamp now service st,
     inputDisabled st = disabled ->
     submit stamp now draft service st = (draft, service, st)) /\
  (truthy (trim draft) && negb disabled = true ->
   handleSend disabled draft = (Some (trim draft), []) /\
   trim draft <> [] /\ trim (trim draft) = trim draft).
Proof.
  unfold submit, handleSend. split; intros E.
  - rewrite E. split; [reflexivity|]. intros stamp now service st ->.
    rewrite E. reflexivity.
  - rewrite E. split; [reflexivity|]. split; [|apply trim_idem].
    apply andb_prop in E as [E _]. intros E'. rewrite E' in E. discriminate.
Qed.

(** X25.  A send on a socket that is not open: while the page shows the
    input as enabled, a message typed into the box is still appended to the
    list as the user's message, nothing goes to the socket, the error text
    is set and the processing flag stays off. *)
Theorem failed_send_keeps_user_message (stamp now draft : jsstring)
    (c : ChatSocket.Client) (st : State) :
  truthy (trim draft) = true ->
  inputDisabled st = false ->
  ChatSocket.isConnected c = false ->
  submit stamp now draft (Some c) st =
    ([], Some c,
     {| messages :=
          messages st ++
          [ {| message_id := jss "user-" ++ stamp; msg_role := User;
               content := trim draft; timestamp := now; metadata := None |} ];
        thinkingSteps := thinkingSteps st;
        isProcessing := false;
        isConnected := isConnected st;
        error := jss "Failed to send message. Please try again." |}).
Proof.
  intros Ht Hd Hc. unfold submit, handleSend. rewrite Hd, Ht. cbn [negb andb].
  unfold inputDisabled in Hd. apply orb_false_elim in Hd as [Hp _].
  unfold handleSendMessage. rewrite Hp.
  unfold ChatSocket.sendMessage.
  rewrite (SocketExtras.sendFrame_closed _ c Hc). reflexivity.
Qed.

(** X26.  A send on an open socket: the user's message is appended, one
    frame with the same text goes to the socket, the processing flag is set
    and the error is cleared; the page is then in the state that
    [AIChat.handleSendMessage] describes, and until the flag is cleared a
    further send does nothing. *)
Theorem accepted_send (stamp now message : jsstring)
    (c : ChatSocket.Client) (st : State) :
  isProcessing st = false ->
  ChatSocket.isConnected c = true ->
  exists id c',
    ChatSocket.ws c = Some id /\
    ChatSocket.sent c' =
      ChatSocket.sent c ++ [(id, ChatSocket.ChatMessageFrame message)] /\
    ChatPage.handleSendMessage stamp now message (Some c) st =
      (Some c', AIChat.handleSendMessage stamp now message st) /\
    isProcessing (AIChat.handleSendMessage stamp now message st) = true /\
    forall stamp' now' message',
      ChatPage.handleSendMessage stamp' now' message' (Some c')
        (AIChat.handleSendMessage stamp now message st)
      = (Some c', AIChat.handleSendMessage stamp now message st).
Proof.
  intros Hp Hc.
  destruct (SocketExtras.sendFrame_open
              (ChatSocket.ChatMessageFrame message) c Hc) as (id & Hws & Hsent).
  eexists id, _. split; [exact Hws|].
  unfold ChatPage.handleSendMessage, AIChat.handleSendMessage,
    ChatSocket.sendMessage.
  rewrite Hp, Hsent. cbn [ChatSocket.sent].
  repeat split; reflexivity.
Qed.

End SendExtras.

(** ** The further properties on concrete inputs *)

Module ExtraWitnesses.
Import JS TableParser TableMessage.

Lemma parsed_table_counts_witness :
  parseMarkdownTable (H := asciiHost) Samples.rankTable
    = Normal (Some (Samples.parsed Samples.rankTable)) /\
  (length (rows (Samples.parsed Samples.rankTable)) + 2
   = length (tableLinesOf Samples.rankTable))%nat /\
  length (columns (Samples.parsed Samples.rankTable)) =
    length (splitCells (default [] (head (tableLinesOf Samples.rankTable)))) /\
  (1 <= length (rows (Samples.parsed Samples.rankTable)))%nat.
Proof.
  assert (Hp : parseMarkdownTable (H := asciiHost) Samples.rankTable
               = Normal (Some (Samples.parsed Samples.rankTable)))
    by (vm_compute; reflexivity).
  split; [exact Hp|].
  exact (ParserExtras.parsed_table_counts (H := asciiHost) _ _ Hp).
Defined.

Lemma parsed_columns_wellformed_witness :
  parseMarkdownTable (H := asciiHost) Samples.rankTable
    = Normal (Some (Samples.parsed Samples.rankTable)) /\
  In Samples.rankColumn (columns (Samples.parsed Samples.rankTable)) /\
  field Samples.rankColumn <> [] /\
  forallb (fun c => isFieldChar c || (c =? UNDERSCORE))
          (field Samples.rankColumn) = true /\
  headerName Samples.rankColumn <> [] /\
  trim (headerName Samples.rankColumn) = headerName Samples.rankColumn /\
  sortable Samples.rankColumn = Some true.
Proof.
  assert (Hp : parseMarkdownTable (H := asciiHost) Samples.rankTable
               = Normal (Some (Samples.parsed Samples.rankTable)))
    by (vm_compute; reflexivity).
  assert (Hin : In Samples.rankColumn (columns (Samples.parsed Samples.rankTable)))
    by (vm_compute; right; left; reflexivity).
  split; [exact Hp|]. split; [exact Hin|].
  exact (ParserExtras.parsed_columns_wellformed (H := asciiHost) _ _ _ Hp Hin).
Defined.

Lemma parsed_text_cells_trimmed_witness :
  parseMarkdownTable (H := asciiHost) Samples.rankTable
    = Normal (Some (Samples.parsed Samples.rankTable)) /\
  In (<[jss "college" := Str (jss "BMS")]>
        (<[jss "cutoff_rank" := Str (jss "n/a")]> ∅))
     (rows (Samples.parsed Samples.rankTable)) /\
  jss "n/a" <> [] /\ trim (jss "n/a") = jss "n/a" /\ ~ In PIPE (jss "n/a").
Proof.
  assert (Hp : parseMarkdownTable (H := asciiHost) Samples.rankTable
               = Normal (Some (Samples.parsed Samples.rankTable)))
    by (vm_compute; reflexivity).
  assert (Hin : In (<[jss "college" := Str (jss "BMS")]>
                      (<[jss "cutoff_rank" := Str (jss "n/a")]> ∅))
                   (rows (Samples.parsed Samples.rankTable)))
    by (right; left; vm_compute; reflexivity).
  assert (Hv : (<[jss "college" := Str (jss "BMS")]>
                  (<[jss "cutoff_rank" := Str (jss "n/a")]> ∅) : Row)
               !! jss "cutoff_rank" = Some (Str (jss "n/a")))
    by (vm_compute; reflexivity).
  split; [exact Hp|]. split; [exact Hin|].
  exact (ParserExtras.parsed_text_cells_trimmed (H := asciiHost)
           _ _ _ _ _ Hp Hin Hv).
Defined.

Lemma split_parts_uniform_witness :
  In MoreSamples.tablePart (splitContentWithTables MoreSamples.mixedMessage) /\
  Forall (fun l =>
            In l (split LF MoreSamples.mixedMessage) /\
            startsWith [PIPE] (trim l) =
              match part_type MoreSamples.tablePart with
              | Table => true
              | Text => false
              end)
         (split LF (part_content MoreSamples.tablePart)) /\
  trim (part_content MoreSamples.tablePart) <> [].
Proof.
  assert (Hin : In MoreSamples.tablePart
                   (splitContentWithTables MoreSamples.mixedMessage))
    by (right; left; vm_compute; reflexivity).
  split; [exact Hin|].
  exact (PartsExtras.split_parts_uniform _ _ Hin).
Defined.

Lemma table_part_parse_witness :
  In MoreSamples.tablePart (splitContentWithTables MoreSamples.mixedMessage) /\
  part_type MoreSamples.tablePart = Table /\
  tableLinesOf (part_content MoreSamples.tablePart)
    = split LF (part_content MoreSamples.tablePart) /\
  exists result,
    parseMarkdownTable (H := asciiHost) (part_content MoreSamples.tablePart)
      = Normal result /\
    (result = None
     <-> (length (split LF (part_content MoreSamples.tablePart)) < 3)%nat) /\
    match result with
    | None => (length (split LF (part_content MoreSamples.tablePart)) < 3)%nat
    | Some t =>
        (3 <= length (split LF (part_content MoreSamples.tablePart)))%nat /\
        title t = None /\
        (length (rows t) + 2
         = length (split LF (part_content MoreSamples.tablePart)))%nat
    end.
Proof.
  assert (Hin : In MoreSamples.tablePart
                   (splitContentWithTables MoreSamples.mixedMessage))
    by (right; left; vm_compute; reflexivity).
  assert (Ht : part_type MoreSamples.tablePart = Table)
    by (vm_compute; reflexivity).
  split; [exact Hin|]. split; [exact Ht|].
  exact (PipelineExtras.table_part_parse (H := asciiHost) _ _ Hin Ht).
Defined.

Lemma rank_header_gets_rule_witness :
  parseMarkdownTable (H := asciiHost) Samples.rankTable
    = Normal (Some (Samples.parsed Samples.rankTable)) /\
  In Samples.rankColumn (columns (Samples.parsed Samples.rankTable)) /\
  type Samples.rankColumn = Some TNumber /\
  includes (jss "cutoff") (field Samples.rankColumn)
    || includes (jss "rank") (field Samples.rankColumn) = true /\
  In {| rule_column := field Samples.rankColumn; threshold := ofZ 5000;
        color := Success |}
     (getHighlightRules (columns (Samples.parsed Samples.rankTable))) /\
  isRankColumn (H := asciiHost) Samples.rankColumn = true.
Proof.
  assert (Hp : parseMarkdownTable (H := asciiHost) Samples.rankTable
               = Normal (Some (Samples.parsed Samples.rankTable)))
    by (vm_compute; reflexivity).
  assert (Hin : In Samples.rankColumn (columns (Samples.parsed Samples.rankTable)))
    by (vm_compute; right; left; reflexivity).
  assert (Hk : includes (jss "rank")
                 (toLowerCase (Host := asciiHost) (headerName Samples.rankColumn))
               || includes (jss "cutoff")
                    (toLowerCase (Host := asciiHost) (headerName Samples.rankColumn))
               = true)
    by (vm_compute; reflexivity).
  split; [exact Hp|]. split; [exact Hin|].
  exact (PipelineExtras.rank_header_gets_rule (H := asciiHost) _ _ _ Hp Hin Hk).
Defined.

Lemma numeric_sort_ordered_witness :
  truthy (sortColumn Samples.sortedByRank) = true /\
  StronglySorted
    (fun a b => exists x y,
         a !! sortColumn Samples.sortedByRank = Some (Num x) /\
         b !! sortColumn Samples.sortedByRank = Some (Num y) /\
         match sortDirection Samples.sortedByRank with
         | Asc => leb x y
         | Desc => leb y x
         end = true)
    (sortedRows (H := asciiHost) Samples.rankProps Samples.sortedByRank) /\
  Permutation (sortedRows (H := asciiHost) Samples.rankProps Samples.sortedByRank)
              (prop_rows Samples.rankProps).
Proof.
  assert (Hcol : truthy (sortColumn Samples.sortedByRank) = true)
    by (vm_compute; reflexivity).
  assert (Hrows : Forall (fun row => exists n,
                     row !! sortColumn Samples.sortedByRank = Some (Num n)
                     /\ isNaN n = false) (prop_rows Samples.rankProps)).
  { repeat constructor; eexists; split; vm_compute; reflexivity. }
  split; [exact Hcol|].
  exact (RendererExtras.numeric_sort_ordered (H := asciiHost) _ _ Hcol Hrows).
Defined.

Lemma numeric_sort_idempotent_witness :
  sortedRows (H := asciiHost)
    {| prop_title := prop_title Samples.rankProps;
       prop_columns := prop_columns Samples.rankProps;
       prop_rows := sortedRows (H := asciiHost) Samples.rankProps
                               Samples.sortedByRank;
       highlightRules := highlightRules Samples.rankProps |}
    Samples.sortedByRank
  = sortedRows (H := asciiHost) Samples.rankProps Samples.sortedByRank.
Proof.
  assert (Hrows : Forall (fun row => exists n,
                     row !! sortColumn Samples.sortedByRank = Some (Num n)
                     /\ isNaN n = false) (prop_rows Samples.rankProps)).
  { repeat constructor; eexists; split; vm_compute; reflexivity. }
  exact (RendererExtras.numeric_sort_idempotent (H := asciiHost) _ _ Hrows).
Defined.

Lemma rank_badge_monotone_witness :
  leb (ofZ 950) (ofZ 1500) = true /\
  (getRankBadge (ofZ 1500) = Some Gold -> getRankBadge (ofZ 950) = Some Gold) /\
  (getRankBadge (ofZ 1500) = Some Silver ->
   getRankBadge (ofZ 950) = Some Gold \/ getRankBadge (ofZ 950) = Some Silver) /\
  (getRankBadge (ofZ 1500) <> None -> getRankBadge (ofZ 950) <> None).
Proof.
  assert (Hle : leb (ofZ 950) (ofZ 1500) = true) by (vm_compute; reflexivity).
  split; [exact Hle|].
  exact (ViewExtras.rank_badge_monotone _ _ Hle).
Defined.

Lemma disconnect_then_reconnect_witness :
  ChatSocket.ws MoreSamples.openClient = Some 0%nat /\
  ChatSocket.isConnected MoreSamples.openClient = true /\
  ChatSocket.isConnected (ChatSocket.disconnect MoreSamples.openClient) = false /\
  ChatSocket.ws
    (ChatSocket.run [ChatSocket.Closed 0; ChatSocket.TimerFired]
       (ChatSocket.disconnect MoreSamples.openClient)) = Some 1%nat.
Proof.
  assert (Hws : ChatSocket.ws MoreSamples.openClient = Some 0%nat)
    by reflexivity.
  assert (Hlt : ChatService.reconnectAttempts
                  (ChatSocket.service MoreSamples.openClient)
                < ChatService.maxReconnectAttempts
                    (ChatSocket.service MoreSamples.openClient))
    by (vm_compute; reflexivity).
  destruct (SocketExtras.disconnect_then_reconnect _ _ Hws Hlt)
    as (Hdis & _ & _ & Hnew & _).
  split; [exact Hws|]. split; [reflexivity|]. split; [exact Hdis|exact Hnew].
Defined.

Lemma handlers_form_a_set_witness :
  NoDup (ChatSocket.messageHandlers ChatSocket.newClient) /\
  ChatSocket.handleMessage (jss "welcome")
    (ChatSocket.onMessage 7 (ChatSocket.onMessage 7 ChatSocket.newClient))
  = [(7%nat, jss "welcome")] /\
  ChatSocket.unsubscribe 7 (ChatSocket.onMessage 7 ChatSocket.newClient)
  = ChatSocket.newClient.
Proof.
  assert (Hnd : NoDup (ChatSocket.messageHandlers ChatSocket.newClient))
    by constructor.
  destruct (SocketExtras.handlers_form_a_set ChatSocket.newClient 7
              (jss "welcome") Hnd) as (_ & Hidem & _ & _ & Hback).
  split; [exact Hnd|]. split.
  - rewrite Hidem. reflexivity.
  - apply Hback. simpl. tauto.
Defined.

Lemma chunks_reassemble_witness :
  AIChat.messages
    (AIChat.onMessage true (jss "t9") (AIChat.ResponseComplete (jss "42") (jss "AB!"))
       (AIChat.run true
          [ (jss "t3", AIChat.ResponseChunk (jss "A"));
            (jss "t4", AIChat.ResponseChunk (jss "B")) ]
          MoreSamples.asked))
  = AIChat.messages MoreSamples.asked ++
    [ {| AIChat.message_id := jss "final-" ++ jss "42";
         AIChat.msg_role := AIChat.Assistant;
         AIChat.content := jss "AB!"; AIChat.timestamp := jss "t3";
         AIChat.metadata := None |} ].
Proof.
  assert (Hlast : match last (AIChat.messages MoreSamples.asked) with
                  | Some m => AIChat.isAssistant (AIChat.msg_role m)
                              && negb (startsWith (jss "final-")
                                         (AIChat.message_id m))
                  | None => false
                  end = false)
    by (vm_compute; reflexivity).
  exact (proj2 (ChatExtras.chunks_reassemble true MoreSamples.asked
                  (jss "t3", jss "A") [(jss "t4", jss "B")]
                  (jss "t9") (jss "42") (jss "AB!") Hlast)).
Defined.

Lemma events_keep_earlier_messages_witness :
  (exists tail,
      AIChat.messages
        (AIChat.onMessage true (jss "t3") (AIChat.ResponseChunk (jss "A"))
           MoreSamples.asked)
      = removelast (AIChat.messages MoreSamples.asked) ++ tail) /\
  (length (AIChat.messages MoreSamples.asked) <=
   length (AIChat.messages
             (AIChat.onMessage true (jss "t3") (AIChat.ResponseChunk (jss "A"))
                MoreSamples.asked)))%nat.
Proof.
  apply (ChatExtras.events_keep_earlier_messages false (jss "t3")
           (AIChat.ResponseChunk (jss "A")) MoreSamples.asked);
    intros ?; discriminate.
Defined.

Lemma failed_send_keeps_user_message_witness :
  truthy (trim (jss " hi ")) = true /\
  ChatPage.inputDisabled MoreSamples.greeted = false /\
  ChatSocket.isConnected MoreSamples.connectingClient = false /\
  ChatPage.submit (jss "17") (jss "t1") (jss " hi ")
    (Some MoreSamples.connectingClient) MoreSamples.greeted =
    ([], Some MoreSamples.connectingClient,
     {| AIChat.messages :=
          AIChat.messages MoreSamples.greeted ++
          [ {| AIChat.message_id := jss "user-" ++ jss "17";
               AIChat.msg_role := AIChat.User;
               AIChat.content := trim (jss " hi ");
               AIChat.timestamp := jss "t1"; AIChat.metadata := None |} ];
        AIChat.thinkingSteps := AIChat.thinkingSteps MoreSamples.greeted;
        AIChat.isProcessing := false;
        AIChat.isConnected := AIChat.isConnected MoreSamples.greeted;
        AIChat.error := jss "Failed to send message. Please try again." |}).
Proof.
  assert (Ht : truthy (trim (jss " hi ")) = true) by (vm_compute; reflexivity).
  assert (Hd : ChatPage.inputDisabled MoreSamples.greeted = false)
    by (vm_compute; reflexivity).
  assert (Hc : ChatSocket.isConnected MoreSamples.connectingClient = false)
    by (vm_compute; reflexivity).
  split; [exact Ht|]. split; [exact Hd|]. split; [exact Hc|].
  exact (SendExtras.failed_send_keeps_user_message _ _ _ _ _ Ht Hd Hc).
Defined.

Lemma accepted_send_witness :
  AIChat.isProcessing MoreSamples.greeted = false /\
  ChatSocket.isConnected MoreSamples.openClient = true /\
  exists id c',
    ChatSocket.ws MoreSamples.openClient = Some id /\
    ChatSocket.sent c' =
      ChatSocket.sent MoreSamples.openClient
      ++ [(id, ChatSocket.ChatMessageFrame (jss "Which colleges?"))] /\
    ChatPage.handleSendMessage (jss "17") (jss "t1") (jss "Which colleges?")
      (Some MoreSamples.openClient) MoreSamples.greeted =
      (Some c', MoreSamples.asked) /\
    AIChat.isProcessing MoreSamples.asked = true /\
    forall stamp' now' message',
      ChatPage.handleSendMessage stamp' now' message' (Some c') MoreSamples.asked
      = (Some c', MoreSamples.asked).
Proof.
  assert (Hp : AIChat.isProcessing MoreSamples.greeted = false) by reflexivity.
  assert (Hc : ChatSocket.isConnected MoreSamples.openClient = true)
    by reflexivity.
  split; [exact Hp|]. split; [exact Hc|].
  exact (SendExtras.accepted_send (jss "17") (jss "t1") (jss "Which colleges?")
           MoreSamples.openClient MoreSamples.greeted Hp Hc).
Defined.

Lemma parsed_field_reads_witness :
  parseMarkdownTable (H := asciiHost) MoreSamples.constructorTable
    = Normal (Some (Samples.parsed MoreSamples.constructorTable)) /\
  In MoreSamples.constructorColumn
     (columns (Samples.parsed MoreSamples.constructorTable)) /\
  ((∅ : Row) !! field MoreSamples.constructorColumn = None ->
   getProperty (∅ : Row) (field MoreSamples.constructorColumn)
     = Inherited (PrototypeFunction (jss "Object"))).
Proof.
  assert (Hp : parseMarkdownTable (H := asciiHost) MoreSamples.constructorTable
               = Normal (Some (Samples.parsed MoreSamples.constructorTable)))
    by (vm_compute; reflexivity).
  assert (Hcol : In MoreSamples.constructorColumn
                    (columns (Samples.parsed MoreSamples.constructorTable)))
    by (left; vm_compute; reflexivity).
  split; [exact Hp|]. split; [exact Hcol|].
  exact (proj2 (proj2 (FieldExtras.parsed_field_reads (H := asciiHost)
                         _ _ _ (∅ : Row) Hp Hcol))).
Defined.

End ExtraWitnesses.
